(** * Layout mapper: corner conversion, generation, stamping, mirroring, validation

    A shallow embedding of [scripts/mapper_utils.py] and of
    [calculate_coordinates_from_clicks] in [scripts/complete_manual_mapper.py].

    Python integers are unbounded, so they are [Z].  Python floats are IEEE 754
    binary64 values; they are modelled by [spec_float] with the operations of the
    standard library's [SpecFloat] at precision 53 and maximal exponent 1024.
    A raised exception is a value of [exn]; a computation that may raise lives
    in the [result] monad. *)

From Stdlib Require Import String Ascii ZArith Lia List Bool DecimalString.
From Stdlib Require Import Floats.SpecFloat.
Import ListNotations.

Local Open Scope string_scope.
Local Open Scope list_scope.
Local Open Scope Z_scope.

(** ** Exceptions and the error monad *)

(** A raised exception, identified by the name of its Python class. *)
Record exn := mkExn { exn_class : string }.

Definition IndexError : exn := mkExn "IndexError".
Definition TypeError : exn := mkExn "TypeError".
Definition OverflowError : exn := mkExn "OverflowError".
Definition ValueError : exn := mkExn "ValueError".

Inductive result (A : Type) : Type :=
| Ok (a : A)
| Raise (e : exn).

Arguments Ok {A} a.
Arguments Raise {A} e.

Definition bind {A B : Type} (r : result A) (k : A -> result B) : result B :=
  match r with
  | Ok a => k a
  | Raise e => Raise e
  end.

Notation "x <- e ;; k" := (bind e (fun x => k))
  (at level 61, e at next level, right associativity).
Notation "' pat <- e ;; k" := (bind e (fun x => match x with pat => k end))
  (at level 61, pat pattern, e at next level, right associativity).

(** [for x in xs: body], the loop state threaded through the iterations. *)
Fixpoint for_each {A S : Type} (xs : list A) (body : A -> S -> result S) (s : S)
  : result S :=
  match xs with
  | [] => Ok s
  | x :: xs' => s' <- body x s ;; for_each xs' body s'
  end.

(** [range(lo, hi)] as the list of its values. *)
Definition range (lo hi : nat) : list nat := seq lo (hi - lo).

(** [enumerate(xs)]. *)
Definition enumerate {A : Type} (xs : list A) : list (nat * A) :=
  combine (seq 0 (length xs)) xs.

(** [xs[i]] for a non-negative index. *)
Definition index {A : Type} (xs : list A) (i : nat) : result A :=
  match nth_error xs i with
  | Some a => Ok a
  | None => Raise IndexError
  end.

(** ** Python floats *)

Module PyFloat.

Definition prec : Z := 53.
Definition emax : Z := 1024.

(** [float(z)] as the arithmetic operators apply it to an [int] operand:
    the nearest binary64 value, ties to even; an [int] that rounds beyond
    the largest finite float raises [OverflowError]. *)
Definition of_int (z : Z) : result spec_float :=
  match binary_normalize prec emax z 0 false with
  | S754_infinity _ => Raise OverflowError
  | f => Ok f
  end.

(** [z / 2] on an [int]: true division returns the correctly rounded
    quotient, here the dyadic number [z * 2^-1], and raises
    [OverflowError] when that is too large for a float. *)
Definition int_truediv_2 (z : Z) : result spec_float :=
  match binary_normalize prec emax z (-1) false with
  | S754_infinity _ => Raise OverflowError
  | f => Ok f
  end.

(** The float [2.0], which the [int] literal [2] becomes in [2 * f]. *)
Definition two : spec_float := binary_normalize prec emax 2 0 false.

Definition mul (a b : spec_float) : spec_float := SFmul prec emax a b.
Definition sub (a b : spec_float) : spec_float := SFsub prec emax a b.

(** [int(f)]: truncation toward zero; infinities and NaN raise. *)
Definition to_int (f : spec_float) : result Z :=
  match f with
  | S754_zero _ => Ok 0
  | S754_finite s m e =>
      Ok (cond_Zopp s (if 0 <=? e then Zpos m * 2 ^ e else Zpos m / 2 ^ (- e)))
  | S754_infinity _ => Raise OverflowError
  | S754_nan => Raise ValueError
  end.

(** [f - z] with a float on the left and an [int] on the right; the right
    operand [None] is a [TypeError]. *)
Definition sub_int (f : spec_float) (z : option Z) : result spec_float :=
  match z with
  | None => Raise TypeError
  | Some z => fz <- of_int z ;; Ok (sub f fz)
  end.

(** Auxiliary notions for reasoning about exactly representable values:
    [shl_pos p n] is [p * 2^n]; [norm_m p] is [p] shifted to 53 digits;
    [exact_float z e] is the binary64 value [z * 2^e] for [|z| < 2^53]. *)
Definition shl_pos (p : positive) (n : Z) : positive :=
  match n with
  | Zpos k => Pos.iter xO p k
  | _ => p
  end.

Definition norm_m (p : positive) : positive :=
  shl_pos p (53 - Zpos (digits2_pos p)).

Definition exact_float (z e : Z) : spec_float :=
  match z with
  | 0 => S754_zero false
  | Zpos p => S754_finite false (norm_m p) (e - (53 - Zpos (digits2_pos p)))
  | Zneg p => S754_finite true (norm_m p) (e - (53 - Zpos (digits2_pos p)))
  end.

(** The integers on which the float arithmetic of the mapper is exact. *)
Definition small (z : Z) : Prop := Z.abs z < 2 ^ 53.

End PyFloat.

(** ** Data model *)

(** The dataclass [Coord]; [None] is Python's [None]. *)
Module Coord.
Record t := mk {
  x : Z;
  y : Z;
  width : option Z;
  height : option Z;
  hero_order : option Z;
  ability_order : option Z;
  is_ultimate : option bool
}.

Definition set_hero_order (v : option Z) (c : t) : t :=
  mk (x c) (y c) (width c) (height c) v (ability_order c) (is_ultimate c).

Definition set_ability_order (v : option Z) (c : t) : t :=
  mk (x c) (y c) (width c) (height c) (hero_order c) v (is_ultimate c).
End Coord.

(** The dict [{'x', 'y', 'width', 'height'}] the corner functions return. *)
Module Dims.
Record t := mk { x : Z; y : Z; width : Z; height : Z }.
End Dims.

(** The dict [{'width', 'height'}] of a category with one shared size. *)
Module Params.
Record t := mk { width : Z; height : Z }.
End Params.

(** The dict [Coord.to_dict] returns: [x] and [y] always present, every other
    key present exactly when its field is not [None]. *)
Module Item.
Record t := mk {
  x : Z;
  y : Z;
  width : option Z;
  height : option Z;
  hero_order : option Z;
  ability_order : option Z;
  is_ultimate : option bool
}.

(** [item.get(key, default)] for the integer-valued keys. *)
Definition get (item : t) (key : string) (default : Z) : Z :=
  if String.eqb key "x" then x item
  else if String.eqb key "y" then y item
  else if String.eqb key "width" then
    match width item with Some v => v | None => default end
  else if String.eqb key "height" then
    match height item with Some v => v | None => default end
  else if String.eqb key "hero_order" then
    match hero_order item with Some v => v | None => default end
  else if String.eqb key "ability_order" then
    match ability_order item with Some v => v | None => default end
  else default.
End Item.

Definition to_dict (c : Coord.t) : Item.t :=
  Item.mk (Coord.x c) (Coord.y c) (Coord.width c) (Coord.height c)
          (Coord.hero_order c) (Coord.ability_order c) (Coord.is_ultimate c).

(** A [Coord] built from the four keyword arguments of a [dims] dict. *)
Definition Coord_of_dims (d : Dims.t) : Coord.t :=
  Coord.mk (Dims.x d) (Dims.y d) (Some (Dims.width d)) (Some (Dims.height d))
           None None None.

(** [xs[i].field = v]: the object at position [i] is updated in place; the
    objects of one list are distinct. *)
Fixpoint update {A : Type} (xs : list A) (i : nat) (f : A -> A) : result (list A) :=
  match xs, i with
  | [], _ => Raise IndexError
  | a :: xs', O => Ok (f a :: xs')
  | a :: xs', S i' => xs'' <- update xs' i' f ;; Ok (a :: xs'')
  end.

(** [d.get(key, default)] on a dict written as its items in order. *)
Fixpoint dict_get {V : Type} (d : list (string * V)) (key : string) (default : V) : V :=
  match d with
  | [] => default
  | (k, v) :: d' => if String.eqb k key then v else dict_get d' key default
  end.

(** [key in keys] on a list of strings. *)
Definition str_in (key : string) (keys : list string) : bool :=
  existsb (String.eqb key) keys.

(** ** Corner conversion *)

Definition calculate_from_bottom_left_top_right (bl tr : Z * Z) : Dims.t :=
  let x := fst bl in
  let y := snd tr in
  let width := fst tr - fst bl in
  let height := snd bl - snd tr in
  Dims.mk x y width height.

Definition calculate_from_top_left_bottom_right (tl br : Z * Z) : Dims.t :=
  let x := fst tl in
  let y := snd tl in
  let width := fst br - fst tl in
  let height := snd br - snd tl in
  Dims.mk x y width height.

(** ** Mirroring of one position *)

Definition mirror_coordinate (x y : Z) (width height : option Z) (screen_width : Z)
  : result (Z * Z) :=
  screen_center <- PyFloat.int_truediv_2 screen_width ;;
  d1 <- PyFloat.sub_int (PyFloat.mul PyFloat.two screen_center) (Some x) ;;
  d2 <- PyFloat.sub_int d1 width ;;
  mirrored_x <- PyFloat.to_int d2 ;;
  Ok (mirrored_x, y).

(** ** Generation of the left side *)

Definition calculate_hero_spacing (hero0 hero1 : Dims.t) : Z :=
  Dims.y hero1 - Dims.y hero0.

Definition calculate_ability_spacing (ability1 ability2 : Dims.t) : Z :=
  Dims.x ability2 - Dims.x ability1.

Definition generate_heroes (hero0 hero1 : Dims.t) (heroes_params : Params.t)
  : list Coord.t :=
  let spacing := calculate_hero_spacing hero0 hero1 in
  let heroes := [] in
  let heroes :=
    fold_left (fun heroes '(i, hero) =>
      heroes ++ [Coord.mk (Dims.x hero) (Dims.y hero) None None
                          (Some (Z.of_nat i)) None None])
      (enumerate [hero0; hero1]) heroes in
  let heroes :=
    fold_left (fun heroes i =>
      heroes ++ [Coord.mk (Dims.x hero0)
                          (Dims.y hero1 + (Z.of_nat i - 1) * spacing) None None
                          (Some (Z.of_nat i)) None None])
      (range 2 5) heroes in
  heroes.

Definition generate_selected_abilities (ability1 ability2 : Dims.t)
  (heroes : list Coord.t) (selected_params : Params.t) : result (list Coord.t) :=
  let spacing := calculate_ability_spacing ability1 ability2 in
  let hero0_slots :=
    fold_left (fun hero0_slots slot_idx =>
      let x := Dims.x ability1 + Z.of_nat slot_idx * spacing in
      hero0_slots ++ [Coord.mk x (Dims.y ability1) None None (Some 0) None
                               (Some (Nat.eqb slot_idx 3))])
      (range 0 4) [] in
  let all_abilities := [] in
  h0 <- index heroes 0 ;;
  let hero0_y := Coord.y h0 in
  for_each heroes (fun hero all_abilities =>
    let y_offset := Coord.y hero - hero0_y in
    for_each (range 0 4) (fun slot_idx all_abilities =>
      slot <- index hero0_slots slot_idx ;;
      Ok (all_abilities ++ [Coord.mk (Coord.x slot) (Coord.y slot + y_offset)
                                      None None (Coord.hero_order hero) None
                                      (Some (Nat.eqb slot_idx 3))]))
      all_abilities)
    all_abilities.

(** ** Mirroring of a category *)

Definition hero_order_offset : list (string * Z) :=
  [("heroes", 5); ("models", 5); ("selected_abilities", 5);
   ("ultimates", 0); ("standards", 0)].

Definition mirror_elements_to_right (left_elements : list Coord.t)
  (screen_width : Z) (element_type : string) (has_dimensions : bool)
  (element_width element_height : Z) : result (list Coord.t) :=
  let right_elements := [] in
  let offset := dict_get hero_order_offset element_type 0 in
  for_each left_elements (fun elem right_elements =>
    let '(width, height) :=
      if has_dimensions then (Coord.width elem, Coord.height elem)
      else (Some element_width, Some element_height) in
    '(mirrored_x, mirrored_y) <-
      mirror_coordinate (Coord.x elem) (Coord.y elem) width height screen_width ;;
    let new_hero_order :=
      match Coord.hero_order elem with
      | Some ho =>
          if ho =? 10 then Some 11
          else if str_in element_type ["heroes"; "models"; "selected_abilities"]
               then Some (ho + offset)
               else Some ho
      | None => None
      end in
    Ok (right_elements ++
        [Coord.mk mirrored_x mirrored_y
                  (if has_dimensions then width else None)
                  (if has_dimensions then height else None)
                  new_hero_order (Coord.ability_order elem)
                  (Coord.is_ultimate elem)]))
    right_elements.

(** ** Identity stamping *)

Definition apply_ultimate_hero_orders (ultimates : list Coord.t) (is_left_side : bool)
  : result (list Coord.t) :=
  let orders :=
    if is_left_side then [0; 1; 2; 3; 4; 10] else [7; 6; 5; 11; 9; 8] in
  for_each (enumerate ultimates) (fun '(i, ult) ultimates =>
    o <- index orders i ;;
    update ultimates i (Coord.set_hero_order (Some o)))
    ultimates.

Definition apply_standard_hero_orders (standards : list Coord.t) (is_left_side : bool)
  : result (list Coord.t) :=
  let hero_orders :=
    if is_left_side then [0; 1; 2; 3; 4; 10] else [5; 6; 7; 8; 9; 11] in
  for_each (range 0 6) (fun row_idx standards =>
    for_each (range 0 3) (fun col_idx standards =>
      let idx := (row_idx * 3 + col_idx)%nat in
      ho <- index hero_orders row_idx ;;
      standards <- update standards idx (Coord.set_hero_order (Some ho)) ;;
      update standards idx
             (Coord.set_ability_order (Some (Z.of_nat col_idx + 1))))
      standards)
    standards.

(** ** The assembled document *)

(** The dict [coords]; a key that is absent is [None]. *)
Module Coords.
Record t := mk {
  heroes_params : option Params.t;
  selected_abilities_params : option Params.t;
  ultimate_slots_coords : option (list Item.t);
  standard_slots_coords : option (list Item.t);
  models_coords : option (list Item.t);
  heroes_coords : option (list Item.t);
  selected_abilities_coords : option (list Item.t)
}.

(** [coords[category]] for the keys that hold a list of regions. *)
Definition items (c : t) (category : string) : option (list Item.t) :=
  if String.eqb category "ultimate_slots_coords" then ultimate_slots_coords c
  else if String.eqb category "standard_slots_coords" then standard_slots_coords c
  else if String.eqb category "models_coords" then models_coords c
  else if String.eqb category "heroes_coords" then heroes_coords c
  else if String.eqb category "selected_abilities_coords"
       then selected_abilities_coords c
  else None.

(** [coords[params_key]] for the keys that hold a shared size. *)
Definition params (c : t) (params_key : string) : option Params.t :=
  if String.eqb params_key "heroes_params" then heroes_params c
  else if String.eqb params_key "selected_abilities_params"
       then selected_abilities_params c
  else None.
End Coords.

(** ** [calculate_coordinates_from_clicks] *)

Definition calculate_coordinates_from_clicks (points : list (Z * Z)) (screen_width : Z)
  : result Coords.t :=
  let idx := 0%nat in
  '(left_ultimates, idx) <-
    for_each (range 0 6) (fun i '(left_ultimates, idx) =>
      bl <- index points idx ;;
      tr <- index points (idx + 1) ;;
      let dims := calculate_from_bottom_left_top_right bl tr in
      Ok (left_ultimates ++ [Coord_of_dims dims], (idx + 2)%nat))
      ([], idx) ;;
  '(left_standards, idx) <-
    for_each (range 0 18) (fun i '(left_standards, idx) =>
      tl <- index points idx ;;
      br <- index points (idx + 1) ;;
      let dims := calculate_from_top_left_bottom_right tl br in
      Ok (left_standards ++ [Coord_of_dims dims], (idx + 2)%nat))
      ([], idx) ;;
  '(left_models, idx) <-
    for_each (range 0 6) (fun i '(left_models, idx) =>
      tl <- index points idx ;;
      br <- index points (idx + 1) ;;
      let dims := calculate_from_top_left_bottom_right tl br in
      Ok (left_models ++ [Coord_of_dims dims], (idx + 2)%nat))
      ([], idx) ;;
  hero0_tl <- index points idx ;;
  hero0_br <- index points (idx + 1) ;;
  let hero0_dims := calculate_from_top_left_bottom_right hero0_tl hero0_br in
  hero1_tl <- index points (idx + 2) ;;
  hero1_br <- index points (idx + 3) ;;
  let hero1_dims := calculate_from_top_left_bottom_right hero1_tl hero1_br in
  let idx := (idx + 4)%nat in
  ability1_tl <- index points idx ;;
  ability1_br <- index points (idx + 1) ;;
  let ability1_dims := calculate_from_top_left_bottom_right ability1_tl ability1_br in
  ability2_tl <- index points (idx + 2) ;;
  ability2_br <- index points (idx + 3) ;;
  let ability2_dims := calculate_from_top_left_bottom_right ability2_tl ability2_br in
  let heroes_params :=
    Params.mk (Dims.width hero0_dims) (Dims.height hero0_dims) in
  let selected_abilities_params :=
    Params.mk (Dims.width ability1_dims) (Dims.height ability1_dims) in
  let left_heroes := generate_heroes hero0_dims hero1_dims heroes_params in
  left_selected <-
    generate_selected_abilities ability1_dims ability2_dims left_heroes
                                selected_abilities_params ;;
  left_ultimates <- apply_ultimate_hero_orders left_ultimates true ;;
  left_standards <- apply_standard_hero_orders left_standards true ;;
  let model_hero_orders := [0; 1; 2; 3; 4; 10] in
  left_models <-
    for_each (enumerate left_models) (fun '(i, model) left_models =>
      o <- index model_hero_orders i ;;
      update left_models i (Coord.set_hero_order (Some o)))
      left_models ;;
  right_ultimates <-
    mirror_elements_to_right left_ultimates screen_width "ultimates" true 0 0 ;;
  right_ultimates <- apply_ultimate_hero_orders right_ultimates false ;;
  right_standards <-
    mirror_elements_to_right left_standards screen_width "standards" true 0 0 ;;
  right_standards <- apply_standard_hero_orders right_standards false ;;
  right_models <-
    mirror_elements_to_right left_models screen_width "models" true 0 0 ;;
  right_heroes <-
    mirror_elements_to_right left_heroes screen_width "heroes" false
      (Params.width heroes_params) (Params.height heroes_params) ;;
  right_selected <-
    mirror_elements_to_right left_selected screen_width "selected_abilities" false
      (Params.width selected_abilities_params)
      (Params.height selected_abilities_params) ;;
  Ok (Coords.mk
        (Some heroes_params)
        (Some selected_abilities_params)
        (Some (map to_dict (left_ultimates ++ right_ultimates)))
        (Some (map to_dict (left_standards ++ right_standards)))
        (Some (map to_dict (left_models ++ right_models)))
        (Some (map to_dict (left_heroes ++ right_heroes)))
        (Some (map to_dict (left_selected ++ right_selected)))).

(** ** Validation *)

(** An entry of the [errors] list.  The entries are strings in the source;
    [render_error] gives the text of each. *)
Inductive verror :=
| NegativeCoordinates (category : string) (i : nat) (xy : option (Z * Z))
| ExtendsBeyondWidth (category : string) (i : nat) (ho : option Z)
| ExtendsBeyondHeight (category : string) (i : nat) (ho : option Z)
| MissingCategory (category : string)
| CountMismatch (category : string) (expected : Z) (actual : nat).

(** An entry of the [warnings] list. *)
Inductive vwarning :=
| CountNotAmong (category : string) (expected : list Z) (actual : nat).

Definition str_Z (z : Z) : string := NilZero.string_of_int (Z.to_int z).
Definition str_nat (n : nat) : string := NilZero.string_of_uint (Nat.to_uint n).

(** [item.get('hero_order', '?')] inside an f-string. *)
Definition str_hero_order (ho : option Z) : string :=
  match ho with Some v => str_Z v | None => "?" end.

Definition render_error (e : verror) : string :=
  match e with
  | NegativeCoordinates category i (Some (x, y)) =>
      (category ++ "[" ++ str_nat i ++ "]: Negative coordinates (x=" ++ str_Z x
       ++ ", y=" ++ str_Z y ++ ")")%string
  | NegativeCoordinates category i None =>
      (category ++ "[" ++ str_nat i ++ "]: Negative coordinates")%string
  | ExtendsBeyondWidth category i ho =>
      (category ++ "[" ++ str_nat i ++ "] hero_order=" ++ str_hero_order ho
       ++ ": Extends beyond width")%string
  | ExtendsBeyondHeight category i ho =>
      (category ++ "[" ++ str_nat i ++ "] hero_order=" ++ str_hero_order ho
       ++ ": Extends beyond height")%string
  | MissingCategory category => ("Missing category: " ++ category)%string
  | CountMismatch category expected actual =>
      (category ++ ": Expected " ++ str_Z expected ++ ", got "
       ++ str_nat actual)%string
  end.

(** The dict [validation]. *)
Record validation := mkValidation {
  passed : bool;
  errors : list verror;
  warnings : list vwarning
}.

(** [validation['errors'].append(e)] followed by [validation['passed'] = False]. *)
Definition add_error (e : verror) (v : validation) : validation :=
  mkValidation false (errors v ++ [e]) (warnings v).

(** [validation['warnings'].append(w)]. *)
Definition add_warning (w : vwarning) (v : validation) : validation :=
  mkValidation (passed v) (errors v) (warnings v ++ [w]).

(** A value of [expected_counts]: an [int], or a [list] of admissible counts. *)
Inductive expected_count :=
| ExpInt (n : Z)
| ExpList (l : list Z).

Definition categories_with_dims : list (string * string * string) :=
  [("ultimate_slots_coords", "width", "height");
   ("standard_slots_coords", "width", "height");
   ("models_coords", "width", "height")].

Definition categories_with_params : list (string * string) :=
  [("heroes_coords", "heroes_params");
   ("selected_abilities_coords", "selected_abilities_params")].

Definition expected_counts : list (string * expected_count) :=
  [("ultimate_slots_coords", ExpInt 12);
   ("standard_slots_coords", ExpInt 36);
   ("heroes_coords", ExpInt 10);
   ("selected_abilities_coords", ExpInt 40);
   ("models_coords", ExpInt 12)].

(** The body of the loop over the regions of a category with its own sizes. *)
Definition check_item_with_dims (category width_key height_key : string)
  (width height : Z) (v : validation) (entry : nat * Item.t) : validation :=
  let '(i, item) := entry in
  let item_width := Item.get item width_key 0 in
  let item_height := Item.get item height_key 0 in
  let v :=
    if (Item.x item <? 0) || (Item.y item <? 0)
    then add_error (NegativeCoordinates category i
                      (Some (Item.x item, Item.y item))) v
    else v in
  let v :=
    if Item.x item + item_width >? width
    then add_error (ExtendsBeyondWidth category i (Item.hero_order item)) v
    else v in
  let v :=
    if Item.y item + item_height >? height
    then add_error (ExtendsBeyondHeight category i (Item.hero_order item)) v
    else v in
  v.

(** The body of the loop over the regions of a category with a shared size. *)
Definition check_item_with_params (category : string) (params : Params.t)
  (width height : Z) (v : validation) (entry : nat * Item.t) : validation :=
  let '(i, item) := entry in
  let v :=
    if (Item.x item <? 0) || (Item.y item <? 0)
    then add_error (NegativeCoordinates category i None) v
    else v in
  let v :=
    if Item.x item + Params.width params >? width
    then add_error (ExtendsBeyondWidth category i (Item.hero_order item)) v
    else v in
  let v :=
    if Item.y item + Params.height params >? height
    then add_error (ExtendsBeyondHeight category i (Item.hero_order item)) v
    else v in
  v.

(** The body of the loop over [expected_counts.items()]. *)
Definition check_count (coords : Coords.t) (v : validation)
  (entry : string * expected_count) : validation :=
  let '(category, expected) := entry in
  match Coords.items coords category with
  | None => add_error (MissingCategory category) v
  | Some regions =>
      let actual := length regions in
      match expected with
      | ExpList l =>
          if negb (existsb (Z.eqb (Z.of_nat actual)) l)
          then add_warning (CountNotAmong category l actual) v
          else v
      | ExpInt n =>
          if negb (Z.of_nat actual =? n)
          then add_error (CountMismatch category n actual) v
          else v
      end
  end.

Definition validate_coordinates (coords : Coords.t) (width height : Z) : validation :=
  let validation := mkValidation true [] [] in
  let validation :=
    fold_left (fun validation '(category, width_key, height_key) =>
      match Coords.items coords category with
      | None => validation
      | Some regions =>
          fold_left (check_item_with_dims category width_key height_key width height)
                    (enumerate regions) validation
      end)
      categories_with_dims validation in
  let validation :=
    fold_left (fun validation '(category, params_key) =>
      match Coords.items coords category, Coords.params coords params_key with
      | Some regions, Some params =>
          fold_left (check_item_with_params category params width height)
                    (enumerate regions) validation
      | _, _ => validation
      end)
      categories_with_params validation in
  let validation := fold_left (check_count coords) expected_counts validation in
  validation.


(** ** Notions used in the statements *)

(** [[f(x) for x in xs]] where [f] may raise. *)
Fixpoint mapM {A B : Type} (f : A -> result B) (xs : list A) : result (list B) :=
  match xs with
  | [] => Ok []
  | x :: xs' => r <- f x ;; rs <- mapM f xs' ;; Ok (r :: rs)
  end.

(** The width [mirror_elements_to_right] mirrors a region with: its own
    width when the category stores sizes, the shared width otherwise. *)
Definition region_width (has_dimensions : bool) (element_width : Z)
  (elem : Coord.t) : option Z :=
  if has_dimensions then Coord.width elem else Some element_width.

Definition region_height (has_dimensions : bool) (element_height : Z)
  (elem : Coord.t) : option Z :=
  if has_dimensions then Coord.height elem else Some element_height.

(** The identity [mirror_elements_to_right] gives to a mirrored region. *)
Definition mirrored_hero_order (element_type : string) (ho : option Z) : option Z :=
  match ho with
  | Some ho =>
      if ho =? 10 then Some 11
      else if str_in element_type ["heroes"; "models"; "selected_abilities"]
           then Some (ho + dict_get hero_order_offset element_type 0)
           else Some ho
  | None => None
  end.

(** One iteration of the loop of [mirror_elements_to_right]: the region
    appended for [elem]. *)
Definition mirror_element (screen_width : Z) (element_type : string)
  (has_dimensions : bool) (element_width element_height : Z) (elem : Coord.t)
  : result Coord.t :=
  '(mirrored_x, mirrored_y) <-
    mirror_coordinate (Coord.x elem) (Coord.y elem)
      (region_width has_dimensions element_width elem)
      (region_height has_dimensions element_height elem) screen_width ;;
  Ok (Coord.mk mirrored_x mirrored_y
        (if has_dimensions then Coord.width elem else None)
        (if has_dimensions then Coord.height elem else None)
        (mirrored_hero_order element_type (Coord.hero_order elem))
        (Coord.ability_order elem) (Coord.is_ultimate elem)).

(** The inputs on which the float arithmetic of [mirror_coordinate] is exact. *)
Definition mirror_exact_range (screen_width x w : Z) : Prop :=
  PyFloat.small screen_width /\ PyFloat.small x /\ PyFloat.small (screen_width - x)
  /\ PyFloat.small w /\ PyFloat.small (screen_width - x - w).


(** The four selected slots generated for the participant box [hero]:
    slot [j] at [x = ability1.x + j * spacing], raised or lowered by the
    distance of [hero] from the first participant box. *)
Definition selected_slots_of (ability1 ability2 : Dims.t) (hero0_y : Z)
  (hero : Coord.t) : list Coord.t :=
  map (fun j : nat =>
         Coord.mk (Dims.x ability1
                   + Z.of_nat j * (Dims.x ability2 - Dims.x ability1))
                  (Dims.y ability1 + (Coord.y hero - hero0_y))
                  None None (Coord.hero_order hero) None (Some (Nat.eqb j 3)))
      (range 0 4).


(** The entries one region of a category with its own sizes adds to [errors],
    in the order [check_item_with_dims] appends them. *)
Definition item_errors_with_dims (category width_key height_key : string)
  (width height : Z) (entry : nat * Item.t) : list verror :=
  let '(i, item) := entry in
  (if (Item.x item <? 0) || (Item.y item <? 0)
   then [NegativeCoordinates category i (Some (Item.x item, Item.y item))] else [])
  ++ (if Item.x item + Item.get item width_key 0 >? width
      then [ExtendsBeyondWidth category i (Item.hero_order item)] else [])
  ++ (if Item.y item + Item.get item height_key 0 >? height
      then [ExtendsBeyondHeight category i (Item.hero_order item)] else []).

(** The entries one region of a category with a shared size adds to [errors]. *)
Definition item_errors_with_params (category : string) (params : Params.t)
  (width height : Z) (entry : nat * Item.t) : list verror :=
  let '(i, item) := entry in
  (if (Item.x item <? 0) || (Item.y item <? 0)
   then [NegativeCoordinates category i None] else [])
  ++ (if Item.x item + Params.width params >? width
      then [ExtendsBeyondWidth category i (Item.hero_order item)] else [])
  ++ (if Item.y item + Params.height params >? height
      then [ExtendsBeyondHeight category i (Item.hero_order item)] else []).

(** The entries the count check of one category adds to [errors]. *)
Definition count_errors (coords : Coords.t) (entry : string * expected_count)
  : list verror :=
  let '(category, expected) := entry in
  match Coords.items coords category with
  | None => [MissingCategory category]
  | Some regions =>
      match expected with
      | ExpList _ => []
      | ExpInt n =>
          if negb (Z.of_nat (length regions) =? n)
          then [CountMismatch category n (length regions)] else []
      end
  end.

(** All entries of [errors], by the three passes of [validate_coordinates]. *)
Definition dims_errors (coords : Coords.t) (width height : Z) : list verror :=
  flat_map (fun '(category, width_key, height_key) =>
    match Coords.items coords category with
    | None => []
    | Some regions =>
        flat_map (item_errors_with_dims category width_key height_key width height)
                 (enumerate regions)
    end) categories_with_dims.

Definition params_errors (coords : Coords.t) (width height : Z) : list verror :=
  flat_map (fun '(category, params_key) =>
    match Coords.items coords category, Coords.params coords params_key with
    | Some regions, Some params =>
        flat_map (item_errors_with_params category params width height)
                 (enumerate regions)
    | _, _ => []
    end) categories_with_params.

(** The region an entry of [errors] is about, if it is about one. *)
Definition error_region (e : verror) : option (string * nat) :=
  match e with
  | NegativeCoordinates category i _ => Some (category, i)
  | ExtendsBeyondWidth category i _ => Some (category, i)
  | ExtendsBeyondHeight category i _ => Some (category, i)
  | MissingCategory _ => None
  | CountMismatch _ _ _ => None
  end.

(** What the loops of [validate_coordinates] maintain. *)
Definition report_consistent (v : validation) : Prop :=
  warnings v = [] /\ (passed v = true <-> errors v = []).


(** The categories [validate_coordinates] reads per-region sizes from. *)
Definition dims_category_names : list string :=
  ["ultimate_slots_coords"; "standard_slots_coords"; "models_coords"].

(** The width and height the bounds check adds to the origin of a region of
    [category]: the region's own (0 when the key is absent) in the three
    categories with per-region sizes, the shared parameters in the two
    others; [None] when the category is not bounds-checked (its shared
    parameters are absent, or it is not one of the five). *)
Definition checked_size (coords : Coords.t) (category : string) (item : Item.t)
  : option (Z * Z) :=
  if str_in category dims_category_names
  then Some (Item.get item "width" 0, Item.get item "height" 0)
  else if String.eqb category "heroes_coords"
  then option_map (fun p => (Params.width p, Params.height p))
                  (Coords.heroes_params coords)
  else if String.eqb category "selected_abilities_coords"
  then option_map (fun p => (Params.width p, Params.height p))
                  (Coords.selected_abilities_params coords)
  else None.

(** The entries a region adds to [errors] when it is checked with the width
    [w] and the height [h].  A negative-coordinate entry of a category with
    per-region sizes carries the position; one of a category with a shared
    size does not. *)
Definition region_errors (category : string) (i : nat) (item : Item.t)
  (w h width height : Z) : list verror :=
  (if (Item.x item <? 0) || (Item.y item <? 0)
   then [NegativeCoordinates category i
           (if str_in category dims_category_names
            then Some (Item.x item, Item.y item) else None)]
   else [])
  ++ (if Item.x item + w >? width
      then [ExtendsBeyondWidth category i (Item.hero_order item)] else [])
  ++ (if Item.y item + h >? height
      then [ExtendsBeyondHeight category i (Item.hero_order item)] else []).


(** ** Sample inputs *)

(** 68 points on a 1920 by 1080 screen: a 3 by 2 grid of capstone slots, a
    3 by 6 grid of standard slots, 6 model thumbnails, the two participant-box
    anchors and the two selected-slot anchors. *)
Definition sample_points : list (Z * Z) :=
  [ (700, 210); (760, 150); (770, 210); (830, 150); (840, 210); (900, 150);
    (700, 280); (760, 220); (770, 280); (830, 220); (840, 280); (900, 220);
    (400, 300); (460, 360); (470, 300); (530, 360); (540, 300); (600, 360);
    (400, 370); (460, 430); (470, 370); (530, 430); (540, 370); (600, 430);
    (400, 440); (460, 500); (470, 440); (530, 500); (540, 440); (600, 500);
    (400, 510); (460, 570); (470, 510); (530, 570); (540, 510); (600, 570);
    (400, 580); (460, 640); (470, 580); (530, 640); (540, 580); (600, 640);
    (400, 650); (460, 710); (470, 650); (530, 710); (540, 650); (600, 710);
    (100, 100); (200, 210); (100, 220); (200, 330); (100, 340); (200, 450);
    (100, 460); (200, 570); (100, 580); (200, 690); (100, 700); (200, 810);
    (50, 120); (150, 180); (50, 240); (150, 300);
    (200, 130); (240, 170); (250, 130); (290, 170) ].

(** The same input with the two corners of the first capstone slot given in
    the reverse order: its top-right corner first, its bottom-left second. *)
Definition reversed_corner_points : list (Z * Z) :=
  (760, 150) :: (700, 210) :: skipn 2 sample_points.

(** The region [mirror_elements_to_right] appends for [elem] when the
    arithmetic of [mirror_coordinate] is exact. *)
Definition mirrored_exactly (screen_width : Z) (element_type : string)
  (has_dimensions : bool) (element_width : Z) (elem : Coord.t) : Coord.t :=
  Coord.mk
    (screen_width - Coord.x elem
     - match region_width has_dimensions element_width elem with
       | Some w => w
       | None => 0
       end)
    (Coord.y elem)
    (if has_dimensions then Coord.width elem else None)
    (if has_dimensions then Coord.height elem else None)
    (mirrored_hero_order element_type (Coord.hero_order elem))
    (Coord.ability_order elem) (Coord.is_ultimate elem).

(** Input points and a screen width of magnitude at most [2^40]. *)
Definition moderate (z : Z) : Prop := Z.abs z <= 2 ^ 40.

Definition moderate_point (p : Z * Z) : Prop := moderate (fst p) /\ moderate (snd p).

(** Positions and widths derived from moderate points. *)
Definition wide (z : Z) : Prop := Z.abs z <= 2 ^ 43.

(** The entries of [errors] made by the count check, in the order of
    [expected_counts]. *)
Definition errors_of_counts (coords : Coords.t) : list verror :=
  flat_map (count_errors coords) expected_counts.

(** Every counted category is present with its expected number of regions. *)
Definition counts_as_expected (coords : Coords.t) : Prop :=
  forall category n,
    In (category, ExpInt n) expected_counts ->
    exists regions,
      Coords.items coords category = Some regions
      /\ Z.of_nat (length regions) = n.

(** Every bounds-checked region lies inside the screen. *)
Definition regions_inside (coords : Coords.t) (width height : Z) : Prop :=
  forall category i regions item w h,
    Coords.items coords category = Some regions ->
    nth_error regions i = Some item ->
    checked_size coords category item = Some (w, h) ->
    0 <= Item.x item /\ 0 <= Item.y item
    /\ Item.x item + w <= width /\ Item.y item + h <= height.

(** The labels of a region of the document: identity, slot order, terminal
    flag. *)
Definition labels (item : Item.t) : option Z * option Z * option bool :=
  (Item.hero_order item, Item.ability_order item, Item.is_ultimate item).

(** The position and the size fields of a region of the document. *)
Definition geometry (item : Item.t) : Z * Z * option Z * option Z :=
  (Item.x item, Item.y item, Item.width item, Item.height item).

(** The row and the size fields of a region: what mirroring leaves alone. *)
Definition row_and_size (item : Item.t) : Z * option Z * option Z :=
  (Item.y item, Item.width item, Item.height item).

(** The geometry of the region made from the rectangle [d]. *)
Definition geometry_of_dims (d : Dims.t) : Z * Z * option Z * option Z :=
  (Dims.x d, Dims.y d, Some (Dims.width d), Some (Dims.height d)).

(** [points[k]], with a default that is never used on an input long enough. *)
Definition point_at (points : list (Z * Z)) (k : nat) : Z * Z :=
  nth k points (0, 0).

(** Every bounds-checked region of the first half of each category lies
    inside the screen. *)
Definition left_half_inside (coords : Coords.t) (width height : Z) : Prop :=
  forall category i regions item w h,
    Coords.items coords category = Some regions ->
    (i < length regions / 2)%nat ->
    nth_error regions i = Some item ->
    checked_size coords category item = Some (w, h) ->
    0 <= Item.x item /\ 0 <= Item.y item
    /\ Item.x item + w <= width /\ Item.y item + h <= height.

(** ** Click capture

    The capture front-end of [complete_manual_mapper.py], as far as it decides
    which points are recorded: the global list [clicked_points], the mouse
    callback and the key loop of [collect_68_clicks].  Drawing, logging and
    the display of the zoomed or magnified image change no state that the
    recorded points depend on and are left out. *)

(** The value of [cv2.EVENT_LBUTTONDOWN]. *)
Definition EVENT_LBUTTONDOWN : Z := 1.

(** [ord(c)]. *)
Definition ord (c : Ascii.ascii) : Z := Z.of_nat (Ascii.nat_of_ascii c).

(** [mouse_callback]: its effect on the global [clicked_points]. *)
Definition mouse_callback (event x y : Z) (clicked_points : list (Z * Z))
  : list (Z * Z) :=
  if event =? EVENT_LBUTTONDOWN then
    if (68 <=? length clicked_points)%nat then clicked_points
    else clicked_points ++ [(x, y)]
  else clicked_points.

(** The variables the key loop of [collect_68_clicks] reads and writes. *)
Record capture := mkCapture {
  clicked_points : list (Z * Z);
  zoom_mode : bool;
  loupe_mode : bool
}.

(** What one iteration of the [while True] loop does: go on, leave the loop
    ([break]) or leave the program ([sys.exit(0)]). *)
Inductive loop_step :=
| Continue (s : capture)
| Break (s : capture)
| Exit.

(** One iteration of the key loop, [raw] being what [cv2.waitKey(1)] returned. *)
Definition key_step (raw : Z) (s : capture) : loop_step :=
  let key := Z.land raw 255 in
  if key =? ord "q"%char then Exit
  else if key =? ord "u"%char then
    if (0 <? length (clicked_points s))%nat
    then Continue (mkCapture (removelast (clicked_points s))
                             (zoom_mode s) (loupe_mode s))
    else Continue s
  else if key =? ord "r"%char then Continue (mkCapture [] (zoom_mode s) (loupe_mode s))
  else if key =? ord "z"%char then
    Continue (mkCapture (clicked_points s) (negb (zoom_mode s)) (loupe_mode s))
  else if key =? ord "l"%char then
    Continue (mkCapture (clicked_points s) (zoom_mode s) (negb (loupe_mode s)))
  else if key =? 13 then
    if (length (clicked_points s) =? 68)%nat then Break s else Continue s
  else Continue s.

(** What the window delivers: a mouse event, handled by the callback while
    [cv2.waitKey] runs, or the return of [cv2.waitKey]. *)
Inductive input :=
| Mouse (event x y : Z)
| WaitKey (raw : Z).

(** Where the capture stands after a sequence of inputs. *)
Inductive capture_state :=
| Running (s : capture)
| Finished (points : list (Z * Z))
| Exited.

(** The key loop run on a sequence of inputs; inputs after the loop was left
    are not read. *)
Fixpoint capture_loop (inputs : list input) (s : capture) : capture_state :=
  match inputs with
  | [] => Running s
  | Mouse event x y :: rest =>
      capture_loop rest
        (mkCapture (mouse_callback event x y (clicked_points s))
                   (zoom_mode s) (loupe_mode s))
  | WaitKey raw :: rest =>
      match key_step raw s with
      | Continue s' => capture_loop rest s'
      | Break s' => Finished (clicked_points s')
      | Exit => Exited
      end
  end.

(** The state [collect_68_clicks] starts its loop in. *)
Definition capture_start : capture := mkCapture [] false false.

(** ** [compare_coordinates] *)

Definition KeyError : exn := mkExn "KeyError".

(** An element of the list [compare_coordinates] returns.  [F] is the type of
    Python floats as far as this function is concerned: [position_error] is
    the only float it makes. *)
Record comparison (F : Type) := mkComparison {
  cmp_index : nat;
  cmp_hero_order : option Z;
  cmp_ability_order : option Z;
  cmp_expected : Item.t;
  cmp_calculated : Item.t;
  delta_x : Z;
  delta_y : Z;
  delta_width : Z;
  delta_height : Z;
  position_error : F
}.

Arguments mkComparison {F}.
Arguments cmp_index {F}.
Arguments cmp_hero_order {F}.
Arguments cmp_ability_order {F}.
Arguments cmp_expected {F}.
Arguments cmp_calculated {F}.
Arguments delta_x {F}.
Arguments delta_y {F}.
Arguments delta_width {F}.
Arguments delta_height {F}.
Arguments position_error {F}.

(** [item[key]] for the keys ['width'] and ['height']; a missing key raises. *)
Definition item_size (field : option Z) : result Z :=
  match field with
  | Some v => Ok v
  | None => Raise KeyError
  end.

(** [compare_coordinates(expected, calculated, category)].  [pow_half n] is
    the float power [n ** 0.5] of the integer [n], which the C library
    computes; it is a parameter of the model. *)
Definition compare_coordinates {F : Type} (pow_half : Z -> result F)
  (expected calculated : list Item.t) (category : string)
  : result (list (comparison F)) :=
  let comparisons := [] in
  for_each (enumerate (combine expected calculated))
    (fun '(i, (exp, calc)) comparisons =>
       let delta_x := Item.x calc - Item.x exp in
       let delta_y := Item.y calc - Item.y exp in
       let delta_width := 0 in
       let delta_height := 0 in
       '(delta_width, delta_height) <-
         match Item.width exp, Item.width calc with
         | Some we, Some wc =>
             let delta_width := wc - we in
             hc <- item_size (Item.height calc) ;;
             he <- item_size (Item.height exp) ;;
             Ok (delta_width, hc - he)
         | _, _ => Ok (delta_width, delta_height)
         end ;;
       position_error <- pow_half (delta_x ^ 2 + delta_y ^ 2) ;;
       Ok (comparisons ++
           [mkComparison i (Item.hero_order exp) (Item.ability_order exp)
              exp calc delta_x delta_y delta_width delta_height position_error]))
    comparisons.

(** One iteration of the loop of [compare_coordinates]: the entry appended
    for the pair [(exp, calc)] at position [i]. *)
Definition compare_one {F : Type} (pow_half : Z -> result F)
  (entry : nat * (Item.t * Item.t)) : result (comparison F) :=
  let '(i, (exp, calc)) := entry in
  '(delta_width, delta_height) <-
    match Item.width exp, Item.width calc with
    | Some we, Some wc =>
        hc <- item_size (Item.height calc) ;;
        he <- item_size (Item.height exp) ;;
        Ok (wc - we, hc - he)
    | _, _ => Ok (0, 0)
    end ;;
  position_error <-
    pow_half ((Item.x calc - Item.x exp) ^ 2 + (Item.y calc - Item.y exp) ^ 2) ;;
  Ok (mkComparison i (Item.hero_order exp) (Item.ability_order exp) exp calc
        (Item.x calc - Item.x exp) (Item.y calc - Item.y exp)
        delta_width delta_height position_error).

(** What an entry of the comparison says about the pair it was made from. *)
Definition compares {F : Type} (pow_half : Z -> result F) (i : nat)
  (exp calc : Item.t) (c : comparison F) : Prop :=
  cmp_index c = i
  /\ cmp_expected c = exp /\ cmp_calculated c = calc
  /\ cmp_hero_order c = Item.hero_order exp
  /\ cmp_ability_order c = Item.ability_order exp
  /\ delta_x c = Item.x calc - Item.x exp
  /\ delta_y c = Item.y calc - Item.y exp
  /\ match Item.width exp, Item.width calc with
     | Some we, Some wc =>
         delta_width c = wc - we
         /\ exists he hc,
              Item.height exp = Some he /\ Item.height calc = Some hc
              /\ delta_height c = hc - he
     | _, _ => delta_width c = 0 /\ delta_height c = 0
     end
  /\ pow_half (delta_x c ^ 2 + delta_y c ^ 2) = Ok (position_error c).

(** An entry of [errors] made by the count check: "Missing category" or
    "Expected n, got a". *)
Definition is_count_error (e : verror) : bool :=
  match e with
  | MissingCategory _ | CountMismatch _ _ _ => true
  | _ => false
  end.

(** The five lists of a document hold 12, 36, 12, 10 and 40 regions. *)
Definition region_totals (coords : Coords.t) : Prop :=
  option_map (@length Item.t) (Coords.ultimate_slots_coords coords) = Some 12%nat
  /\ option_map (@length Item.t) (Coords.standard_slots_coords coords) = Some 36%nat
  /\ option_map (@length Item.t) (Coords.models_coords coords) = Some 12%nat
  /\ option_map (@length Item.t) (Coords.heroes_coords coords) = Some 10%nat
  /\ option_map (@length Item.t) (Coords.selected_abilities_coords coords)
     = Some 40%nat.

(** * Verification *)

(** ** Exactness of the float arithmetic on small integers

    The lemmas below follow the rounding of [SpecFloat] step by step: a
    mantissa of at most 53 digits is only shifted, never rounded. *)

Module PyFloatFacts.
Import PyFloat.

Lemma iter_pos_eq {A : Type} (f : A -> A) (p : positive) (x : A) :
  iter_pos f p x = Pos.iter f x p.
Proof.
  revert x; induction p as [p IH | p IH | ]; intros x; simpl.
  - rewrite !IH, !Pos.iter_swap. reflexivity.
  - rewrite !IH. reflexivity.
  - reflexivity.
Qed.

Lemma shl_pos_spec (p : positive) (n : Z) :
  0 <= n -> Zpos (shl_pos p n) = Zpos p * 2 ^ n.
Proof.
  intros Hn. destruct n as [ | k | k ]; simpl shl_pos; [ lia | | lia ].
  rewrite <- Z.shiftl_mul_pow2 by lia. unfold Z.shiftl.
  apply Pos.iter_swap_gen. intros a. reflexivity.
Qed.

Lemma digits2_pos_size (p : positive) : digits2_pos p = Pos.size p.
Proof. induction p; simpl; congruence. Qed.

Lemma digits2_pos_bounds (p : positive) :
  2 ^ (Zpos (digits2_pos p) - 1) <= Zpos p < 2 ^ Zpos (digits2_pos p).
Proof.
  rewrite digits2_pos_size. split.
  - pose proof (Pos.size_le p) as H.
    assert (Zpos (2 ^ Pos.size p) <= Zpos p~0) by exact H.
    rewrite Pos2Z.inj_pow in H0.
    replace (Zpos (Pos.size p)) with (Zpos (Pos.size p) - 1 + 1) in H0 by lia.
    rewrite Z.pow_add_r in H0 by lia. lia.
  - pose proof (Pos.size_gt p) as H.
    assert (Zpos p < Zpos (2 ^ Pos.size p)) by exact H.
    rewrite Pos2Z.inj_pow in H0. exact H0.
Qed.

Lemma digits2_pos_unique (p : positive) (d : Z) :
  2 ^ (d - 1) <= Zpos p < 2 ^ d -> Zpos (digits2_pos p) = d.
Proof.
  intros [Hlo Hhi]. pose proof (digits2_pos_bounds p) as [Plo Phi].
  set (k := Zpos (digits2_pos p)) in *.
  assert (0 < k) by (subst k; lia).
  assert (Hd : 0 < d).
  { destruct (Z_lt_le_dec 0 d) as [ | Hle ]; [ assumption | ].
    assert (d < 0 \/ d = 0) as [ | ] by lia.
    - rewrite Z.pow_neg_r in Hhi by lia. lia.
    - subst d. simpl in Hhi. lia. }
  destruct (Z.lt_trichotomy k d) as [ Hlt | [ Heq | Hgt ] ]; [ | assumption | ].
  - assert (2 ^ k <= 2 ^ (d - 1)) by (apply Z.pow_le_mono_r; lia). lia.
  - assert (2 ^ d <= 2 ^ (k - 1)) by (apply Z.pow_le_mono_r; lia). lia.
Qed.

Lemma digits2_pos_shl (p : positive) (n : Z) :
  0 <= n -> Zpos (digits2_pos (shl_pos p n)) = Zpos (digits2_pos p) + n.
Proof.
  intros Hn. apply digits2_pos_unique. rewrite shl_pos_spec by assumption.
  pose proof (digits2_pos_bounds p) as [Plo Phi].
  replace (Zpos (digits2_pos p) + n - 1) with (Zpos (digits2_pos p) - 1 + n) by lia.
  rewrite !Z.pow_add_r by lia.
  assert (0 < 2 ^ n) by (apply Z.pow_pos_nonneg; lia).
  split; nia.
Qed.

Lemma shr_1_shifted (m : positive) (k : positive) :
  iter_pos shr_1 k (Build_shr_record (Zpos (Pos.iter xO m k)) false false)
  = Build_shr_record (Zpos m) false false.
Proof.
  rewrite iter_pos_eq. induction k as [ | k IH ] using Pos.peano_ind.
  - reflexivity.
  - rewrite !Pos.iter_succ, <- Pos.iter_swap. simpl. exact IH.
Qed.

Lemma fexp_normal (e : Z) : -1074 <= e - 53 -> fexp 53 1024 e = e - 53.
Proof. intros H. unfold fexp, emin. lia. Qed.

Lemma shr_fexp_exact (m : positive) (n e : Z) :
  Zpos (digits2_pos m) = 53 -> 0 <= n -> -1074 <= e + n ->
  shr_fexp 53 1024 (Zpos (shl_pos m n)) e loc_Exact
  = (Build_shr_record (Zpos m) false false, e + n).
Proof.
  intros Hd Hn He. unfold shr_fexp. cbn [Zdigits2 shr_record_of_loc].
  rewrite digits2_pos_shl, Hd, fexp_normal by lia.
  replace (53 + n + e - 53 - e) with n by lia.
  destruct n as [ | k | k ]; cbn [shr shl_pos]; [ | | lia ].
  - f_equal. lia.
  - rewrite shr_1_shifted. reflexivity.
Qed.

Lemma binary_round_aux_exact (s : bool) (m : positive) (n e : Z) :
  Zpos (digits2_pos m) = 53 -> 0 <= n -> -1074 <= e + n <= 971 ->
  binary_round_aux 53 1024 s (Zpos (shl_pos m n)) e loc_Exact
  = S754_finite s m (e + n).
Proof.
  intros Hd Hn He. unfold binary_round_aux.
  rewrite shr_fexp_exact by lia.
  cbn [shr_m loc_of_shr_record round_nearest_even].
  change (Zpos m) with (Zpos (shl_pos m 0)) at 1.
  rewrite shr_fexp_exact by lia. cbn [shr_m].
  replace (e + n + 0) with (e + n) by lia.
  destruct (Z.leb_spec (e + n) (1024 - 53)); [ reflexivity | lia ].
Qed.

Lemma shl_pos_add (p : positive) (a b : Z) :
  0 <= a -> 0 <= b -> shl_pos (shl_pos p a) b = shl_pos p (a + b).
Proof.
  intros Ha Hb. apply Pos2Z.inj. rewrite !shl_pos_spec by lia.
  rewrite Z.pow_add_r by lia. ring.
Qed.

Lemma digits_norm_m (p : positive) :
  Zpos (digits2_pos p) <= 53 -> Zpos (digits2_pos (norm_m p)) = 53.
Proof. intros H. unfold norm_m. rewrite digits2_pos_shl by lia. lia. Qed.

Lemma binary_round_exact (s : bool) (z : positive) (k e : Z) :
  Zpos (digits2_pos z) <= 53 -> 0 <= k ->
  -1074 <= e + k - (53 - Zpos (digits2_pos z)) <= 971 ->
  binary_round 53 1024 s (shl_pos z k) e
  = S754_finite s (norm_m z) (e + k - (53 - Zpos (digits2_pos z))).
Proof.
  intros Hd Hk He. unfold binary_round.
  rewrite digits2_pos_shl, fexp_normal by lia.
  set (dz := Zpos (digits2_pos z)) in *.
  unfold shl_align.
  destruct (dz + k + e - 53 - e) as [ | q | q ] eqn:Hq.
  - replace (shl_pos z k) with (shl_pos (norm_m z) 0).
    + rewrite binary_round_aux_exact by (try apply digits_norm_m; lia).
      f_equal. lia.
    + cbn [shl_pos]. unfold norm_m. f_equal. fold dz. lia.
  - replace (shl_pos z k) with (shl_pos (norm_m z) (Zpos q)).
    + rewrite binary_round_aux_exact by (try apply digits_norm_m; lia).
      f_equal. lia.
    + unfold norm_m. fold dz. rewrite shl_pos_add by lia. f_equal. lia.
  - change (Pos.iter xO (shl_pos z k) q) with (shl_pos (shl_pos z k) (Zpos q)).
    rewrite shl_pos_add by lia.
    replace (shl_pos z (k + Zpos q)) with (shl_pos (norm_m z) 0).
    + rewrite binary_round_aux_exact by (try apply digits_norm_m; lia).
      f_equal. lia.
    + cbn [shl_pos]. unfold norm_m. fold dz. f_equal. lia.
Qed.

Lemma digits2_pos_le_53 (p : positive) :
  Zpos p < 2 ^ 53 -> Zpos (digits2_pos p) <= 53.
Proof.
  intros H. pose proof (digits2_pos_bounds p) as [Plo _].
  destruct (Z_le_gt_dec (Zpos (digits2_pos p)) 53) as [ | Hgt ]; [ assumption | ].
  assert (2 ^ 53 <= 2 ^ (Zpos (digits2_pos p) - 1)) by (apply Z.pow_le_mono_r; lia).
  lia.
Qed.

Lemma binary_normalize_exact (z k e : Z) :
  Z.abs z < 2 ^ 53 -> 0 <= k -> -1074 <= e + k - 53 -> e + k <= 971 ->
  binary_normalize 53 1024 (z * 2 ^ k) e false = exact_float z (e + k).
Proof.
  intros Hz Hk Hlo Hhi.
  destruct z as [ | p | p ]; [ reflexivity | | ].
  - assert (Hd : Zpos (digits2_pos p) <= 53) by (apply digits2_pos_le_53; lia).
    rewrite <- shl_pos_spec by assumption. cbn [binary_normalize exact_float].
    apply binary_round_exact; lia.
  - assert (Hd : Zpos (digits2_pos p) <= 53) by (apply digits2_pos_le_53; lia).
    change (Zneg p) with (- Zpos p) at 1.
    rewrite Z.mul_opp_l, <- shl_pos_spec by assumption.
    cbn [Z.opp binary_normalize exact_float].
    apply binary_round_exact; lia.
Qed.

Lemma binary_normalize_small (z e : Z) :
  small z -> -1074 <= e - 53 -> e <= 971 ->
  binary_normalize 53 1024 z e false = exact_float z e.
Proof.
  intros Hz Hlo Hhi.
  replace z with (z * 2 ^ 0) at 1 by (rewrite Z.pow_0_r; lia).
  rewrite binary_normalize_exact by (unfold small in Hz; lia).
  f_equal. lia.
Qed.

Lemma SFmul_two_exact (z : Z) :
  small z -> SFmul 53 1024 (binary_normalize 53 1024 2 0 false) (exact_float z (-1)) = exact_float z 0.
Proof.
  intros Hz. unfold small in Hz.
  change (binary_normalize 53 1024 2 0 false)
    with (S754_finite false 4503599627370496 (-51)).
  destruct z as [ | p | p ]; [ reflexivity | | ];
    assert (Hd : Zpos (digits2_pos p) <= 53) by (apply digits2_pos_le_53; lia);
    pose proof (digits2_pos_bounds p) as _;
    cbn [exact_float SFmul xorb];
    change (4503599627370496 * norm_m p)%positive with (shl_pos (norm_m p) 52);
    rewrite binary_round_aux_exact by (try apply digits_norm_m; lia);
    f_equal; lia.
Qed.

Lemma shl_align_fst (m : positive) (e e' : Z) :
  e' <= e -> Zpos (fst (shl_align m e e')) = Zpos m * 2 ^ (e - e').
Proof.
  intros H. unfold shl_align.
  destruct (e' - e) as [ | q | q ] eqn:Hq; cbn [fst].
  - replace (e - e') with 0 by lia. rewrite Z.pow_0_r. lia.
  - lia.
  - change (Pos.iter xO m q) with (shl_pos m (Zpos q)).
    rewrite shl_pos_spec by lia. do 2 f_equal. lia.
Qed.

Lemma norm_m_spec (p : positive) :
  Zpos (digits2_pos p) <= 53 ->
  Zpos (norm_m p) = Zpos p * 2 ^ (53 - Zpos (digits2_pos p)).
Proof. intros H. unfold norm_m. apply shl_pos_spec. lia. Qed.

Lemma aligned_value (s : bool) (p : positive) (ez : Z) :
  Zpos (digits2_pos p) <= 53 -> ez <= Zpos (digits2_pos p) - 53 ->
  cond_Zopp s (Zpos (fst (shl_align (norm_m p) (0 - (53 - Zpos (digits2_pos p))) ez)))
  = cond_Zopp s (Zpos p) * 2 ^ (- ez).
Proof.
  intros Hd He. rewrite shl_align_fst by lia. rewrite norm_m_spec by assumption.
  rewrite <- Z.mul_assoc, <- Z.pow_add_r by lia.
  replace (53 - Zpos (digits2_pos p) + (0 - (53 - Zpos (digits2_pos p)) - ez))
    with (- ez) by lia.
  destruct s; cbn [cond_Zopp]; lia.
Qed.

Lemma SFsub_exact (a b : Z) :
  small a -> small b -> small (a - b) ->
  SFsub 53 1024 (exact_float a 0) (exact_float b 0) = exact_float (a - b) 0.
Proof.
  intros Ha Hb Hab. unfold small in Ha, Hb.
  destruct a as [ | pa | pa ]; destruct b as [ | pb | pb ];
    try reflexivity;
    assert (Hda : Zpos (digits2_pos pa) <= 53) by (apply digits2_pos_le_53; lia);
    assert (Hdb : Zpos (digits2_pos pb) <= 53) by (apply digits2_pos_le_53; lia);
    pose proof (digits2_pos_bounds pa) as _; pose proof (digits2_pos_bounds pb) as _;
    cbn [exact_float SFsub];
    rewrite !aligned_value by lia;
    rewrite <- Z.mul_sub_distr_r;
    cbn [cond_Zopp Z.opp];
    rewrite binary_normalize_exact by (try assumption; lia);
    f_equal; lia.
Qed.

Lemma to_int_exact_aux (p : positive) :
  Zpos (digits2_pos p) <= 53 ->
  (if 0 <=? 0 - (53 - Zpos (digits2_pos p))
   then Zpos (norm_m p) * 2 ^ (0 - (53 - Zpos (digits2_pos p)))
   else Zpos (norm_m p) / 2 ^ (- (0 - (53 - Zpos (digits2_pos p))))) = Zpos p.
Proof.
  intros Hd. rewrite norm_m_spec by assumption.
  destruct (Z.leb_spec 0 (0 - (53 - Zpos (digits2_pos p)))) as [ H | H ].
  - replace (53 - Zpos (digits2_pos p)) with 0 by lia. cbn. lia.
  - replace (- (0 - (53 - Zpos (digits2_pos p)))) with (53 - Zpos (digits2_pos p)) by lia.
    apply Z.div_mul. apply Z.pow_nonzero; lia.
Qed.

Lemma of_int_exact (z : Z) : small z -> of_int z = Ok (exact_float z 0).
Proof.
  intros Hz. unfold of_int, prec, emax.
  rewrite binary_normalize_small by (try assumption; lia).
  destruct z; reflexivity.
Qed.

Lemma int_truediv_2_exact (z : Z) :
  small z -> int_truediv_2 z = Ok (exact_float z (-1)).
Proof.
  intros Hz. unfold int_truediv_2, prec, emax.
  rewrite binary_normalize_small by (try assumption; lia).
  destruct z; reflexivity.
Qed.

Lemma mul_two_exact (z : Z) :
  small z -> mul two (exact_float z (-1)) = exact_float z 0.
Proof. intros Hz. apply SFmul_two_exact. assumption. Qed.

Lemma sub_int_exact (a b : Z) :
  small a -> small b -> small (a - b) ->
  sub_int (exact_float a 0) (Some b) = Ok (exact_float (a - b) 0).
Proof.
  intros Ha Hb Hab. unfold sub_int. rewrite of_int_exact by assumption.
  cbn [bind]. unfold sub, prec, emax. rewrite SFsub_exact by assumption.
  reflexivity.
Qed.

Lemma to_int_exact (z : Z) : small z -> to_int (exact_float z 0) = Ok z.
Proof.
  intros Hz. unfold small in Hz.
  destruct z as [ | p | p ]; [ reflexivity | | ];
    assert (Hd : Zpos (digits2_pos p) <= 53) by (apply digits2_pos_le_53; lia);
    cbn [exact_float to_int];
    rewrite (to_int_exact_aux p Hd); reflexivity.
Qed.

End PyFloatFacts.

(** [mirror_coordinate] is exact when the screen width, [x], the width and
    the two intermediate differences are below [2^53] in magnitude. *)
Lemma mirror_coordinate_exact (x y w : Z) (h : option Z) (sw : Z) :
  PyFloat.small sw -> PyFloat.small x -> PyFloat.small (sw - x) ->
  PyFloat.small w -> PyFloat.small (sw - x - w) ->
  mirror_coordinate x y (Some w) h sw = Ok (sw - x - w, y).
Proof.
  intros Hsw Hx Hsx Hw Hsxw. unfold mirror_coordinate.
  rewrite PyFloatFacts.int_truediv_2_exact by assumption. cbn [bind].
  rewrite PyFloatFacts.mul_two_exact by assumption.
  rewrite PyFloatFacts.sub_int_exact by assumption. cbn [bind].
  rewrite PyFloatFacts.sub_int_exact by assumption. cbn [bind].
  rewrite PyFloatFacts.to_int_exact by assumption. reflexivity.
Qed.

(** ** Loops that append one result per iteration *)

Lemma bind_Ok_inv {A B : Type} (m : result A) (k : A -> result B) (b : B) :
  bind m k = Ok b -> exists a, m = Ok a /\ k a = Ok b.
Proof. destruct m as [ a | e ]; cbn; intros H; [ eauto | discriminate ]. Qed.

Lemma for_each_ext {A S : Type} (body1 body2 : A -> S -> result S) (xs : list A) (s : S) :
  (forall a s', body1 a s' = body2 a s') ->
  for_each xs body1 s = for_each xs body2 s.
Proof.
  intros Hb. revert s. induction xs as [ | a xs IH ]; intros s; cbn.
  - reflexivity.
  - rewrite Hb. destruct (body2 a s); cbn; [ apply IH | reflexivity ].
Qed.

Lemma for_each_append {A B : Type} (f : A -> result B) (xs : list A) (acc : list B) :
  for_each xs (fun a acc => r <- f a ;; Ok (acc ++ [r])) acc
  = rs <- mapM f xs ;; Ok (acc ++ rs).
Proof.
  revert acc. induction xs as [ | a xs IH ]; intros acc; cbn.
  - rewrite app_nil_r. reflexivity.
  - destruct (f a) as [ r | e ]; cbn; [ | reflexivity ].
    rewrite IH. destruct (mapM f xs) as [ rs | e ]; cbn; [ | reflexivity ].
    rewrite <- app_assoc. reflexivity.
Qed.

Lemma mapM_Forall2 {A B : Type} (f : A -> result B) (xs : list A) (rs : list B) :
  mapM f xs = Ok rs <-> Forall2 (fun a r => f a = Ok r) xs rs.
Proof.
  revert rs. induction xs as [ | a xs IH ]; intros rs; cbn.
  - split.
    + intros [= <-]. constructor.
    + intros H. inversion H. reflexivity.
  - split.
    + intros H. apply bind_Ok_inv in H as (r & Hr & H).
      apply bind_Ok_inv in H as (rs' & Hrs & [= <-]).
      constructor; [ assumption | apply IH; assumption ].
    + intros H. inversion H as [ | a' r xs' rs' Hr Hrs ]; subst.
      rewrite Hr. cbn. apply IH in Hrs. rewrite Hrs. reflexivity.
Qed.

Lemma mapM_total {A B : Type} (f : A -> result B) (xs : list A) :
  (forall a, In a xs -> exists r, f a = Ok r) -> exists rs, mapM f xs = Ok rs.
Proof.
  induction xs as [ | a xs IH ]; intros H; cbn.
  - eauto.
  - destruct (H a (or_introl eq_refl)) as [ r -> ].
    destruct IH as [ rs -> ]; [ intros a' Ha'; apply H; right; assumption | ].
    cbn. eauto.
Qed.

(** ** [mirror_elements_to_right], one region at a time *)

Lemma mirror_elements_to_right_mapM (left_elements : list Coord.t) (sw : Z)
  (ty : string) (hd : bool) (ew eh : Z) :
  mirror_elements_to_right left_elements sw ty hd ew eh
  = mapM (mirror_element sw ty hd ew eh) left_elements.
Proof.
  unfold mirror_elements_to_right.
  rewrite for_each_ext
    with (body2 := fun a acc => r <- mirror_element sw ty hd ew eh a ;; Ok (acc ++ [r])).
  - rewrite for_each_append. destruct (mapM _ left_elements); reflexivity.
  - intros a acc. unfold mirror_element, region_width, region_height, mirrored_hero_order.
    destruct hd; cbn [bind];
      destruct (mirror_coordinate _ _ _ _ _) as [ [mx my] | e ]; reflexivity.
Qed.

Lemma mirror_element_exact (sw : Z) (ty : string) (hd : bool) (ew eh w : Z)
  (elem : Coord.t) :
  region_width hd ew elem = Some w ->
  mirror_exact_range sw (Coord.x elem) w ->
  mirror_element sw ty hd ew eh elem
  = Ok (Coord.mk (sw - Coord.x elem - w) (Coord.y elem)
          (if hd then Coord.width elem else None)
          (if hd then Coord.height elem else None)
          (mirrored_hero_order ty (Coord.hero_order elem))
          (Coord.ability_order elem) (Coord.is_ultimate elem)).
Proof.
  intros Hw (Hsw & Hx & Hsx & Hww & Hsxw). unfold mirror_element.
  rewrite Hw, mirror_coordinate_exact by assumption. reflexivity.
Qed.

(** ** C1: the mirrored position *)

(** C1 (as amended).  Whenever the screen width, a region's [x], the width it
    is mirrored with (its own width for a category with per-region sizes, the
    shared width otherwise) and the differences [sw - x] and [sw - x - w] are
    all below [2^53] in magnitude, mirroring returns, and the mirrored region
    has [x = sw - x - w] exactly (so [mirrored_x + w = sw - x]), odd screen
    widths included, with [y] unchanged. *)
Theorem mirror_position_exact (left_elements : list Coord.t) (sw : Z)
  (ty : string) (hd : bool) (ew eh : Z) :
  (forall elem, In elem left_elements ->
     exists w, region_width hd ew elem = Some w
               /\ mirror_exact_range sw (Coord.x elem) w) ->
  exists right_elements,
    mirror_elements_to_right left_elements sw ty hd ew eh = Ok right_elements
    /\ Forall2 (fun elem r =>
         exists w, region_width hd ew elem = Some w
                   /\ mirror_coordinate (Coord.x elem) (Coord.y elem) (Some w)
                        (region_height hd eh elem) sw = Ok (Coord.x r, Coord.y r)
                   /\ Coord.x r = sw - Coord.x elem - w
                   /\ Coord.x r + w = sw - Coord.x elem
                   /\ Coord.y r = Coord.y elem)
         left_elements right_elements.
Proof.
  intros Hrange. rewrite mirror_elements_to_right_mapM.
  apply Forall_forall in Hrange.
  destruct (mapM_total (mirror_element sw ty hd ew eh) left_elements) as [ rs Hrs ].
  - intros elem Hin. rewrite Forall_forall in Hrange.
    destruct (Hrange elem Hin) as (w & Hw & Hr).
    rewrite (mirror_element_exact sw ty hd ew eh w elem Hw Hr). eauto.
  - exists rs. split; [ assumption | ].
    apply mapM_Forall2 in Hrs.
    induction Hrs as [ | elem r xs rs' Hr Hrs IH ]; constructor.
    + inversion Hrange as [ | ? ? (w & Hw & Hex) _ ]; subst.
      rewrite (mirror_element_exact sw ty hd ew eh w elem Hw Hex) in Hr.
      injection Hr as <-. exists w. cbn [Coord.x Coord.y].
      destruct Hex as (Hsw & Hx & Hsx & Hww & Hsxw).
      repeat split; try lia.
      * assumption.
      * apply mirror_coordinate_exact; assumption.
    + apply IH. inversion Hrange; assumption.
Qed.

Lemma mirror_position_exact_witness :
  let c := Coord.mk 50 120 None None (Some 0) None None in
  (forall elem, In elem [c] ->
     exists w, region_width false 100 elem = Some w
               /\ mirror_exact_range 1920 (Coord.x elem) w)
  /\ exists right_elements,
       mirror_elements_to_right [c] 1920 "heroes" false 100 60 = Ok right_elements
       /\ Forall2 (fun elem r =>
            exists w, region_width false 100 elem = Some w
                      /\ mirror_coordinate (Coord.x elem) (Coord.y elem) (Some w)
                           (region_height false 60 elem) 1920
                         = Ok (Coord.x r, Coord.y r)
                      /\ Coord.x r = 1920 - Coord.x elem - w
                      /\ Coord.x r + w = 1920 - Coord.x elem
                      /\ Coord.y r = Coord.y elem)
            [c] right_elements.
Proof.
  intros c.
  assert (H : forall elem, In elem [c] ->
            exists w, region_width false 100 elem = Some w
                      /\ mirror_exact_range 1920 (Coord.x elem) w).
  { intros elem [ <- | [] ]. exists 100. split; [ reflexivity | ].
    unfold mirror_exact_range, PyFloat.small. cbn. lia. }
  split; [ exact H | ].
  exact (mirror_position_exact [c] 1920 "heroes" false 100 60 H).
Defined.

(** C1 as stated fails on large integers: on a screen of width [2^53 + 1] a
    region at [x = 0] of width [0] is mirrored to [2^53], not to [2^53 + 1]. *)
Lemma mirror_position_inexact_above_2_53 :
  mirror_coordinate 0 0 (Some 0) (Some 0) 9007199254740993
  = Ok (9007199254740992, 0)
  /\ mirror_elements_to_right [Coord.mk 0 0 (Some 0) (Some 0) None None None]
       9007199254740993 "models" true 0 0
     = Ok [Coord.mk 9007199254740992 0 (Some 0) (Some 0) None None None]
  /\ 9007199254740992 + 0 <> 9007199254740993 - 0.
Proof. split; [ | split ]; [ vm_compute; reflexivity .. | lia ]. Qed.

(** ** C7: corner conversion *)

(** C7.  Convention A maps bottom-left [bl] and top-right [tr] to
    [x = bl.x], [y = tr.y], [width = tr.x - bl.x], [height = bl.y - tr.y];
    convention B maps top-left [tl] and bottom-right [br] to [x = tl.x],
    [y = tl.y], [width = br.x - tl.x], [height = br.y - tl.y]; convention A on
    [(100,200), (150,180)] and convention B on [(100,180), (150,200)] both give
    the rectangle [{x:100, y:180, width:50, height:20}]. *)
Theorem corner_conversion :
  (forall bl tr : Z * Z,
     calculate_from_bottom_left_top_right bl tr
     = Dims.mk (fst bl) (snd tr) (fst tr - fst bl) (snd bl - snd tr))
  /\ (forall tl br : Z * Z,
        calculate_from_top_left_bottom_right tl br
        = Dims.mk (fst tl) (snd tl) (fst br - fst tl) (snd br - snd tl))
  /\ calculate_from_bottom_left_top_right (100, 200) (150, 180)
     = Dims.mk 100 180 50 20
  /\ calculate_from_top_left_bottom_right (100, 180) (150, 200)
     = Dims.mk 100 180 50 20.
Proof. repeat split. Qed.

(** ** C4: generation of participant boxes and selected slots *)

Lemma generate_heroes_eq (hero0 hero1 : Dims.t) (heroes_params : Params.t) :
  generate_heroes hero0 hero1 heroes_params
  = [ Coord.mk (Dims.x hero0) (Dims.y hero0) None None (Some 0) None None;
      Coord.mk (Dims.x hero1) (Dims.y hero1) None None (Some 1) None None;
      Coord.mk (Dims.x hero0)
        (Dims.y hero1 + (2 - 1) * (Dims.y hero1 - Dims.y hero0))
        None None (Some 2) None None;
      Coord.mk (Dims.x hero0)
        (Dims.y hero1 + (3 - 1) * (Dims.y hero1 - Dims.y hero0))
        None None (Some 3) None None;
      Coord.mk (Dims.x hero0)
        (Dims.y hero1 + (4 - 1) * (Dims.y hero1 - Dims.y hero0))
        None None (Some 4) None None ].
Proof. reflexivity. Qed.

Lemma for_each_extend {A B : Type} (g : A -> list B) (xs : list A) (acc : list B) :
  for_each xs (fun a acc => Ok (acc ++ g a)) acc = Ok (acc ++ flat_map g xs).
Proof.
  revert acc. induction xs as [ | a xs IH ]; intros acc; cbn.
  - rewrite app_nil_r. reflexivity.
  - rewrite IH, app_assoc. reflexivity.
Qed.

Lemma generate_selected_abilities_eq (ability1 ability2 : Dims.t)
  (heroes : list Coord.t) (selected_params : Params.t) (h0 : Coord.t) :
  nth_error heroes 0 = Some h0 ->
  generate_selected_abilities ability1 ability2 heroes selected_params
  = Ok (flat_map (selected_slots_of ability1 ability2 (Coord.y h0)) heroes).
Proof.
  intros H0. unfold generate_selected_abilities, index. rewrite H0. cbn [bind].
  rewrite for_each_ext
    with (body2 := fun hero acc =>
                     Ok (acc ++ selected_slots_of ability1 ability2 (Coord.y h0) hero)).
  - apply (for_each_extend (selected_slots_of ability1 ability2 (Coord.y h0)) heroes []).
  - intros hero acc. cbn [range Nat.sub seq for_each fold_left app nth_error bind].
    unfold selected_slots_of, calculate_ability_spacing.
    cbn [range Nat.sub seq map Coord.x Coord.y].
    rewrite <- !app_assoc. reflexivity.
Qed.

(** C4.  From the two participant-box anchors [hero0], [hero1] and the two
    selected-slot anchors [ability1], [ability2]: exactly 5 participant boxes
    are generated, anchors 0 and 1 verbatim (position only) and participants
    [k = 2..4] at [x = hero0.x], [y = hero1.y + (k-1) * spacing] with
    [spacing = hero1.y - hero0.y]; for each of the 5 boxes a 4-slot template
    is generated at [x = ability1.x + j * spacing_h], [j = 0..3],
    [spacing_h = ability2.x - ability1.x], offset vertically by the box's [y]
    minus the first box's [y], slot [j = 3] marked terminal: exactly 20
    selected slots with identities 0..4 in generation order. *)
Theorem generation_from_anchors (hero0 hero1 ability1 ability2 : Dims.t)
  (heroes_params selected_params : Params.t) :
  let spacing := Dims.y hero1 - Dims.y hero0 in
  let spacing_h := Dims.x ability2 - Dims.x ability1 in
  let heroes := generate_heroes hero0 hero1 heroes_params in
  length heroes = 5%nat
  /\ nth_error heroes 0
     = Some (Coord.mk (Dims.x hero0) (Dims.y hero0) None None (Some 0) None None)
  /\ nth_error heroes 1
     = Some (Coord.mk (Dims.x hero1) (Dims.y hero1) None None (Some 1) None None)
  /\ (forall k : Z, 2 <= k <= 4 ->
        nth_error heroes (Z.to_nat k)
        = Some (Coord.mk (Dims.x hero0) (Dims.y hero1 + (k - 1) * spacing)
                  None None (Some k) None None))
  /\ exists slots,
       generate_selected_abilities ability1 ability2 heroes selected_params
       = Ok slots
       /\ length slots = 20%nat
       /\ map Coord.hero_order slots
          = map Some [0; 0; 0; 0; 1; 1; 1; 1; 2; 2; 2; 2; 3; 3; 3; 3; 4; 4; 4; 4]
       /\ forall (k j : nat) (hero : Coord.t),
            (k < 5)%nat -> (j < 4)%nat -> nth_error heroes k = Some hero ->
            nth_error slots (4 * k + j)
            = Some (Coord.mk (Dims.x ability1 + Z.of_nat j * spacing_h)
                      (Dims.y ability1 + (Coord.y hero - Dims.y hero0))
                      None None (Coord.hero_order hero) None
                      (Some (Nat.eqb j 3))).
Proof.
  intros spacing spacing_h heroes. subst heroes spacing spacing_h.
  rewrite generate_heroes_eq.
  split; [ reflexivity | ]. split; [ reflexivity | ]. split; [ reflexivity | ].
  split.
  - intros k Hk.
    assert (Hcases : k = 2 \/ k = 3 \/ k = 4) by lia.
    destruct Hcases as [ -> | [ -> | -> ] ]; reflexivity.
  - eexists. split.
    + apply generate_selected_abilities_eq. reflexivity.
    + split; [ reflexivity | ]. split; [ reflexivity | ].
      intros k j hero Hk Hj Hhero.
      destruct k as [ | [ | [ | [ | [ | k ] ] ] ] ]; try lia;
        injection Hhero as <-;
        destruct j as [ | [ | [ | [ | j ] ] ] ]; try lia; reflexivity.
Qed.

(** ** C2: identity stamping *)

(** A list of exactly [n] elements, taken apart. *)
Ltac list_of_length l H :=
  repeat (destruct l as [ | ?c l ]; [ discriminate H | ]);
  try (destruct l; [ clear H | discriminate H ]).

(** C2.  Stamping 6 capstone-slot rectangles (row-major) gives the identities
    [0,1,2,3,4,10] on the left side and [7,6,5,11,9,8] on the right side, in
    that order; stamping 18 standard-slot rectangles (row-major, 6 rows by 3
    columns) gives row [r] the identity [[0,1,2,3,4,10][r]] on the left and
    [[5,6,7,8,9,11][r]] on the right, and column [c] the slot order [c + 1]
    on both sides. *)
Theorem identity_stamping (ultimates standards : list Coord.t) :
  length ultimates = 6%nat -> length standards = 18%nat ->
  (exists l, apply_ultimate_hero_orders ultimates true = Ok l
             /\ map Coord.hero_order l = map Some [0; 1; 2; 3; 4; 10])
  /\ (exists r, apply_ultimate_hero_orders ultimates false = Ok r
                /\ map Coord.hero_order r = map Some [7; 6; 5; 11; 9; 8])
  /\ forall is_left_side : bool,
       exists s, apply_standard_hero_orders standards is_left_side = Ok s
         /\ length s = 18%nat
         /\ forall r c : nat, (r < 6)%nat -> (c < 3)%nat ->
              exists e, nth_error s (r * 3 + c) = Some e
                /\ Coord.hero_order e
                   = nth_error (if is_left_side then [0; 1; 2; 3; 4; 10]
                                else [5; 6; 7; 8; 9; 11]) r
                /\ Coord.ability_order e = Some (Z.of_nat c + 1).
Proof.
  intros Hu Hs.
  list_of_length ultimates Hu. list_of_length standards Hs.
  split; [ eexists; split; reflexivity | ].
  split; [ eexists; split; reflexivity | ].
  intros is_left_side.
  destruct is_left_side; (eexists; split; [ reflexivity | ]);
    (split; [ reflexivity | ]);
    intros row col Hr Hc;
    destruct row as [ | [ | [ | [ | [ | [ | row ] ] ] ] ] ]; try lia;
    destruct col as [ | [ | [ | col ] ] ]; try lia;
    (eexists; split; [ reflexivity | split; reflexivity ]).
Qed.

Lemma identity_stamping_witness :
  let c := Coord.mk 0 0 (Some 1) (Some 1) None None None in
  let ultimates := repeat c 6 in
  let standards := repeat c 18 in
  (exists l, apply_ultimate_hero_orders ultimates true = Ok l
             /\ map Coord.hero_order l = map Some [0; 1; 2; 3; 4; 10])
  /\ (exists r, apply_ultimate_hero_orders ultimates false = Ok r
                /\ map Coord.hero_order r = map Some [7; 6; 5; 11; 9; 8])
  /\ forall is_left_side : bool,
       exists s, apply_standard_hero_orders standards is_left_side = Ok s
         /\ length s = 18%nat
         /\ forall r c : nat, (r < 6)%nat -> (c < 3)%nat ->
              exists e, nth_error s (r * 3 + c) = Some e
                /\ Coord.hero_order e
                   = nth_error (if is_left_side then [0; 1; 2; 3; 4; 10]
                                else [5; 6; 7; 8; 9; 11]) r
                /\ Coord.ability_order e = Some (Z.of_nat c + 1).
Proof.
  intros c ultimates standards.
  exact (identity_stamping ultimates standards eq_refl eq_refl).
Defined.

(** ** C8: too few input points *)

(** C8 (as amended).  With fewer than 68 input points the calculation raises
    [IndexError], the exception of the out-of-range subscript [points[idx]],
    and returns no document: no group of any category, partial or complete,
    reaches the caller. *)
Theorem too_few_points_raise_IndexError (points : list (Z * Z)) (screen_width : Z) :
  (length points < 68)%nat ->
  calculate_coordinates_from_clicks points screen_width = Raise IndexError
  /\ forall coords,
       calculate_coordinates_from_clicks points screen_width <> Ok coords.
Proof.
  intros H.
  assert (Hraise : calculate_coordinates_from_clicks points screen_width
                   = Raise IndexError).
  { do 68 (destruct points as [ | ? points ]; [ reflexivity | ]).
    cbn [length] in H. lia. }
  split; [ exact Hraise | ].
  intros coords Hc. rewrite Hraise in Hc. discriminate Hc.
Qed.

Lemma too_few_points_raise_IndexError_witness :
  (length [(700, 210); (760, 150); (770, 210)] < 68)%nat
  /\ calculate_coordinates_from_clicks [(700, 210); (760, 150); (770, 210)] 1920
     = Raise IndexError
  /\ forall coords,
       calculate_coordinates_from_clicks [(700, 210); (760, 150); (770, 210)] 1920
       <> Ok coords.
Proof.
  assert (H : (length [(700, 210); (760, 150); (770, 210)] < 68)%nat)
    by (cbn [length]; lia).
  split; [ exact H | ].
  exact (too_few_points_raise_IndexError [(700, 210); (760, 150); (770, 210)] 1920 H).
Defined.

(** C8 as stated fails: on the empty input the exception raised is
    [IndexError], not an [InsufficientInputError]. *)
Lemma too_few_points_not_InsufficientInputError :
  calculate_coordinates_from_clicks [] 1920 = Raise IndexError
  /\ exn_class IndexError <> "InsufficientInputError".
Proof. split; [ reflexivity | discriminate ]. Qed.

(** ** The validation report *)

Lemma fold_left_invariant {A S : Type} (P : S -> Prop) (f : S -> A -> S)
  (xs : list A) (s : S) :
  P s -> (forall s' a, In a xs -> P s' -> P (f s' a)) -> P (fold_left f xs s).
Proof.
  revert s. induction xs as [ | a xs IH ]; intros s Hs Hstep; cbn.
  - assumption.
  - apply IH.
    + apply Hstep; [ left; reflexivity | assumption ].
    + intros s' a' Hin. apply Hstep. right. assumption.
Qed.

Lemma errors_fold_left {A : Type} (f : validation -> A -> validation)
  (g : A -> list verror) (xs : list A) (v : validation) :
  (forall v' a, errors (f v' a) = errors v' ++ g a) ->
  errors (fold_left f xs v) = errors v ++ flat_map g xs.
Proof.
  intros Hf. revert v. induction xs as [ | a xs IH ]; intros v; cbn.
  - rewrite app_nil_r. reflexivity.
  - rewrite IH, Hf, app_assoc. reflexivity.
Qed.

Lemma errors_check_item_with_dims (category wk hk : string) (W H : Z)
  (v : validation) (entry : nat * Item.t) :
  errors (check_item_with_dims category wk hk W H v entry)
  = errors v ++ item_errors_with_dims category wk hk W H entry.
Proof.
  destruct entry as [i item]. unfold check_item_with_dims, item_errors_with_dims.
  destruct ((Item.x item <? 0) || (Item.y item <? 0));
    destruct (Item.x item + Item.get item wk 0 >? W);
    destruct (Item.y item + Item.get item hk 0 >? H);
    cbn [add_error errors app]; rewrite <- ?app_assoc, ?app_nil_r; reflexivity.
Qed.

Lemma errors_check_item_with_params (category : string) (params : Params.t)
  (W H : Z) (v : validation) (entry : nat * Item.t) :
  errors (check_item_with_params category params W H v entry)
  = errors v ++ item_errors_with_params category params W H entry.
Proof.
  destruct entry as [i item]. unfold check_item_with_params, item_errors_with_params.
  destruct ((Item.x item <? 0) || (Item.y item <? 0));
    destruct (Item.x item + Params.width params >? W);
    destruct (Item.y item + Params.height params >? H);
    cbn [add_error errors app]; rewrite <- ?app_assoc, ?app_nil_r; reflexivity.
Qed.

Lemma errors_check_count (coords : Coords.t) (v : validation)
  (entry : string * expected_count) :
  errors (check_count coords v entry) = errors v ++ count_errors coords entry.
Proof.
  destruct entry as [category expected]. unfold check_count, count_errors.
  destruct (Coords.items coords category) as [ regions | ]; [ | reflexivity ].
  destruct expected as [ n | l ].
  - destruct (negb (Z.of_nat (length regions) =? n)); cbn;
      rewrite ?app_nil_r; reflexivity.
  - destruct (negb (existsb (Z.eqb (Z.of_nat (length regions))) l)); cbn;
      rewrite ?app_nil_r; reflexivity.
Qed.

(** The [errors] of the report, pass by pass. *)
Lemma validate_coordinates_errors (coords : Coords.t) (W H : Z) :
  errors (validate_coordinates coords W H)
  = dims_errors coords W H ++ params_errors coords W H
    ++ flat_map (count_errors coords) expected_counts.
Proof.
  unfold validate_coordinates.
  rewrite (errors_fold_left _ (count_errors coords))
    by (intros; apply errors_check_count).
  rewrite (errors_fold_left _
             (fun '(category, params_key) =>
                match Coords.items coords category, Coords.params coords params_key with
                | Some regions, Some params =>
                    flat_map (item_errors_with_params category params W H)
                             (enumerate regions)
                | _, _ => []
                end)).
  - rewrite (errors_fold_left _
               (fun '(category, width_key, height_key) =>
                  match Coords.items coords category with
                  | None => []
                  | Some regions =>
                      flat_map (item_errors_with_dims category width_key height_key W H)
                               (enumerate regions)
                  end)).
    + cbn [errors app]. rewrite <- app_assoc. reflexivity.
    + intros v [[category wk] hk].
      destruct (Coords.items coords category) as [ regions | ].
      * apply errors_fold_left. intros. apply errors_check_item_with_dims.
      * rewrite app_nil_r. reflexivity.
  - intros v [category pk].
    destruct (Coords.items coords category) as [ regions | ];
      [ destruct (Coords.params coords pk) as [ params | ] | ];
      rewrite ?app_nil_r; try reflexivity.
    apply errors_fold_left. intros. apply errors_check_item_with_params.
Qed.

(** *** C10: warnings and the [passed] flag *)

Lemma report_consistent_add_error (e : verror) (v : validation) :
  report_consistent v -> report_consistent (add_error e v).
Proof.
  intros [Hw _]. split; [ exact Hw | ]. cbn. split.
  - discriminate.
  - intros H. destruct (errors v); discriminate H.
Qed.

Lemma report_consistent_if (b : bool) (e : verror) (v : validation) :
  report_consistent v -> report_consistent (if b then add_error e v else v).
Proof. destruct b; [ apply report_consistent_add_error | trivial ]. Qed.

Lemma report_consistent_check_item_with_dims (category wk hk : string) (W H : Z)
  (v : validation) (entry : nat * Item.t) :
  report_consistent v ->
  report_consistent (check_item_with_dims category wk hk W H v entry).
Proof.
  intros Hv. destruct entry as [i item]. unfold check_item_with_dims.
  do 3 apply report_consistent_if. exact Hv.
Qed.

Lemma report_consistent_check_item_with_params (category : string)
  (params : Params.t) (W H : Z) (v : validation) (entry : nat * Item.t) :
  report_consistent v ->
  report_consistent (check_item_with_params category params W H v entry).
Proof.
  intros Hv. destruct entry as [i item]. unfold check_item_with_params.
  do 3 apply report_consistent_if. exact Hv.
Qed.

(** The count check keeps the report consistent when the expected count is
    an integer, which is the case of every entry of [expected_counts]. *)
Lemma report_consistent_check_count (coords : Coords.t) (v : validation)
  (category : string) (n : Z) :
  report_consistent v ->
  report_consistent (check_count coords v (category, ExpInt n)).
Proof.
  intros Hv. unfold check_count.
  destruct (Coords.items coords category) as [ regions | ].
  - apply report_consistent_if. exact Hv.
  - apply report_consistent_add_error. exact Hv.
Qed.

Lemma expected_counts_are_integers (entry : string * expected_count) :
  In entry expected_counts -> exists category n, entry = (category, ExpInt n).
Proof.
  unfold expected_counts. cbn [In].
  intros [ <- | [ <- | [ <- | [ <- | [ <- | [] ] ] ] ] ]; eauto.
Qed.

(** C10.  For every coordinate dictionary and screen dimensions the report
    of [validate_coordinates] has an empty [warnings] list (the warning branch
    needs a list-valued expected count and every expected count is an
    integer), and [passed] is true exactly when [errors] is empty. *)
Theorem validation_report_consistent (coords : Coords.t) (width height : Z) :
  warnings (validate_coordinates coords width height) = []
  /\ (passed (validate_coordinates coords width height) = true
      <-> errors (validate_coordinates coords width height) = []).
Proof.
  change (report_consistent (validate_coordinates coords width height)).
  unfold validate_coordinates.
  apply fold_left_invariant.
  - apply fold_left_invariant.
    + apply fold_left_invariant.
      * split; [ reflexivity | split; reflexivity ].
      * intros v [[category wk] hk] _ Hv.
        destruct (Coords.items coords category) as [ regions | ]; [ | exact Hv ].
        apply fold_left_invariant; [ exact Hv | ].
        intros v' entry _. apply report_consistent_check_item_with_dims.
    + intros v [category pk] _ Hv.
      destruct (Coords.items coords category) as [ regions | ]; [ | exact Hv ].
      destruct (Coords.params coords pk) as [ params | ]; [ | exact Hv ].
      apply fold_left_invariant; [ exact Hv | ].
      intros v' entry _. apply report_consistent_check_item_with_params.
  - intros v entry Hin Hv.
    destruct (expected_counts_are_integers entry Hin) as (category & n & ->).
    apply report_consistent_check_count. exact Hv.
Qed.

(** *** Which regions the entries of [errors] are about *)

Lemma In_enumerate_from {A : Type} (xs : list A) (k i : nat) (a : A) :
  In (i, a) (combine (seq k (length xs)) xs)
  <-> (k <= i)%nat /\ nth_error xs (i - k) = Some a.
Proof.
  revert k. induction xs as [ | x xs IH ]; intros k; cbn [length seq combine In].
  - split; [ intros [] | ]. intros [_ H]. destruct (i - k)%nat; discriminate H.
  - rewrite IH. split.
    + intros [ [= -> ->] | [Hle Hn] ].
      * split; [ lia | ]. rewrite Nat.sub_diag. reflexivity.
      * split; [ lia | ].
        replace (i - k)%nat with (S (i - S k)) by lia. exact Hn.
    + intros [Hle Hn]. destruct (Nat.eq_dec i k) as [ -> | Hne ].
      * left. rewrite Nat.sub_diag in Hn. injection Hn as ->. reflexivity.
      * right. split; [ lia | ].
        replace (i - k)%nat with (S (i - S k)) in Hn by lia. exact Hn.
Qed.

Lemma In_enumerate {A : Type} (xs : list A) (i : nat) (a : A) :
  In (i, a) (enumerate xs) <-> nth_error xs i = Some a.
Proof.
  unfold enumerate. rewrite In_enumerate_from, Nat.sub_0_r.
  split; [ intros [_ H]; exact H | intros H; split; [ lia | exact H ] ].
Qed.

Lemma In_flat_map_enumerate {A B : Type} (g : nat * A -> list B) (xs : list A) (b : B) :
  In b (flat_map g (enumerate xs))
  <-> exists i a, nth_error xs i = Some a /\ In b (g (i, a)).
Proof.
  rewrite in_flat_map. split.
  - intros ([i a] & Hin & Hb). apply In_enumerate in Hin. eauto.
  - intros (i & a & Hn & Hb). exists (i, a). rewrite In_enumerate. auto.
Qed.

Lemma str_in_dims_category_names (category : string) :
  str_in category dims_category_names = true ->
  category = "ultimate_slots_coords" \/ category = "standard_slots_coords"
  \/ category = "models_coords".
Proof.
  unfold str_in, dims_category_names. cbn [existsb].
  rewrite !orb_true_iff, !String.eqb_eq. intuition discriminate.
Qed.

Lemma item_errors_with_dims_region_errors (category : string) (i : nat)
  (item : Item.t) (W H : Z) :
  str_in category dims_category_names = true ->
  item_errors_with_dims category "width" "height" W H (i, item)
  = region_errors category i item (Item.get item "width" 0)
      (Item.get item "height" 0) W H.
Proof.
  intros Hc. unfold item_errors_with_dims, region_errors. rewrite Hc. reflexivity.
Qed.

Lemma item_errors_with_params_region_errors (category : string)
  (params : Params.t) (i : nat) (item : Item.t) (W H : Z) :
  str_in category dims_category_names = false ->
  item_errors_with_params category params W H (i, item)
  = region_errors category i item (Params.width params) (Params.height params) W H.
Proof.
  intros Hc. unfold item_errors_with_params, region_errors. rewrite Hc. reflexivity.
Qed.

Lemma In_region_errors (e : verror) (category : string) (i : nat) (item : Item.t)
  (w h W H : Z) :
  In e (region_errors category i item w h W H)
  <-> (e = NegativeCoordinates category i
             (if str_in category dims_category_names
              then Some (Item.x item, Item.y item) else None)
       /\ (Item.x item < 0 \/ Item.y item < 0))
      \/ (e = ExtendsBeyondWidth category i (Item.hero_order item)
          /\ Item.x item + w > W)
      \/ (e = ExtendsBeyondHeight category i (Item.hero_order item)
          /\ Item.y item + h > H).
Proof.
  unfold region_errors. rewrite !in_app_iff.
  destruct (Z.ltb_spec (Item.x item) 0); destruct (Z.ltb_spec (Item.y item) 0);
    destruct (Z.gtb_spec (Item.x item + w) W);
    destruct (Z.gtb_spec (Item.y item + h) H);
    cbn [orb In]; intuition (try lia; auto).
Qed.

Lemma region_errors_region (e : verror) (category : string) (i : nat)
  (item : Item.t) (w h W H : Z) :
  In e (region_errors category i item w h W H) -> error_region e = Some (category, i).
Proof.
  rewrite In_region_errors. intros [ [-> _] | [ [-> _] | [-> _] ] ]; reflexivity.
Qed.

Lemma count_errors_no_region (coords : Coords.t) (e : verror) :
  In e (flat_map (count_errors coords) expected_counts) -> error_region e = None.
Proof.
  rewrite in_flat_map. intros ([category expected] & _ & Hin).
  unfold count_errors in Hin.
  destruct (Coords.items coords category) as [ regions | ].
  - destruct expected as [ n | l ]; [ | destruct Hin ].
    destruct (negb (Z.of_nat (length regions) =? n)); [ | destruct Hin ].
    destruct Hin as [ <- | [] ]. reflexivity.
  - destruct Hin as [ <- | [] ]. reflexivity.
Qed.

Lemma In_bounds_errors (coords : Coords.t) (W H : Z) (e : verror) :
  In e (dims_errors coords W H ++ params_errors coords W H)
  <-> exists category i regions item w h,
        Coords.items coords category = Some regions
        /\ nth_error regions i = Some item
        /\ checked_size coords category item = Some (w, h)
        /\ In e (region_errors category i item w h W H).
Proof.
  split.
  - unfold dims_errors, params_errors, categories_with_dims, categories_with_params.
    cbn [flat_map]. rewrite !in_app_iff.
    intros [ [ Hin | [ Hin | [ Hin | [] ] ] ] | [ Hin | [ Hin | [] ] ] ].
    + destruct (Coords.items coords "ultimate_slots_coords") as [ regions | ] eqn:Hi;
        [ | destruct Hin ].
      apply In_flat_map_enumerate in Hin as (i & item & Hn & Hin).
      rewrite item_errors_with_dims_region_errors in Hin by reflexivity.
      exists "ultimate_slots_coords", i, regions, item,
        (Item.get item "width" 0), (Item.get item "height" 0).
      repeat split; assumption.
    + destruct (Coords.items coords "standard_slots_coords") as [ regions | ] eqn:Hi;
        [ | destruct Hin ].
      apply In_flat_map_enumerate in Hin as (i & item & Hn & Hin).
      rewrite item_errors_with_dims_region_errors in Hin by reflexivity.
      exists "standard_slots_coords", i, regions, item,
        (Item.get item "width" 0), (Item.get item "height" 0).
      repeat split; assumption.
    + destruct (Coords.items coords "models_coords") as [ regions | ] eqn:Hi;
        [ | destruct Hin ].
      apply In_flat_map_enumerate in Hin as (i & item & Hn & Hin).
      rewrite item_errors_with_dims_region_errors in Hin by reflexivity.
      exists "models_coords", i, regions, item,
        (Item.get item "width" 0), (Item.get item "height" 0).
      repeat split; assumption.
    + destruct (Coords.items coords "heroes_coords") as [ regions | ] eqn:Hi;
        [ | destruct Hin ].
      destruct (Coords.params coords "heroes_params") as [ params | ] eqn:Hp;
        [ | destruct Hin ].
      apply In_flat_map_enumerate in Hin as (i & item & Hn & Hin).
      rewrite item_errors_with_params_region_errors in Hin by reflexivity.
      exists "heroes_coords", i, regions, item,
        (Params.width params), (Params.height params).
      repeat split; try assumption.
      unfold checked_size. cbn. cbn in Hp. rewrite Hp. reflexivity.
    + destruct (Coords.items coords "selected_abilities_coords") as [ regions | ] eqn:Hi;
        [ | destruct Hin ].
      destruct (Coords.params coords "selected_abilities_params") as [ params | ] eqn:Hp;
        [ | destruct Hin ].
      apply In_flat_map_enumerate in Hin as (i & item & Hn & Hin).
      rewrite item_errors_with_params_region_errors in Hin by reflexivity.
      exists "selected_abilities_coords", i, regions, item,
        (Params.width params), (Params.height params).
      repeat split; try assumption.
      unfold checked_size. cbn. cbn in Hp. rewrite Hp. reflexivity.
  - intros (category & i & regions & item & w & h & Hi & Hn & Hsize & Hin).
    unfold checked_size in Hsize.
    unfold dims_errors, params_errors, categories_with_dims, categories_with_params.
    cbn [flat_map]. rewrite !in_app_iff.
    destruct (str_in category dims_category_names) eqn:Hd.
    + injection Hsize as <- <-. left.
      rewrite <- item_errors_with_dims_region_errors in Hin by assumption.
      assert (Hfm : In e (flat_map
                (item_errors_with_dims category "width" "height" W H)
                (enumerate regions)))
        by (apply In_flat_map_enumerate; eauto).
      destruct (str_in_dims_category_names category Hd) as [ -> | [ -> | -> ] ];
        rewrite Hi; auto.
    + right.
      rewrite <- (item_errors_with_params_region_errors category (Params.mk w h))
        in Hin by assumption.
      assert (Hfm : In e (flat_map
                (item_errors_with_params category (Params.mk w h) W H)
                (enumerate regions)))
        by (apply In_flat_map_enumerate; eauto).
      destruct (String.eqb_spec category "heroes_coords") as [ -> | _ ].
      * rewrite Hi. left.
        change (Coords.params coords "heroes_params")
          with (Coords.heroes_params coords).
        destruct (Coords.heroes_params coords) as [ [pw ph] | ]; [ | discriminate ].
        injection Hsize as -> ->. exact Hfm.
      * destruct (String.eqb_spec category "selected_abilities_coords")
          as [ -> | _ ]; [ | discriminate ].
        rewrite Hi. right. left.
        change (Coords.params coords "selected_abilities_params")
          with (Coords.selected_abilities_params coords).
        destruct (Coords.selected_abilities_params coords) as [ [pw ph] | ];
          [ | discriminate ].
        injection Hsize as -> ->. exact Hfm.
Qed.

(** Every entry of [errors] about a region comes from one of the three checks
    made on that region. *)
Lemma region_error_iff (coords : Coords.t) (W H : Z) (e : verror)
  (category : string) (i : nat) :
  In e (errors (validate_coordinates coords W H))
  /\ error_region e = Some (category, i)
  <-> exists regions item w h,
        Coords.items coords category = Some regions
        /\ nth_error regions i = Some item
        /\ checked_size coords category item = Some (w, h)
        /\ In e (region_errors category i item w h W H).
Proof.
  rewrite validate_coordinates_errors, app_assoc, in_app_iff, In_bounds_errors.
  split.
  - intros [ [ (c' & i' & regions & item & w & h & Hi & Hn & Hs & Hin) | Hc ] Hr ].
    + pose proof (region_errors_region _ _ _ _ _ _ _ _ Hin) as Hr'.
      rewrite Hr in Hr'. injection Hr' as <- <-. eauto 8.
    + apply count_errors_no_region in Hc. congruence.
  - intros (regions & item & w & h & Hi & Hn & Hs & Hin). split.
    + left. eauto 10.
    + eapply region_errors_region. eassumption.
Qed.

Lemma region_error_cause (coords : Coords.t) (W H : Z) (e : verror)
  (category : string) (i : nat) :
  In e (errors (validate_coordinates coords W H)) ->
  error_region e = Some (category, i) ->
  exists regions item w h,
    Coords.items coords category = Some regions
    /\ nth_error regions i = Some item
    /\ checked_size coords category item = Some (w, h)
    /\ (Item.x item < 0 \/ Item.y item < 0
        \/ Item.x item + w > W \/ Item.y item + h > H).
Proof.
  intros Hin Hr.
  destruct (proj1 (region_error_iff coords W H e category i) (conj Hin Hr))
    as (regions & item & w & h & Hi & Hn & Hs & He).
  exists regions, item, w, h. repeat split; try assumption.
  apply In_region_errors in He. intuition.
Qed.

Lemma region_in_bounds_no_error (coords : Coords.t) (W H : Z) (category : string)
  (i : nat) (regions : list Item.t) (item : Item.t) (w h : Z) :
  Coords.items coords category = Some regions ->
  nth_error regions i = Some item ->
  checked_size coords category item = Some (w, h) ->
  0 <= Item.x item -> 0 <= Item.y item ->
  Item.x item + w <= W -> Item.y item + h <= H ->
  forall e, In e (errors (validate_coordinates coords W H)) ->
            error_region e <> Some (category, i).
Proof.
  intros Hi Hn Hs Hx Hy Hw Hh e Hin Hr.
  destruct (region_error_cause coords W H e category i Hin Hr)
    as (regions' & item' & w' & h' & Hi' & Hn' & Hs' & Hc).
  rewrite Hi in Hi'. injection Hi' as <-.
  rewrite Hn in Hn'. injection Hn' as <-.
  rewrite Hs in Hs'. injection Hs' as <- <-. lia.
Qed.

Lemma width_error_iff (coords : Coords.t) (W H : Z) (category : string) (i : nat)
  (ho : option Z) :
  In (ExtendsBeyondWidth category i ho) (errors (validate_coordinates coords W H))
  <-> exists regions item w h,
        Coords.items coords category = Some regions
        /\ nth_error regions i = Some item
        /\ checked_size coords category item = Some (w, h)
        /\ Item.hero_order item = ho
        /\ Item.x item + w > W.
Proof.
  split.
  - intros Hin.
    destruct (proj1 (region_error_iff coords W H _ category i) (conj Hin eq_refl))
      as (regions & item & w & h & Hi & Hn & Hs & He).
    exists regions, item, w, h. repeat split; try assumption;
      apply In_region_errors in He;
      destruct He as [ [He _] | [ [He Hc] | [He _] ] ]; try discriminate He.
    + injection He as ->. reflexivity.
    + exact Hc.
  - intros (regions & item & w & h & Hi & Hn & Hs & <- & Hc).
    apply (region_error_iff coords W H _ category i).
    exists regions, item, w, h. repeat split; try assumption.
    apply In_region_errors. right. left. split; [ reflexivity | exact Hc ].
Qed.

Lemma height_error_iff (coords : Coords.t) (W H : Z) (category : string) (i : nat)
  (ho : option Z) :
  In (ExtendsBeyondHeight category i ho) (errors (validate_coordinates coords W H))
  <-> exists regions item w h,
        Coords.items coords category = Some regions
        /\ nth_error regions i = Some item
        /\ checked_size coords category item = Some (w, h)
        /\ Item.hero_order item = ho
        /\ Item.y item + h > H.
Proof.
  split.
  - intros Hin.
    destruct (proj1 (region_error_iff coords W H _ category i) (conj Hin eq_refl))
      as (regions & item & w & h & Hi & Hn & Hs & He).
    exists regions, item, w, h. repeat split; try assumption;
      apply In_region_errors in He;
      destruct He as [ [He _] | [ [He _] | [He Hc] ] ]; try discriminate He.
    + injection He as ->. reflexivity.
    + exact Hc.
  - intros (regions & item & w & h & Hi & Hn & Hs & <- & Hc).
    apply (region_error_iff coords W H _ category i).
    exists regions, item, w, h. repeat split; try assumption.
    apply In_region_errors. right. right. split; [ reflexivity | exact Hc ].
Qed.

(** *** C9: the bounds check is strict *)

(** C9.  The report has a width-overflow entry for a region exactly when
    [x + width] strictly exceeds the screen width, and a height-overflow entry
    exactly when [y + height] strictly exceeds the screen height, the width and
    height being the region's own in the categories with per-region sizes and
    the shared parameters in the others; a region with [x + width] equal to
    the screen width gets no width-overflow entry, and no entry at all when
    it is also inside the screen on the other three sides. *)
Theorem bounds_check_strict (coords : Coords.t) (W H : Z) (category : string)
  (i : nat) (ho : option Z) :
  (In (ExtendsBeyondWidth category i ho) (errors (validate_coordinates coords W H))
   <-> exists regions item w h,
         Coords.items coords category = Some regions
         /\ nth_error regions i = Some item
         /\ checked_size coords category item = Some (w, h)
         /\ Item.hero_order item = ho
         /\ Item.x item + w > W)
  /\ (In (ExtendsBeyondHeight category i ho) (errors (validate_coordinates coords W H))
      <-> exists regions item w h,
            Coords.items coords category = Some regions
            /\ nth_error regions i = Some item
            /\ checked_size coords category item = Some (w, h)
            /\ Item.hero_order item = ho
            /\ Item.y item + h > H)
  /\ (forall regions item w h,
        Coords.items coords category = Some regions ->
        nth_error regions i = Some item ->
        checked_size coords category item = Some (w, h) ->
        Item.x item + w = W ->
        ~ In (ExtendsBeyondWidth category i ho)
             (errors (validate_coordinates coords W H)))
  /\ (forall regions item w h,
        Coords.items coords category = Some regions ->
        nth_error regions i = Some item ->
        checked_size coords category item = Some (w, h) ->
        0 <= Item.x item -> 0 <= Item.y item ->
        Item.x item + w = W -> Item.y item + h <= H ->
        forall e, In e (errors (validate_coordinates coords W H)) ->
                  error_region e <> Some (category, i)).
Proof.
  split; [ apply width_error_iff | ]. split; [ apply height_error_iff | ]. split.
  - intros regions item w h Hi Hn Hs Hw Hin.
    apply width_error_iff in Hin
      as (regions' & item' & w' & h' & Hi' & Hn' & Hs' & _ & Hc).
    rewrite Hi in Hi'. injection Hi' as <-.
    rewrite Hn in Hn'. injection Hn' as <-.
    rewrite Hs in Hs'. injection Hs' as <- <-. lia.
  - intros regions item w h Hi Hn Hs Hx Hy Hw Hh.
    apply (region_in_bounds_no_error coords W H category i regions item w h);
      try assumption. lia.
Qed.

(** *** C6: reversed corners *)

(** C6 (as amended).  Corner conversion performs no clamping or
    sign-correction: corners given in the reverse order yield a negative width
    or height.  [validate_coordinates] never looks at the sign of a width or
    height: an entry of [errors] about a region is there only because the
    region has a negative [x] or [y], or [x + width] above the screen width, or
    [y + height] above the screen height; so a region of negative width or
    height that lies inside the screen gets no entry. *)
Theorem reversed_corners_not_reported :
  (forall bl tr : Z * Z,
     (fst tr < fst bl -> Dims.width (calculate_from_bottom_left_top_right bl tr) < 0)
     /\ (snd bl < snd tr -> Dims.height (calculate_from_bottom_left_top_right bl tr) < 0))
  /\ (forall tl br : Z * Z,
        (fst br < fst tl -> Dims.width (calculate_from_top_left_bottom_right tl br) < 0)
        /\ (snd br < snd tl
            -> Dims.height (calculate_from_top_left_bottom_right tl br) < 0))
  /\ (forall (coords : Coords.t) (W H : Z) (e : verror) (category : string) (i : nat),
        In e (errors (validate_coordinates coords W H)) ->
        error_region e = Some (category, i) ->
        exists regions item w h,
          Coords.items coords category = Some regions
          /\ nth_error regions i = Some item
          /\ checked_size coords category item = Some (w, h)
          /\ (Item.x item < 0 \/ Item.y item < 0
              \/ Item.x item + w > W \/ Item.y item + h > H))
  /\ (forall (coords : Coords.t) (W H : Z) (category : string) (i : nat)
             (regions : list Item.t) (item : Item.t) (w h : Z),
        Coords.items coords category = Some regions ->
        nth_error regions i = Some item ->
        checked_size coords category item = Some (w, h) ->
        0 <= Item.x item -> 0 <= Item.y item ->
        Item.x item + w <= W -> Item.y item + h <= H ->
        forall e, In e (errors (validate_coordinates coords W H)) ->
                  error_region e <> Some (category, i)).
Proof.
  split; [ | split; [ | split ] ].
  - intros [blx bly] [trx try_]. cbn. lia.
  - intros [tlx tly] [brx bry]. cbn. lia.
  - apply region_error_cause.
  - apply region_in_bounds_no_error.
Qed.

(** C6 as stated fails: with the corners of the first capstone slot reversed
    the pipeline returns a document whose first capstone region has width
    [-60] and height [-60], and its validation on the 1920 by 1080 screen
    passes with no error entry. *)
Lemma reversed_corners_pass_validation :
  exists coords regions region,
    calculate_coordinates_from_clicks reversed_corner_points 1920 = Ok coords
    /\ Coords.ultimate_slots_coords coords = Some regions
    /\ nth_error regions 0 = Some region
    /\ Item.width region = Some (-60)
    /\ Item.height region = Some (-60)
    /\ validate_coordinates coords 1920 1080 = mkValidation true [] [].
Proof.
  destruct (calculate_coordinates_from_clicks reversed_corner_points 1920)
    as [ coords | e ] eqn:Hc; vm_compute in Hc; [ | discriminate Hc ].
  injection Hc as <-. do 3 eexists.
  split; [ reflexivity | ]. split; [ reflexivity | ]. split; [ reflexivity | ].
  split; [ reflexivity | ]. split; [ reflexivity | ]. vm_compute. reflexivity.
Qed.

(** ** C3: identities of the mirrored regions *)

Lemma mirrored_hero_order_offset (ty : string) (i : Z) :
  In ty ["heroes"; "models"; "selected_abilities"] ->
  mirrored_hero_order ty (Some i) = Some (if i =? 10 then 11 else i + 5).
Proof.
  cbn [In]. intros [ <- | [ <- | [ <- | [] ] ] ];
    unfold mirrored_hero_order; destruct (i =? 10); reflexivity.
Qed.

Lemma mirror_element_fields (sw : Z) (ty : string) (hd : bool) (ew eh : Z)
  (elem r : Coord.t) :
  mirror_element sw ty hd ew eh elem = Ok r ->
  Coord.hero_order r = mirrored_hero_order ty (Coord.hero_order elem)
  /\ Coord.ability_order r = Coord.ability_order elem
  /\ Coord.is_ultimate r = Coord.is_ultimate elem
  /\ Coord.width r = (if hd then Coord.width elem else None)
  /\ Coord.height r = (if hd then Coord.height elem else None).
Proof.
  unfold mirror_element. intros H.
  apply bind_Ok_inv in H as ([mx my] & _ & [= <-]). cbn. auto.
Qed.

(** C3.  In the model-thumbnails, participant-boxes and selected-slots
    categories (element types [models], [heroes], [selected_abilities]) a
    region whose left-side identity is [i] is mirrored to the identity
    [i + 5], except that identity 10 is mirrored to 11; the slot order and the
    terminal-slot flag are copied unchanged.  Mirroring returns whenever the
    positions and widths are in the range where its arithmetic is exact. *)
Theorem mirrored_identity_offset (left_elements : list Coord.t) (sw : Z)
  (ty : string) (hd : bool) (ew eh : Z) :
  In ty ["heroes"; "models"; "selected_abilities"] ->
  (forall right_elements,
     mirror_elements_to_right left_elements sw ty hd ew eh = Ok right_elements ->
     Forall2 (fun elem r =>
                (forall i, Coord.hero_order elem = Some i ->
                           Coord.hero_order r = Some (if i =? 10 then 11 else i + 5))
                /\ Coord.ability_order r = Coord.ability_order elem
                /\ Coord.is_ultimate r = Coord.is_ultimate elem)
             left_elements right_elements)
  /\ ((forall elem, In elem left_elements ->
         exists w, region_width hd ew elem = Some w
                   /\ mirror_exact_range sw (Coord.x elem) w) ->
      exists right_elements,
        mirror_elements_to_right left_elements sw ty hd ew eh = Ok right_elements).
Proof.
  intros Hty. split.
  - intros right_elements H. rewrite mirror_elements_to_right_mapM in H.
    apply mapM_Forall2 in H. revert H. apply Forall2_impl.
    intros elem r Hr. apply mirror_element_fields in Hr as (Hho & Hao & Hu & _).
    repeat split; try assumption.
    intros i Hi. rewrite Hho, Hi. apply mirrored_hero_order_offset. exact Hty.
  - intros Hrange. rewrite mirror_elements_to_right_mapM.
    apply mapM_total. intros elem Hin.
    destruct (Hrange elem Hin) as (w & Hw & Hr).
    rewrite (mirror_element_exact sw ty hd ew eh w elem Hw Hr). eauto.
Qed.

Lemma mirrored_identity_offset_witness :
  let left_elements :=
    [ Coord.mk 100 100 (Some 100) (Some 110) (Some 4) None None;
      Coord.mk 100 220 (Some 100) (Some 110) (Some 10) None None ] in
  In "models" ["heroes"; "models"; "selected_abilities"]
  /\ (forall right_elements,
        mirror_elements_to_right left_elements 1920 "models" true 0 0
        = Ok right_elements ->
        Forall2 (fun elem r =>
                   (forall i, Coord.hero_order elem = Some i ->
                              Coord.hero_order r
                              = Some (if i =? 10 then 11 else i + 5))
                   /\ Coord.ability_order r = Coord.ability_order elem
                   /\ Coord.is_ultimate r = Coord.is_ultimate elem)
                left_elements right_elements)
  /\ mirror_elements_to_right left_elements 1920 "models" true 0 0
     = Ok [ Coord.mk 1720 100 (Some 100) (Some 110) (Some 9) None None;
            Coord.mk 1720 220 (Some 100) (Some 110) (Some 11) None None ].
Proof.
  intros left_elements.
  assert (Hty : In "models" ["heroes"; "models"; "selected_abilities"])
    by (right; left; reflexivity).
  split; [ exact Hty | ]. split.
  - exact (proj1 (mirrored_identity_offset left_elements 1920 "models" true 0 0 Hty)).
  - vm_compute. reflexivity.
Defined.

(** ** C5: the number of regions of each category *)

Lemma for_each_invariant {A S : Type} (P : S -> Prop) (body : A -> S -> result S)
  (xs : list A) (s s' : S) :
  P s -> (forall a t t', P t -> body a t = Ok t' -> P t') ->
  for_each xs body s = Ok s' -> P s'.
Proof.
  intros Hs Hstep. revert s Hs. induction xs as [ | a xs IH ]; intros s Hs H; cbn in H.
  - injection H as <-. exact Hs.
  - apply bind_Ok_inv in H as (t & Ht & H). apply (IH t); [ | exact H ].
    apply (Hstep a s t Hs Ht).
Qed.

Lemma update_length {A : Type} (f : A -> A) (xs ys : list A) (i : nat) :
  update xs i f = Ok ys -> length ys = length xs.
Proof.
  revert ys i. induction xs as [ | a xs IH ]; intros ys i H.
  - discriminate H.
  - destruct i as [ | i ]; cbn in H.
    + injection H as <-. reflexivity.
    + apply bind_Ok_inv in H as (xs' & Hxs & [= <-]).
      cbn. rewrite (IH _ _ Hxs). reflexivity.
Qed.

Lemma apply_ultimate_hero_orders_length (ultimates stamped : list Coord.t)
  (is_left_side : bool) :
  apply_ultimate_hero_orders ultimates is_left_side = Ok stamped ->
  length stamped = length ultimates.
Proof.
  unfold apply_ultimate_hero_orders.
  apply (for_each_invariant (fun l => length l = length ultimates));
    [ reflexivity | ].
  intros [i ult] t t' Ht H. apply bind_Ok_inv in H as (o & _ & H).
  apply update_length in H. congruence.
Qed.

Lemma apply_standard_hero_orders_length (standards stamped : list Coord.t)
  (is_left_side : bool) :
  apply_standard_hero_orders standards is_left_side = Ok stamped ->
  length stamped = length standards.
Proof.
  unfold apply_standard_hero_orders.
  apply (for_each_invariant (fun l => length l = length standards));
    [ reflexivity | ].
  intros row t t' Ht.
  apply (for_each_invariant (fun l => length l = length standards));
    [ exact Ht | ].
  intros col u u' Hu H. apply bind_Ok_inv in H as (ho & _ & H).
  apply bind_Ok_inv in H as (u1 & H1 & H).
  apply update_length in H1. apply update_length in H. congruence.
Qed.

Lemma mirror_elements_to_right_length (left_elements right_elements : list Coord.t)
  (sw : Z) (ty : string) (hd : bool) (ew eh : Z) :
  mirror_elements_to_right left_elements sw ty hd ew eh = Ok right_elements ->
  length right_elements = length left_elements.
Proof.
  rewrite mirror_elements_to_right_mapM. intros H.
  apply mapM_Forall2 in H. symmetry. eapply Forall2_length. exact H.
Qed.

(** The five lists of the document returned for 68 points. *)
Lemma calculated_lengths (points : list (Z * Z)) (screen_width : Z) (coords : Coords.t) :
  length points = 68%nat ->
  calculate_coordinates_from_clicks points screen_width = Ok coords ->
  option_map (@length Item.t) (Coords.ultimate_slots_coords coords) = Some 12%nat
  /\ option_map (@length Item.t) (Coords.standard_slots_coords coords) = Some 36%nat
  /\ option_map (@length Item.t) (Coords.models_coords coords) = Some 12%nat
  /\ option_map (@length Item.t) (Coords.heroes_coords coords) = Some 10%nat
  /\ option_map (@length Item.t) (Coords.selected_abilities_coords coords)
     = Some 40%nat.
Proof.
  intros Hlen Hc.
  list_of_length points Hlen.
  unfold calculate_coordinates_from_clicks in Hc.
  cbn -[mirror_elements_to_right apply_ultimate_hero_orders
        apply_standard_hero_orders Z.mul Z.add Z.sub] in Hc.
  apply bind_Ok_inv in Hc as (lu & Hlu & Hc).
  apply bind_Ok_inv in Hc as (ls & Hls & Hc).
  apply bind_Ok_inv in Hc as (ru0 & Hru0 & Hc).
  apply bind_Ok_inv in Hc as (ru & Hru & Hc).
  apply bind_Ok_inv in Hc as (rs0 & Hrs0 & Hc).
  apply bind_Ok_inv in Hc as (rs & Hrs & Hc).
  apply bind_Ok_inv in Hc as (rm & Hrm & Hc).
  apply bind_Ok_inv in Hc as (rh & Hrh & Hc).
  apply bind_Ok_inv in Hc as (rsel & Hrsel & Hc).
  injection Hc as <-.
  apply apply_ultimate_hero_orders_length in Hlu, Hru.
  apply apply_standard_hero_orders_length in Hls, Hrs.
  apply mirror_elements_to_right_length in Hru0, Hrs0, Hrm, Hrh, Hrsel.
  cbn [Coords.ultimate_slots_coords Coords.standard_slots_coords
       Coords.models_coords Coords.heroes_coords
       Coords.selected_abilities_coords option_map].
  rewrite ?length_map, ?length_app.
  cbn [length map app] in *. rewrite ?length_map, ?length_app.
  repeat split; f_equal; lia.
Qed.

Lemma mirror_elements_to_right_exact (left_elements : list Coord.t) (sw : Z)
  (ty : string) (hd : bool) (ew eh : Z) :
  Forall (fun elem => exists w, region_width hd ew elem = Some w
                                /\ mirror_exact_range sw (Coord.x elem) w)
         left_elements ->
  mirror_elements_to_right left_elements sw ty hd ew eh
  = Ok (map (mirrored_exactly sw ty hd ew) left_elements).
Proof.
  intros Hrange. rewrite mirror_elements_to_right_mapM.
  induction Hrange as [ | elem xs (w & Hw & Hr) _ IH ]; cbn [mapM map].
  - reflexivity.
  - rewrite (mirror_element_exact sw ty hd ew eh w elem Hw Hr), IH.
    unfold mirrored_exactly. rewrite Hw. reflexivity.
Qed.

Lemma mirror_exact_range_moderate (sw x w : Z) :
  Z.abs sw <= 2 ^ 40 -> Z.abs x <= 2 ^ 43 -> Z.abs w <= 2 ^ 43 ->
  mirror_exact_range sw x w.
Proof.
  unfold mirror_exact_range, PyFloat.small.
  change (2 ^ 53) with 9007199254740992.
  change (2 ^ 40) with 1099511627776. change (2 ^ 43) with 8796093022208.
  lia.
Qed.

Lemma wide_moderate (a : Z) : moderate a -> wide a.
Proof.
  unfold moderate, wide. change (2 ^ 40) with 1099511627776.
  change (2 ^ 43) with 8796093022208. lia.
Qed.

Lemma wide_sub (a b : Z) : moderate a -> moderate b -> wide (b - a).
Proof.
  unfold moderate, wide. change (2 ^ 40) with 1099511627776.
  change (2 ^ 43) with 8796093022208. lia.
Qed.

Lemma wide_step (a b k : Z) :
  0 <= k <= 3 -> moderate a -> moderate b -> wide (a + k * (b - a)).
Proof.
  unfold moderate, wide. change (2 ^ 40) with 1099511627776.
  change (2 ^ 43) with 8796093022208. nia.
Qed.

Lemma mirror_exact_range_wide (sw x w : Z) :
  moderate sw -> wide x -> wide w -> mirror_exact_range sw x w.
Proof. intros. apply mirror_exact_range_moderate; assumption. Qed.

Ltac wide_tac :=
  first [ apply wide_moderate; assumption
        | apply wide_sub; assumption
        | apply wide_step; [ lia | assumption | assumption ] ].

Ltac mirror_exactly :=
  rewrite mirror_elements_to_right_exact;
  [ cbn -[mirror_elements_to_right Z.mul Z.add Z.sub]
  | repeat constructor;
    (eexists; split; [ reflexivity | ];
     apply mirror_exact_range_wide; [ assumption | | ];
     cbn [Coord.x fst snd]; wide_tac) ].

(** For 68 points and a screen width of magnitude at most [2^40] the
    calculation returns a document. *)
Lemma calculate_coordinates_from_clicks_returns (points : list (Z * Z))
  (screen_width : Z) :
  length points = 68%nat ->
  Forall moderate_point points -> moderate screen_width ->
  exists coords, calculate_coordinates_from_clicks points screen_width = Ok coords.
Proof.
  intros Hlen Hpts Hsw.
  list_of_length points Hlen.
  repeat match goal with
         | H : Forall moderate_point (_ :: _) |- _ =>
             let Hp := fresh "Hp" in
             let Hrest := fresh "Hrest" in
             pose proof (Forall_inv H) as Hp;
             pose proof (Forall_inv_tail H) as Hrest;
             clear H; destruct Hp
         end.
  unfold calculate_coordinates_from_clicks.
  cbn -[mirror_elements_to_right Z.mul Z.add Z.sub].
  do 5 mirror_exactly.
  eexists. reflexivity.
Qed.

Lemma bounds_errors_have_region (coords : Coords.t) (W H : Z) (e : verror) :
  In e (dims_errors coords W H ++ params_errors coords W H) ->
  exists category i, error_region e = Some (category, i).
Proof.
  intros Hin. apply In_bounds_errors in Hin
    as (category & i & regions & item & w & h & _ & _ & _ & Hin).
  exists category, i. eapply region_errors_region. exact Hin.
Qed.

Lemma In_count_errors (coords : Coords.t) (e : verror) :
  In e (errors_of_counts coords)
  <-> exists category n,
        In (category, ExpInt n) expected_counts
        /\ match Coords.items coords category with
           | None => e = MissingCategory category
           | Some regions =>
               e = CountMismatch category n (length regions)
               /\ Z.of_nat (length regions) <> n
           end.
Proof.
  unfold errors_of_counts. rewrite in_flat_map. split.
  - intros ([category expected] & Hexp & Hin).
    destruct (expected_counts_are_integers _ Hexp) as (c & n & [= -> ->]).
    exists c, n. split; [ exact Hexp | ].
    unfold count_errors in Hin.
    destruct (Coords.items coords c) as [ regions | ].
    + destruct (Z.eqb_spec (Z.of_nat (length regions)) n) as [ Heq | Hne ];
        cbn [negb] in Hin; [ destruct Hin | ].
      destruct Hin as [ <- | [] ]. split; [ reflexivity | exact Hne ].
    + destruct Hin as [ <- | [] ]. reflexivity.
  - intros (category & n & Hexp & Hm). exists (category, ExpInt n).
    split; [ exact Hexp | ]. unfold count_errors.
    destruct (Coords.items coords category) as [ regions | ].
    + destruct Hm as [-> Hne].
      destruct (Z.eqb_spec (Z.of_nat (length regions)) n) as [ Heq | _ ];
        [ contradiction | ]. left. reflexivity.
    + subst e. left. reflexivity.
Qed.

Lemma In_errors_split (coords : Coords.t) (W H : Z) (e : verror) :
  In e (errors (validate_coordinates coords W H))
  <-> In e (dims_errors coords W H ++ params_errors coords W H)
      \/ In e (errors_of_counts coords).
Proof.
  rewrite validate_coordinates_errors, app_assoc, in_app_iff. reflexivity.
Qed.

Lemma count_check_silent_iff (coords : Coords.t) (W H : Z) :
  (forall e, In e (errors (validate_coordinates coords W H)) ->
             is_count_error e = false)
  <-> errors_of_counts coords = [].
Proof.
  split.
  - intros Hall. destruct (errors_of_counts coords) as [ | e0 l ] eqn:Hl;
      [ reflexivity | exfalso ].
    assert (Hin : In e0 (errors_of_counts coords)) by (rewrite Hl; left; reflexivity).
    pose proof (Hall e0 (proj2 (In_errors_split coords W H e0) (or_intror Hin)))
      as Hfalse.
    apply In_count_errors in Hin as (category & n & _ & Hm).
    destruct (Coords.items coords category) as [ regions | ].
    + destruct Hm as [-> _]. discriminate Hfalse.
    + subst e0. discriminate Hfalse.
  - intros Hnil e Hin. apply In_errors_split in Hin as [ Hb | Hc ].
    + apply bounds_errors_have_region in Hb as (c & i & Hr).
      destruct e; [ reflexivity | reflexivity | reflexivity
                  | discriminate Hr | discriminate Hr ].
    + rewrite Hnil in Hc. destruct Hc.
Qed.

Lemma count_errors_nil_iff (coords : Coords.t) (category : string) (n : nat) :
  count_errors coords (category, ExpInt (Z.of_nat n)) = []
  <-> option_map (@length Item.t) (Coords.items coords category) = Some n.
Proof.
  unfold count_errors.
  destruct (Coords.items coords category) as [ regions | ]; cbn [option_map].
  - destruct (Z.eqb_spec (Z.of_nat (length regions)) (Z.of_nat n)) as [ Heq | Hne ];
      cbn [negb]; split; intros H.
    + f_equal. lia.
    + reflexivity.
    + discriminate H.
    + injection H as H. subst n. contradiction.
  - split; intros H; discriminate H.
Qed.

Lemma app_eq_nil_both {A : Type} (l l' : list A) : l ++ l' = [] <-> l = [] /\ l' = [].
Proof.
  split; [ apply app_eq_nil | intros [-> ->]; reflexivity ].
Qed.

Lemma errors_of_counts_nil_iff (coords : Coords.t) :
  errors_of_counts coords = [] <-> region_totals coords.
Proof.
  unfold errors_of_counts, expected_counts, region_totals. cbn [flat_map].
  rewrite !app_eq_nil_both.
  rewrite (count_errors_nil_iff coords "ultimate_slots_coords" 12),
    (count_errors_nil_iff coords "standard_slots_coords" 36),
    (count_errors_nil_iff coords "models_coords" 12),
    (count_errors_nil_iff coords "heroes_coords" 10),
    (count_errors_nil_iff coords "selected_abilities_coords" 40).
  cbn [Coords.items String.eqb Ascii.eqb Bool.eqb]. tauto.
Qed.

(** C5.  For every input of exactly 68 points and any screen width, the
    document the calculation returns holds exactly 12 capstone-slot, 36
    standard-slot, 12 model-thumbnail, 10 participant-box and 40
    selected-slot regions, and these are the integers of [expected_counts].
    The count check of [validate_coordinates] uses exactly these totals: on
    any document whatever, its report is free of "Missing category" and
    "Expected n, got a" entries exactly when the document holds 12, 36, 12,
    10 and 40 regions; so the report on a returned document has no such
    entry, for any screen size.  The calculation does return a document
    whenever the points and the screen width are at most [2^40] in
    magnitude. *)
Theorem region_counts (points : list (Z * Z)) (screen_width : Z) :
  length points = 68%nat ->
  (forall coords,
     calculate_coordinates_from_clicks points screen_width = Ok coords ->
     option_map (@length Item.t) (Coords.ultimate_slots_coords coords) = Some 12%nat
     /\ option_map (@length Item.t) (Coords.standard_slots_coords coords)
        = Some 36%nat
     /\ option_map (@length Item.t) (Coords.models_coords coords) = Some 12%nat
     /\ option_map (@length Item.t) (Coords.heroes_coords coords) = Some 10%nat
     /\ option_map (@length Item.t) (Coords.selected_abilities_coords coords)
        = Some 40%nat
     /\ (forall category expected,
           In (category, expected) expected_counts ->
           exists regions,
             Coords.items coords category = Some regions
             /\ expected = ExpInt (Z.of_nat (length regions)))
     /\ (forall W H e,
           In e (errors (validate_coordinates coords W H)) ->
           is_count_error e = false))
  /\ (forall (document : Coords.t) (W H : Z),
        (forall e, In e (errors (validate_coordinates document W H)) ->
                   is_count_error e = false)
        <-> region_totals document)
  /\ (Forall moderate_point points -> moderate screen_width ->
      exists coords,
        calculate_coordinates_from_clicks points screen_width = Ok coords).
Proof.
  intros Hlen. split; [ | split ].
  - intros coords Hc.
    pose proof (calculated_lengths points screen_width coords Hlen Hc) as Htot.
    destruct Htot as (Hu & Hs & Hm & Hh & Hsel).
    repeat (split; [ assumption | ]).
    split.
    + destruct (Coords.ultimate_slots_coords coords) as [ lu | ] eqn:Eu;
        [ | discriminate Hu ].
      destruct (Coords.standard_slots_coords coords) as [ ls | ] eqn:Es;
        [ | discriminate Hs ].
      destruct (Coords.models_coords coords) as [ lm | ] eqn:Em;
        [ | discriminate Hm ].
      destruct (Coords.heroes_coords coords) as [ lh | ] eqn:Eh;
        [ | discriminate Hh ].
      destruct (Coords.selected_abilities_coords coords) as [ lsel | ] eqn:Esel;
        [ | discriminate Hsel ].
      injection Hu as Hu. injection Hs as Hs. injection Hm as Hm.
      injection Hh as Hh. injection Hsel as Hsel.
      intros category expected Hin. unfold expected_counts in Hin. cbn [In] in Hin.
      destruct Hin as [ H | [ H | [ H | [ H | [ H | [] ] ] ] ] ];
        injection H as <- <-; cbn [Coords.items String.eqb Ascii.eqb Bool.eqb];
        eexists; (split; [ eassumption | ]); f_equal; lia.
    + intros W H. apply count_check_silent_iff. apply errors_of_counts_nil_iff.
      repeat split; assumption.
  - intros document W H. rewrite count_check_silent_iff.
    apply errors_of_counts_nil_iff.
  - apply calculate_coordinates_from_clicks_returns. exact Hlen.
Qed.

Lemma region_counts_witness :
  length sample_points = 68%nat
  /\ (forall coords,
        calculate_coordinates_from_clicks sample_points 1920 = Ok coords ->
        option_map (@length Item.t) (Coords.ultimate_slots_coords coords)
        = Some 12%nat
        /\ option_map (@length Item.t) (Coords.standard_slots_coords coords)
           = Some 36%nat
        /\ option_map (@length Item.t) (Coords.models_coords coords) = Some 12%nat
        /\ option_map (@length Item.t) (Coords.heroes_coords coords) = Some 10%nat
        /\ option_map (@length Item.t) (Coords.selected_abilities_coords coords)
           = Some 40%nat
        /\ (forall category expected,
              In (category, expected) expected_counts ->
              exists regions,
                Coords.items coords category = Some regions
                /\ expected = ExpInt (Z.of_nat (length regions)))
        /\ (forall W H e,
              In e (errors (validate_coordinates coords W H)) ->
              is_count_error e = false))
  /\ exists coords,
       calculate_coordinates_from_clicks sample_points 1920 = Ok coords
       /\ validate_coordinates coords 1920 1080 = mkValidation true [] [].
Proof.
  assert (Hlen : length sample_points = 68%nat) by reflexivity.
  split; [ exact Hlen | ]. split.
  - exact (proj1 (region_counts sample_points 1920 Hlen)).
  - destruct (calculate_coordinates_from_clicks sample_points 1920)
      as [ coords | e ] eqn:Hc; vm_compute in Hc; [ | discriminate Hc ].
    injection Hc as <-. eexists. split; [ reflexivity | ]. vm_compute. reflexivity.
Defined.

(** * Further properties of the code *)

(** ** Mirroring: round trip, screen bounds, identities, missing widths *)

(** X1.  Mirroring is its own inverse where its arithmetic is exact
    ([x + w] below [2^53] as well): mirroring the mirrored position with the
    same width gives back the original [x], with [y] unchanged throughout. *)
Theorem mirror_coordinate_involutive (x y w : Z) (h h' : option Z) (sw : Z) :
  mirror_exact_range sw x w -> PyFloat.small (x + w) ->
  exists mx,
    mirror_coordinate x y (Some w) h sw = Ok (mx, y)
    /\ mirror_coordinate mx y (Some w) h' sw = Ok (x, y).
Proof.
  intros (Hsw & Hx & Hsx & Hw & Hsxw) Hxw. exists (sw - x - w). split.
  - apply mirror_coordinate_exact; assumption.
  - replace x with (sw - (sw - x - w) - w) at 2 by lia.
    apply mirror_coordinate_exact; try assumption.
    + replace (sw - (sw - x - w)) with (x + w) by lia. assumption.
    + replace (sw - (sw - x - w) - w) with x by lia. assumption.
Qed.

Lemma mirror_coordinate_involutive_witness :
  mirror_exact_range 1921 50 100
  /\ PyFloat.small (50 + 100)
  /\ exists mx,
       mirror_coordinate 50 120 (Some 100) None 1921 = Ok (mx, 120)
       /\ mirror_coordinate mx 120 (Some 100) None 1921 = Ok (50, 120).
Proof.
  assert (H : mirror_exact_range 1921 50 100)
    by (unfold mirror_exact_range, PyFloat.small; cbn; lia).
  assert (H' : PyFloat.small (50 + 100)) by (unfold PyFloat.small; cbn; lia).
  split; [ exact H | ]. split; [ exact H' | ].
  exact (mirror_coordinate_involutive 50 120 100 None None 1921 H H').
Defined.

Lemma Forall2_map_r {A B : Type} (P : A -> B -> Prop) (f : A -> B) (xs : list A) :
  Forall (fun a => P a (f a)) xs -> Forall2 P xs (map f xs).
Proof. induction 1; cbn; constructor; assumption. Qed.

(** X2.  Mirroring exchanges the two vertical screen edges: where its
    arithmetic is exact, the mirrored region starts at or after the left edge
    exactly when the original ends at or before the right edge, and ends at or
    before the right edge exactly when the original starts at or after the
    left edge. *)
Theorem mirror_swaps_screen_edges (left_elements : list Coord.t) (sw : Z)
  (ty : string) (hd : bool) (ew eh : Z) :
  Forall (fun elem => exists w, region_width hd ew elem = Some w
                                /\ mirror_exact_range sw (Coord.x elem) w)
         left_elements ->
  exists right_elements,
    mirror_elements_to_right left_elements sw ty hd ew eh = Ok right_elements
    /\ Forall2 (fun elem r =>
         exists w, region_width hd ew elem = Some w
                   /\ (0 <= Coord.x r <-> Coord.x elem + w <= sw)
                   /\ (Coord.x r + w <= sw <-> 0 <= Coord.x elem))
         left_elements right_elements.
Proof.
  intros Hrange. rewrite (mirror_elements_to_right_exact _ _ _ _ _ _ Hrange).
  eexists. split; [ reflexivity | ].
  apply Forall2_map_r. revert Hrange. apply Forall_impl.
  intros elem (w & Hw & _). exists w. split; [ exact Hw | ].
  unfold mirrored_exactly. rewrite Hw. cbn [Coord.x]. lia.
Qed.

Lemma mirror_swaps_screen_edges_witness :
  let left_elements := [ Coord.mk 0 120 None None (Some 0) None None ] in
  Forall (fun elem => exists w, region_width false 100 elem = Some w
                                /\ mirror_exact_range 1920 (Coord.x elem) w)
         left_elements
  /\ exists right_elements,
       mirror_elements_to_right left_elements 1920 "heroes" false 100 60
       = Ok right_elements
       /\ Forall2 (fun elem r =>
            exists w, region_width false 100 elem = Some w
                      /\ (0 <= Coord.x r <-> Coord.x elem + w <= 1920)
                      /\ (Coord.x r + w <= 1920 <-> 0 <= Coord.x elem))
            left_elements right_elements.
Proof.
  intros left_elements.
  assert (H : Forall (fun elem => exists w, region_width false 100 elem = Some w
                        /\ mirror_exact_range 1920 (Coord.x elem) w) left_elements).
  { repeat constructor. exists 100. split; [ reflexivity | ].
    unfold mirror_exact_range, PyFloat.small. cbn. lia. }
  split; [ exact H | ].
  exact (mirror_swaps_screen_edges left_elements 1920 "heroes" false 100 60 H).
Defined.

Lemma mirror_coordinate_y (x y : Z) (w h : option Z) (sw mx my : Z) :
  mirror_coordinate x y w h sw = Ok (mx, my) -> my = y.
Proof.
  unfold mirror_coordinate. intros H.
  apply bind_Ok_inv in H as (sc & _ & H).
  apply bind_Ok_inv in H as (d1 & _ & H).
  apply bind_Ok_inv in H as (d2 & _ & H).
  apply bind_Ok_inv in H as (m & _ & H).
  injection H as _ <-. reflexivity.
Qed.

Lemma mirror_element_y (sw : Z) (ty : string) (hd : bool) (ew eh : Z)
  (elem r : Coord.t) :
  mirror_element sw ty hd ew eh elem = Ok r -> Coord.y r = Coord.y elem.
Proof.
  unfold mirror_element. intros H.
  apply bind_Ok_inv in H as ([mx my] & Hm & [= <-]).
  apply mirror_coordinate_y in Hm. exact Hm.
Qed.

(** X3.  Whatever the element type, the screen width and the sizes, every
    list [mirror_elements_to_right] returns has one region per input region,
    in the same order, each with the [y] of its source; it carries the
    source's width and height when [has_dimensions] is set and no width or
    height otherwise. *)
Theorem mirror_keeps_shape (left_elements right_elements : list Coord.t) (sw : Z)
  (ty : string) (hd : bool) (ew eh : Z) :
  mirror_elements_to_right left_elements sw ty hd ew eh = Ok right_elements ->
  length right_elements = length left_elements
  /\ Forall2 (fun elem r =>
       Coord.y r = Coord.y elem
       /\ Coord.width r = (if hd then Coord.width elem else None)
       /\ Coord.height r = (if hd then Coord.height elem else None))
     left_elements right_elements.
Proof.
  intros H. split; [ eapply mirror_elements_to_right_length; exact H | ].
  rewrite mirror_elements_to_right_mapM in H. apply mapM_Forall2 in H.
  revert H. apply Forall2_impl. intros elem r Hr. split.
  - eapply mirror_element_y. exact Hr.
  - apply mirror_element_fields in Hr as (_ & _ & _ & Hw & Hh). auto.
Qed.

Lemma mirror_keeps_shape_witness :
  let left_elements := [ Coord.mk 50 120 None None (Some 0) None None ] in
  let right_elements := [ Coord.mk 1770 120 None None (Some 5) None None ] in
  mirror_elements_to_right left_elements 1920 "heroes" false 100 60
  = Ok right_elements
  /\ length right_elements = length left_elements
  /\ Forall2 (fun elem r =>
       Coord.y r = Coord.y elem
       /\ Coord.width r = (if false then Coord.width elem else None)
       /\ Coord.height r = (if false then Coord.height elem else None))
     left_elements right_elements.
Proof.
  intros left_elements right_elements.
  assert (H : mirror_elements_to_right left_elements 1920 "heroes" false 100 60
              = Ok right_elements) by (vm_compute; reflexivity).
  split; [ exact H | ].
  exact (mirror_keeps_shape left_elements right_elements 1920 "heroes" false 100 60 H).
Defined.

(** X4.  For an element type other than [heroes], [models] and
    [selected_abilities] (so for [ultimates], [standards] and any unknown
    type) mirroring keeps every identity as it is, except that 10 still
    becomes 11; a region without identity stays without, for every type. *)
Theorem mirror_keeps_identity_of_other_types (left_elements right_elements : list Coord.t)
  (sw : Z) (ty : string) (hd : bool) (ew eh : Z) :
  mirror_elements_to_right left_elements sw ty hd ew eh = Ok right_elements ->
  Forall2 (fun elem r =>
     (Coord.hero_order elem = None -> Coord.hero_order r = None)
     /\ (str_in ty ["heroes"; "models"; "selected_abilities"] = false ->
         forall i, Coord.hero_order elem = Some i ->
                   Coord.hero_order r = Some (if i =? 10 then 11 else i)))
    left_elements right_elements.
Proof.
  intros H. rewrite mirror_elements_to_right_mapM in H. apply mapM_Forall2 in H.
  revert H. apply Forall2_impl. intros elem r Hr.
  apply mirror_element_fields in Hr as (Hho & _). rewrite Hho. split.
  - intros ->. reflexivity.
  - intros Hty i ->. unfold mirrored_hero_order. rewrite Hty.
    destruct (i =? 10); reflexivity.
Qed.

Lemma mirror_keeps_identity_of_other_types_witness :
  let left_elements :=
    [ Coord.mk 700 150 (Some 60) (Some 60) (Some 4) None None;
      Coord.mk 770 150 (Some 60) (Some 60) (Some 10) None None ] in
  let right_elements :=
    [ Coord.mk 1160 150 (Some 60) (Some 60) (Some 4) None None;
      Coord.mk 1090 150 (Some 60) (Some 60) (Some 11) None None ] in
  mirror_elements_to_right left_elements 1920 "ultimates" true 0 0
  = Ok right_elements
  /\ Forall2 (fun elem r =>
       (Coord.hero_order elem = None -> Coord.hero_order r = None)
       /\ (str_in "ultimates" ["heroes"; "models"; "selected_abilities"] = false ->
           forall i, Coord.hero_order elem = Some i ->
                     Coord.hero_order r = Some (if i =? 10 then 11 else i)))
      left_elements right_elements.
Proof.
  intros left_elements right_elements.
  assert (H : mirror_elements_to_right left_elements 1920 "ultimates" true 0 0
              = Ok right_elements) by (vm_compute; reflexivity).
  split; [ exact H | ].
  exact (mirror_keeps_identity_of_other_types left_elements right_elements
           1920 "ultimates" true 0 0 H).
Defined.
Lemma mirror_element_missing_width (sw : Z) (ty : string) (ew eh : Z) (elem : Coord.t) :
  Coord.width elem = None ->
  PyFloat.small sw -> PyFloat.small (Coord.x elem) ->
  PyFloat.small (sw - Coord.x elem) ->
  mirror_element sw ty true ew eh elem = Raise TypeError.
Proof.
  intros Hw Hsw Hx Hsx. unfold mirror_element, region_width, mirror_coordinate.
  rewrite Hw.
  rewrite PyFloatFacts.int_truediv_2_exact by assumption. cbn [bind].
  rewrite PyFloatFacts.mul_two_exact by assumption.
  rewrite PyFloatFacts.sub_int_exact by assumption. reflexivity.
Qed.

(** X5.  With [has_dimensions] set, a region that has no width makes the
    whole mirroring raise [TypeError] (the subtraction of [None] from a
    float): no list is returned, not even for the regions before it.  This
    holds where the arithmetic is exact, so that nothing else can raise
    first: the screen width [sw], every [x] and every [sw - x] are below
    [2^53] in magnitude, and so are the width [w] and [sw - x - w] of every
    region that has a width. *)
Theorem mirror_missing_width_raises_TypeError (left_elements : list Coord.t)
  (sw : Z) (ty : string) (ew eh : Z) :
  PyFloat.small sw ->
  Forall (fun elem =>
            PyFloat.small (Coord.x elem) /\ PyFloat.small (sw - Coord.x elem)
            /\ forall w, Coord.width elem = Some w ->
                         PyFloat.small w /\ PyFloat.small (sw - Coord.x elem - w))
         left_elements ->
  Exists (fun elem => Coord.width elem = None) left_elements ->
  mirror_elements_to_right left_elements sw ty true ew eh = Raise TypeError.
Proof.
  intros Hsw Hall Hex. rewrite mirror_elements_to_right_mapM.
  induction Hall as [ | elem xs (Hx & Hsx & Hw) Hall IH ].
  - inversion Hex.
  - cbn [mapM]. destruct (Coord.width elem) as [ w | ] eqn:Ew.
    + destruct (Hw w eq_refl) as [Hww Hsxw].
      rewrite (mirror_element_exact sw ty true ew eh w elem Ew)
        by (repeat split; assumption).
      cbn [bind]. rewrite IH; [ reflexivity | ].
      inversion Hex as [ ? ? Hnone | ? ? Hrest ]; subst;
        [ congruence | exact Hrest ].
    + rewrite mirror_element_missing_width by assumption. reflexivity.
Qed.

Lemma mirror_missing_width_raises_TypeError_witness :
  let left_elements :=
    [ Coord.mk 700 150 (Some 60) (Some 60) (Some 0) None None;
      Coord.mk 770 150 None (Some 60) (Some 1) None None ] in
  mirror_elements_to_right left_elements 1920 "ultimates" true 0 0
  = Raise TypeError.
Proof.
  intros left_elements.
  apply (mirror_missing_width_raises_TypeError left_elements 1920 "ultimates" 0 0).
  - unfold PyFloat.small. cbn. lia.
  - apply Forall_cons; [ | apply Forall_cons; [ | apply Forall_nil ] ];
      (split; [ | split ]); unfold PyFloat.small; cbn; try lia;
      intros w Hw; inversion Hw; subst; cbn; lia.
  - right. left. reflexivity.
Defined.

(** ** Validation: what each entry of the report means *)

(** X6.  The report has a "Missing category" entry for a name exactly when
    the name is one of the five counted categories and the dictionary has no
    such key. *)
Theorem missing_category_iff (coords : Coords.t) (W H : Z) (category : string) :
  In (MissingCategory category) (errors (validate_coordinates coords W H))
  <-> In category (map fst expected_counts)
      /\ Coords.items coords category = None.
Proof.
  rewrite In_errors_split. split.
  - intros [ Hb | Hc ].
    + apply bounds_errors_have_region in Hb as (c & i & Hr). discriminate Hr.
    + apply In_count_errors in Hc as (c & n & Hexp & Hm).
      destruct (Coords.items coords c) as [ regions | ] eqn:Hi.
      * destruct Hm as [Hm _]. discriminate Hm.
      * injection Hm as ->. split; [ | exact Hi ].
        apply (in_map fst) in Hexp. exact Hexp.
  - intros [Hin Hnone]. right. apply In_count_errors.
    apply in_map_iff in Hin as ([c expected] & Hc & Hexp). cbn in Hc. subst c.
    destruct (expected_counts_are_integers _ Hexp) as (c & n & [= -> ->]).
    exists c, n. split; [ exact Hexp | ]. rewrite Hnone. reflexivity.
Qed.

(** X7.  The report has a count entry "Expected n, got a" for a category
    exactly when [n] is the expected count of that category, the dictionary
    holds [a] regions under its key and [a] differs from [n]. *)
Theorem count_mismatch_iff (coords : Coords.t) (W H : Z) (category : string)
  (n : Z) (a : nat) :
  In (CountMismatch category n a) (errors (validate_coordinates coords W H))
  <-> In (category, ExpInt n) expected_counts
      /\ exists regions,
           Coords.items coords category = Some regions
           /\ length regions = a /\ Z.of_nat a <> n.
Proof.
  rewrite In_errors_split. split.
  - intros [ Hb | Hc ].
    + apply bounds_errors_have_region in Hb as (c & i & Hr). discriminate Hr.
    + apply In_count_errors in Hc as (c & m & Hexp & Hm).
      destruct (Coords.items coords c) as [ regions | ] eqn:Hi.
      * destruct Hm as [Hm Hne]. injection Hm as -> -> ->.
        split; [ exact Hexp | ]. exists regions. auto.
      * discriminate Hm.
  - intros (Hexp & regions & Hi & <- & Hne). right. apply In_count_errors.
    exists category, n. split; [ exact Hexp | ]. rewrite Hi. auto.
Qed.

(** X8.  The report has a "Negative coordinates" entry for a region exactly
    when the region is bounds-checked and its [x] or its [y] is negative; the
    entry shows the position in the three categories with per-region sizes
    and not in the two others. *)
Theorem negative_coordinates_iff (coords : Coords.t) (W H : Z) (category : string)
  (i : nat) (xy : option (Z * Z)) :
  In (NegativeCoordinates category i xy) (errors (validate_coordinates coords W H))
  <-> exists regions item w h,
        Coords.items coords category = Some regions
        /\ nth_error regions i = Some item
        /\ checked_size coords category item = Some (w, h)
        /\ xy = (if str_in category dims_category_names
                 then Some (Item.x item, Item.y item) else None)
        /\ (Item.x item < 0 \/ Item.y item < 0).
Proof.
  split.
  - intros Hin.
    destruct (proj1 (region_error_iff coords W H _ category i) (conj Hin eq_refl))
      as (regions & item & w & h & Hi & Hn & Hs & He).
    exists regions, item, w, h. repeat split; try assumption;
      apply In_region_errors in He;
      destruct He as [ [He Hc] | [ [He _] | [He _] ] ]; try discriminate He.
    + injection He as ->. reflexivity.
    + exact Hc.
  - intros (regions & item & w & h & Hi & Hn & Hs & -> & Hc).
    apply (region_error_iff coords W H _ category i).
    exists regions, item, w, h. repeat split; try assumption.
    apply In_region_errors. left. split; [ reflexivity | exact Hc ].
Qed.

(** X10.  When the shared parameters of a category are absent from the
    dictionary, the regions of that category are not bounds-checked at all:
    the report has no entry about any of them, wherever they lie. *)
Theorem absent_params_skip_bounds_check (coords : Coords.t) (W H : Z) :
  (Coords.heroes_params coords = None ->
   forall e i, In e (errors (validate_coordinates coords W H)) ->
               error_region e <> Some ("heroes_coords", i))
  /\ (Coords.selected_abilities_params coords = None ->
      forall e i, In e (errors (validate_coordinates coords W H)) ->
                  error_region e <> Some ("selected_abilities_coords", i)).
Proof.
  split; intros Hnone e i Hin Hr;
    destruct (region_error_cause coords W H e _ i Hin Hr)
      as (regions & item & w & h & _ & _ & Hs & _);
    unfold checked_size in Hs; cbn in Hs; rewrite Hnone in Hs; discriminate Hs.
Qed.

Lemma validate_coordinates_consistent (coords : Coords.t) (W H : Z) :
  report_consistent (validate_coordinates coords W H).
Proof.
  unfold validate_coordinates.
  apply fold_left_invariant;
    [ apply fold_left_invariant; [ apply fold_left_invariant | ] | ].
  - split; [ reflexivity | split; reflexivity ].
  - intros v [[category wk] hk] _ Hv.
    destruct (Coords.items coords category) as [ regions | ]; [ | exact Hv ].
    apply fold_left_invariant; [ exact Hv | ].
    intros v' entry _. apply report_consistent_check_item_with_dims.
  - intros v [category pk] _ Hv.
    destruct (Coords.items coords category) as [ regions | ]; [ | exact Hv ].
    destruct (Coords.params coords pk) as [ params | ]; [ | exact Hv ].
    apply fold_left_invariant; [ exact Hv | ].
    intros v' entry _. apply report_consistent_check_item_with_params.
  - intros v entry Hin Hv.
    destruct (expected_counts_are_integers entry Hin) as (category & n & ->).
    apply report_consistent_check_count. exact Hv.
Qed.

Lemma no_errors_iff {A : Type} (l : list A) : l = [] <-> forall a, ~ In a l.
Proof.
  split.
  - intros -> a [].
  - intros H. destruct l as [ | a l ]; [ reflexivity | ].
    exfalso. apply (H a). left. reflexivity.
Qed.

(** The two conditions under which validation passes. *)
Lemma passed_iff (coords : Coords.t) (W H : Z) :
  passed (validate_coordinates coords W H) = true
  <-> counts_as_expected coords /\ regions_inside coords W H.
Proof.
  destruct (validate_coordinates_consistent coords W H) as [_ Hp].
  rewrite Hp, no_errors_iff. split.
  - intros Hno. split.
    + intros category n Hexp.
      destruct (Coords.items coords category) as [ regions | ] eqn:Hi.
      * exists regions. split; [ reflexivity | ].
        destruct (Z.eq_dec (Z.of_nat (length regions)) n) as [ Heq | Hne ];
          [ exact Heq | ].
        exfalso. apply (Hno (CountMismatch category n (length regions))).
        apply In_errors_split. right. apply In_count_errors.
        exists category, n. split; [ exact Hexp | ]. rewrite Hi. auto.
      * exfalso. apply (Hno (MissingCategory category)).
        apply In_errors_split. right. apply In_count_errors.
        exists category, n. split; [ exact Hexp | ]. rewrite Hi. reflexivity.
    + intros category i regions item w h Hi Hn Hs.
      assert (Hnot : forall e, ~ In e (region_errors category i item w h W H)).
      { intros e He. apply (Hno e).
        apply (region_error_iff coords W H e category i). eauto 8. }
      assert (Hneg : ~ (Item.x item < 0 \/ Item.y item < 0)).
      { intros Hc. eapply Hnot. apply In_region_errors. left.
        split; [ reflexivity | exact Hc ]. }
      assert (Hw : ~ Item.x item + w > W).
      { intros Hc. eapply Hnot. apply In_region_errors. right. left.
        split; [ reflexivity | exact Hc ]. }
      assert (Hh : ~ Item.y item + h > H).
      { intros Hc. eapply Hnot. apply In_region_errors. right. right.
        split; [ reflexivity | exact Hc ]. }
      lia.
  - intros [Hcounts Hinside] e Hin. apply In_errors_split in Hin as [ Hb | Hc ].
    + apply In_bounds_errors in Hb
        as (category & i & regions & item & w & h & Hi & Hn & Hs & He).
      pose proof (Hinside category i regions item w h Hi Hn Hs) as Hb.
      apply In_region_errors in He. intuition lia.
    + apply In_count_errors in Hc as (category & n & Hexp & Hm).
      destruct (Hcounts category n Hexp) as (regions & Hi & Hlen).
      rewrite Hi in Hm. destruct Hm as [_ Hne]. contradiction.
Qed.

(** X9.  Validation passes exactly when each of the five counted categories
    is present with its expected number of regions and every bounds-checked
    region lies inside the screen: [x >= 0], [y >= 0], [x + width] at most the
    screen width and [y + height] at most the screen height. *)
Theorem validation_passes_iff (coords : Coords.t) (W H : Z) :
  passed (validate_coordinates coords W H) = true
  <-> (forall category n,
         In (category, ExpInt n) expected_counts ->
         exists regions,
           Coords.items coords category = Some regions
           /\ Z.of_nat (length regions) = n)
      /\ (forall category i regions item w h,
            Coords.items coords category = Some regions ->
            nth_error regions i = Some item ->
            checked_size coords category item = Some (w, h) ->
            0 <= Item.x item /\ 0 <= Item.y item
            /\ Item.x item + w <= W /\ Item.y item + h <= H).
Proof. exact (passed_iff coords W H). Qed.

(** ** The pipeline: input layout, labels, symmetry *)

(** X11.  Points after the 68th are never read: the calculation on a longer
    input returns (or raises) exactly what it does on its first 68 points. *)
Theorem extra_points_ignored (points extra : list (Z * Z)) (screen_width : Z) :
  length points = 68%nat ->
  calculate_coordinates_from_clicks (points ++ extra) screen_width
  = calculate_coordinates_from_clicks points screen_width.
Proof.
  intros Hlen. list_of_length points Hlen.
  unfold calculate_coordinates_from_clicks.
  cbn -[mirror_elements_to_right Z.mul Z.add Z.sub].
  reflexivity.
Qed.

Lemma extra_points_ignored_witness :
  length sample_points = 68%nat
  /\ calculate_coordinates_from_clicks (sample_points ++ [(1, 2); (3, 4)]) 1920
     = calculate_coordinates_from_clicks sample_points 1920.
Proof.
  assert (H : length sample_points = 68%nat) by reflexivity.
  split; [ exact H | ].
  exact (extra_points_ignored sample_points [(1, 2); (3, 4)] 1920 H).
Defined.

Lemma mirror_elements_to_right_maps (left_elements right_elements : list Coord.t)
  (sw : Z) (ty : string) (hd : bool) (ew eh : Z) :
  mirror_elements_to_right left_elements sw ty hd ew eh = Ok right_elements ->
  map (fun r => labels (to_dict r)) right_elements
  = map (fun e => (mirrored_hero_order ty (Coord.hero_order e),
                   Coord.ability_order e, Coord.is_ultimate e)) left_elements
  /\ map (fun r => row_and_size (to_dict r)) right_elements
     = map (fun e => (Coord.y e, (if hd then Coord.width e else None),
                      (if hd then Coord.height e else None))) left_elements.
Proof.
  intros H. rewrite mirror_elements_to_right_mapM in H. apply mapM_Forall2 in H.
  induction H as [ | elem r xs rs Hr _ [IH1 IH2] ]; [ split; reflexivity | ].
  pose proof (mirror_element_y _ _ _ _ _ _ _ Hr) as Hy.
  apply mirror_element_fields in Hr as (Hho & Hao & Hu & Hw & Hh).
  cbn [map]. rewrite IH1, IH2. unfold labels, row_and_size. cbn.
  rewrite Hho, Hao, Hu, Hw, Hh, Hy. split; reflexivity.
Qed.

(** Takes the equation [calculate_coordinates_from_clicks points sw = Ok coords]
    on 68 points apart: the mirrored lists are named, the mirrored capstone and
    standard slots are listed element by element, and [coords] is replaced by
    the document built from them. *)
Ltac take_pipeline_apart Hc :=
  unfold calculate_coordinates_from_clicks in Hc;
  cbn -[mirror_elements_to_right Z.mul Z.add Z.sub] in Hc;
  let ru0 := fresh "ru" in
  let Hru := fresh "Hru" in
  let Lru := fresh "Lru" in
  apply bind_Ok_inv in Hc as (ru0 & Hru & Hc);
  pose proof (mirror_elements_to_right_length _ _ _ _ _ _ _ Hru) as Lru;
  cbn [length] in Lru; list_of_length ru0 Lru;
  cbn -[mirror_elements_to_right Z.mul Z.add Z.sub] in Hc;
  let rs0 := fresh "rs" in
  let Hrs := fresh "Hrs" in
  let Lrs := fresh "Lrs" in
  apply bind_Ok_inv in Hc as (rs0 & Hrs & Hc);
  pose proof (mirror_elements_to_right_length _ _ _ _ _ _ _ Hrs) as Lrs;
  cbn [length] in Lrs; list_of_length rs0 Lrs;
  cbn -[mirror_elements_to_right Z.mul Z.add Z.sub] in Hc;
  let rm := fresh "rm" in
  let Hrm := fresh "Hrm" in
  apply bind_Ok_inv in Hc as (rm & Hrm & Hc);
  let rh := fresh "rh" in
  let Hrh := fresh "Hrh" in
  apply bind_Ok_inv in Hc as (rh & Hrh & Hc);
  let rsel := fresh "rsel" in
  let Hrsel := fresh "Hrsel" in
  apply bind_Ok_inv in Hc as (rsel & Hrsel & Hc);
  injection Hc as <-;
  apply mirror_elements_to_right_maps in Hru, Hrs, Hrm, Hrh, Hrsel;
  cbn -[Z.mul Z.add Z.sub] in Hru, Hrs, Hrm, Hrh, Hrsel.

(** X12.  Whatever the 68 points and the screen width, the labels in a
    returned document are fixed.  Capstone slots carry the identities
    0,1,2,3,4,10 then 7,6,5,11,9,8; model thumbnails 0,1,2,3,4,10 then
    5,6,7,8,9,11; participant boxes 0..4 then 5..9; standard slots the
    identities 0,1,2,3,4,10,5,6,7,8,9,11, three slots each with slot orders
    1,2,3; selected slots the identities 0..9, four slots each, the fourth
    flagged terminal.  No other label is present. *)
Theorem document_labels (points : list (Z * Z)) (screen_width : Z) (coords : Coords.t) :
  length points = 68%nat ->
  calculate_coordinates_from_clicks points screen_width = Ok coords ->
  option_map (map labels) (Coords.ultimate_slots_coords coords)
  = Some (map (fun h => (Some h, None, None)) [0; 1; 2; 3; 4; 10; 7; 6; 5; 11; 9; 8])
  /\ option_map (map labels) (Coords.standard_slots_coords coords)
     = Some (flat_map (fun h => map (fun a => (Some h, Some a, None)) [1; 2; 3])
                      [0; 1; 2; 3; 4; 10; 5; 6; 7; 8; 9; 11])
  /\ option_map (map labels) (Coords.models_coords coords)
     = Some (map (fun h => (Some h, None, None))
                 [0; 1; 2; 3; 4; 10; 5; 6; 7; 8; 9; 11])
  /\ option_map (map labels) (Coords.heroes_coords coords)
     = Some (map (fun h => (Some h, None, None)) [0; 1; 2; 3; 4; 5; 6; 7; 8; 9])
  /\ option_map (map labels) (Coords.selected_abilities_coords coords)
     = Some (flat_map (fun h => map (fun u => (Some h, None, Some u))
                                    [false; false; false; true])
                      [0; 1; 2; 3; 4; 5; 6; 7; 8; 9]).
Proof.
  intros Hlen Hc. list_of_length points Hlen.
  take_pipeline_apart Hc.
  destruct Hrm as [Hrm _]. destruct Hrh as [Hrh _]. destruct Hrsel as [Hrsel _].
  destruct Hru as [Hru _]. destruct Hrs as [Hrs _].
  repeat match goal with c : Coord.t |- _ => destruct c end.
  unfold labels in Hru, Hrs. cbn in Hru, Hrs.
  injection Hru; injection Hrs; intros; subst.
  cbn [Coords.ultimate_slots_coords Coords.standard_slots_coords
       Coords.models_coords Coords.heroes_coords
       Coords.selected_abilities_coords option_map map app].
  rewrite ?map_map, Hrm, Hrh, Hrsel.
  repeat split; reflexivity.
Qed.

Lemma document_labels_witness :
  exists coords,
    length sample_points = 68%nat
    /\ calculate_coordinates_from_clicks sample_points 1920 = Ok coords
    /\ option_map (map labels) (Coords.models_coords coords)
       = Some (map (fun h => (Some h, None, None))
                   [0; 1; 2; 3; 4; 10; 5; 6; 7; 8; 9; 11]).
Proof.
  destruct (calculate_coordinates_from_clicks sample_points 1920)
    as [ coords | e ] eqn:Hc; [ | vm_compute in Hc; discriminate Hc ].
  exists coords. split; [ reflexivity | ]. split; [ reflexivity | ].
  exact (proj1 (proj2 (proj2
           (document_labels sample_points 1920 coords eq_refl Hc)))).
Defined.
(** X13.  Which input points make which region.  In a returned document the
    first 6 capstone slots are the bottom-left/top-right conversions of the
    point pairs 1-2, ..., 11-12; the first 18 standard slots the
    top-left/bottom-right conversions of the pairs 13-14, ..., 47-48; the
    first 6 model thumbnails those of the pairs 49-50, ..., 59-60, each with
    its own width and height.  The shared size of the participant boxes is
    that of the rectangle of points 61-62 and the shared size of the selected
    slots that of points 65-66; the first 5 participant boxes and the first
    20 selected slots are the lists generated from the rectangles of points
    61-62, 63-64 and 65-66, 67-68, and carry no width or height. *)
Theorem input_layout (points : list (Z * Z)) (screen_width : Z) (coords : Coords.t) :
  length points = 68%nat ->
  calculate_coordinates_from_clicks points screen_width = Ok coords ->
  let rect k := calculate_from_top_left_bottom_right
                  (point_at points k) (point_at points (k + 1)) in
  let heroes_params := Params.mk (Dims.width (rect 60%nat)) (Dims.height (rect 60%nat)) in
  let selected_params := Params.mk (Dims.width (rect 64%nat)) (Dims.height (rect 64%nat)) in
  let heroes := generate_heroes (rect 60%nat) (rect 62%nat) heroes_params in
  option_map (fun l => map geometry (firstn 6 l)) (Coords.ultimate_slots_coords coords)
  = Some (map (fun k => geometry_of_dims
                          (calculate_from_bottom_left_top_right
                             (point_at points (2 * k)) (point_at points (2 * k + 1))))
              (seq 0 6))
  /\ option_map (fun l => map geometry (firstn 18 l)) (Coords.standard_slots_coords coords)
     = Some (map (fun k => geometry_of_dims (rect (12 + 2 * k)%nat)) (seq 0 18))
  /\ option_map (fun l => map geometry (firstn 6 l)) (Coords.models_coords coords)
     = Some (map (fun k => geometry_of_dims (rect (48 + 2 * k)%nat)) (seq 0 6))
  /\ Coords.heroes_params coords = Some heroes_params
  /\ Coords.selected_abilities_params coords = Some selected_params
  /\ option_map (firstn 5) (Coords.heroes_coords coords) = Some (map to_dict heroes)
  /\ (exists slots,
        generate_selected_abilities (rect 64%nat) (rect 66%nat) heroes selected_params
        = Ok slots
        /\ option_map (firstn 20) (Coords.selected_abilities_coords coords)
           = Some (map to_dict slots))
  /\ Forall (fun c => Coord.width c = None /\ Coord.height c = None) heroes.
Proof.
  intros Hlen Hc. list_of_length points Hlen.
  take_pipeline_apart Hc.
  cbv zeta.
  cbn [Coords.ultimate_slots_coords Coords.standard_slots_coords
       Coords.models_coords Coords.heroes_coords
       Coords.selected_abilities_coords Coords.heroes_params
       Coords.selected_abilities_params option_map].
  repeat split; try reflexivity.
  - eexists. split; reflexivity.
  - repeat constructor.
Qed.

Lemma input_layout_witness :
  exists coords,
    calculate_coordinates_from_clicks sample_points 1920 = Ok coords
    /\ option_map (fun l => map geometry (firstn 6 l)) (Coords.models_coords coords)
       = Some (map (fun k => geometry_of_dims
                               (calculate_from_top_left_bottom_right
                                  (point_at sample_points (48 + 2 * k))
                                  (point_at sample_points (48 + 2 * k + 1))))
                   (seq 0 6)).
Proof.
  destruct (calculate_coordinates_from_clicks sample_points 1920)
    as [ coords | e ] eqn:Hc; [ | vm_compute in Hc; discriminate Hc ].
  exists coords. split; [ reflexivity | ].
  exact (proj1 (proj2 (proj2 (input_layout sample_points 1920 coords eq_refl Hc)))).
Defined.

(** X14.  Mirroring leaves rows and sizes alone: in every category of a
    returned document the second half repeats, region by region, the [y] and
    the width and height fields of the first half (present in the three
    categories with per-region sizes, absent in the two others). *)
Theorem right_half_keeps_rows_and_sizes (points : list (Z * Z)) (screen_width : Z)
  (coords : Coords.t) :
  length points = 68%nat ->
  calculate_coordinates_from_clicks points screen_width = Ok coords ->
  option_map (fun l => map row_and_size (skipn 6 l)) (Coords.ultimate_slots_coords coords)
  = option_map (fun l => map row_and_size (firstn 6 l))
               (Coords.ultimate_slots_coords coords)
  /\ option_map (fun l => map row_and_size (skipn 18 l))
                (Coords.standard_slots_coords coords)
     = option_map (fun l => map row_and_size (firstn 18 l))
                  (Coords.standard_slots_coords coords)
  /\ option_map (fun l => map row_and_size (skipn 6 l)) (Coords.models_coords coords)
     = option_map (fun l => map row_and_size (firstn 6 l)) (Coords.models_coords coords)
  /\ option_map (fun l => map row_and_size (skipn 5 l)) (Coords.heroes_coords coords)
     = option_map (fun l => map row_and_size (firstn 5 l)) (Coords.heroes_coords coords)
  /\ option_map (fun l => map row_and_size (skipn 20 l))
                (Coords.selected_abilities_coords coords)
     = option_map (fun l => map row_and_size (firstn 20 l))
                  (Coords.selected_abilities_coords coords).
Proof.
  intros Hlen Hc. list_of_length points Hlen.
  take_pipeline_apart Hc.
  destruct Hrm as [_ Hrm]. destruct Hrh as [_ Hrh]. destruct Hrsel as [_ Hrsel].
  destruct Hru as [_ Hru]. destruct Hrs as [_ Hrs].
  repeat match goal with c : Coord.t |- _ => destruct c end.
  unfold row_and_size in Hru, Hrs. cbn in Hru, Hrs.
  injection Hru; injection Hrs; intros; subst.
  cbn [Coords.ultimate_slots_coords Coords.standard_slots_coords
       Coords.models_coords Coords.heroes_coords
       Coords.selected_abilities_coords option_map map app skipn firstn].
  rewrite ?map_map, Hrm, Hrh, Hrsel.
  repeat split; reflexivity.
Qed.

Lemma right_half_keeps_rows_and_sizes_witness :
  exists coords,
    calculate_coordinates_from_clicks sample_points 1920 = Ok coords
    /\ option_map (fun l => map row_and_size (skipn 5 l)) (Coords.heroes_coords coords)
       = option_map (fun l => map row_and_size (firstn 5 l))
                    (Coords.heroes_coords coords).
Proof.
  destruct (calculate_coordinates_from_clicks sample_points 1920)
    as [ coords | e ] eqn:Hc; [ | vm_compute in Hc; discriminate Hc ].
  exists coords. split; [ reflexivity | ].
  exact (proj1 (proj2 (proj2 (proj2
           (right_half_keeps_rows_and_sizes sample_points 1920 coords eq_refl Hc))))).
Defined.

(** Turns the equation [calculate_coordinates_from_clicks points sw = Ok coords]
    on 68 moderate points into the document itself, every mirrored position
    written as [sw - x - w]. *)
Ltac evaluate_pipeline Hc :=
  unfold calculate_coordinates_from_clicks in Hc;
  cbn -[mirror_elements_to_right Z.mul Z.add Z.sub] in Hc;
  do 5 (rewrite mirror_elements_to_right_exact in Hc
          by (repeat constructor;
              (eexists; split; [ reflexivity | ];
               apply mirror_exact_range_wide; [ assumption | | ];
               cbn [Coord.x fst snd]; wide_tac));
        cbn -[mirror_elements_to_right Z.mul Z.add Z.sub] in Hc);
  injection Hc as <-;
  repeat match goal with H : moderate _ |- _ => clear H end.

Ltac moderate_points Hpts :=
  repeat match goal with
         | H : Forall moderate_point (_ :: _) |- _ =>
             let Hp := fresh "Hp" in
             let Hrest := fresh "Hrest" in
             pose proof (Forall_inv H) as Hp;
             pose proof (Forall_inv_tail H) as Hrest;
             clear H; destruct Hp
         end.

Ltac category_cases category Hi :=
  unfold Coords.items in Hi;
  repeat match type of Hi with
         | (if String.eqb category ?name then _ else _) = _ =>
             destruct (String.eqb_spec category name) as [ -> | _ ]
         end;
  [ .. | discriminate Hi ].

Lemma document_symmetric_aux (points : list (Z * Z)) (sw : Z) (coords : Coords.t) :
  length points = 68%nat ->
  Forall moderate_point points -> moderate sw ->
  calculate_coordinates_from_clicks points sw = Ok coords ->
  forall category regions i item w h,
    Coords.items coords category = Some regions ->
    nth_error regions (length regions / 2 + i) = Some item ->
    checked_size coords category item = Some (w, h) ->
    exists litem,
      nth_error regions i = Some litem
      /\ (i < length regions / 2)%nat
      /\ checked_size coords category litem = Some (w, h)
      /\ Item.x item = sw - Item.x litem - w
      /\ Item.y item = Item.y litem.
Proof.
  intros Hlen Hpts Hsw Hc. list_of_length points Hlen. moderate_points Hpts.
  evaluate_pipeline Hc.
  intros category regions i item w h Hi Hn Hs.
  category_cases category Hi;
    cbn -[Z.mul Z.add Z.sub] in Hi; injection Hi as <-;
    cbn -[Z.mul Z.add Z.sub nth_error] in Hn;
    repeat (destruct i as [ | i ];
            [ cbn -[Z.mul Z.add Z.sub] in Hn; injection Hn as <-;
              cbn -[Z.mul Z.add Z.sub] in Hs; injection Hs as <- <-;
              eexists; split; [ reflexivity | ];
              split; [ cbn; lia | ];
              split; [ reflexivity | ];
              split; reflexivity
            | ]);
    destruct i; cbn in Hn; discriminate Hn.
Qed.
(** X15.  The document is symmetric.  For 68 points whose coordinates are
    at most [2^40] in magnitude and a screen width [sw] at most [2^40] in
    magnitude, region [n + i] of a category of [2n] regions is the mirror
    image of region [i]: checked with the same width and height, on the same
    row, at [x = sw - x_i - width]. *)
Theorem document_symmetric (points : list (Z * Z)) (sw : Z) (coords : Coords.t) :
  length points = 68%nat ->
  Forall moderate_point points -> moderate sw ->
  calculate_coordinates_from_clicks points sw = Ok coords ->
  forall category regions i item w h,
    Coords.items coords category = Some regions ->
    nth_error regions (length regions / 2 + i) = Some item ->
    checked_size coords category item = Some (w, h) ->
    exists litem,
      nth_error regions i = Some litem
      /\ (i < length regions / 2)%nat
      /\ checked_size coords category litem = Some (w, h)
      /\ Item.x item = sw - Item.x litem - w
      /\ Item.y item = Item.y litem.
Proof. exact (document_symmetric_aux points sw coords). Qed.

Lemma sample_points_moderate : Forall moderate_point sample_points.
Proof.
  unfold sample_points, moderate_point, moderate.
  change (2 ^ 40) with 1099511627776.
  repeat (apply Forall_cons; [ cbn; lia | ]). apply Forall_nil.
Qed.

Lemma moderate_1920 : moderate 1920.
Proof. unfold moderate. cbn. lia. Qed.

Lemma document_symmetric_witness :
  exists coords regions item litem,
    calculate_coordinates_from_clicks sample_points 1920 = Ok coords
    /\ Coords.items coords "heroes_coords" = Some regions
    /\ nth_error regions (length regions / 2 + 0) = Some item
    /\ nth_error regions 0 = Some litem
    /\ Item.x item = 1920 - Item.x litem - 100.
Proof.
  destruct (calculate_coordinates_from_clicks sample_points 1920)
    as [ coords | e ] eqn:Hc; [ | vm_compute in Hc; discriminate Hc ].
  destruct (Coords.items coords "heroes_coords") as [ regions | ] eqn:Hi;
    [ | vm_compute in Hc; injection Hc as <-; discriminate Hi ].
  destruct (nth_error regions (length regions / 2 + 0)) as [ item | ] eqn:Hn;
    [ | vm_compute in Hc; injection Hc as <-; injection Hi as <-; discriminate Hn ].
  assert (Hs : checked_size coords "heroes_coords" item = Some (100, 60))
    by (vm_compute in Hc; injection Hc as <-; reflexivity).
  destruct (document_symmetric sample_points 1920 coords eq_refl
              sample_points_moderate moderate_1920 Hc
              "heroes_coords" regions 0%nat item 100 60 Hi Hn Hs)
    as (litem & Hl & _ & _ & Hx & _).
  exists coords, regions, item, litem. repeat split; assumption.
Defined.

Lemma counts_as_expected_calculated (points : list (Z * Z)) (sw : Z) (coords : Coords.t) :
  length points = 68%nat ->
  calculate_coordinates_from_clicks points sw = Ok coords ->
  counts_as_expected coords.
Proof.
  intros Hlen Hc.
  destruct (calculated_lengths points sw coords Hlen Hc)
    as (Hu & Hs & Hm & Hh & Hsel).
  destruct (Coords.ultimate_slots_coords coords) as [ lu | ] eqn:Eu;
    [ | discriminate Hu ].
  destruct (Coords.standard_slots_coords coords) as [ ls | ] eqn:Es;
    [ | discriminate Hs ].
  destruct (Coords.models_coords coords) as [ lm | ] eqn:Em;
    [ | discriminate Hm ].
  destruct (Coords.heroes_coords coords) as [ lh | ] eqn:Eh;
    [ | discriminate Hh ].
  destruct (Coords.selected_abilities_coords coords) as [ lsel | ] eqn:Esel;
    [ | discriminate Hsel ].
  injection Hu as Hu. injection Hs as Hs. injection Hm as Hm.
  injection Hh as Hh. injection Hsel as Hsel.
  intros category n Hin. unfold expected_counts in Hin. cbn [In] in Hin.
  destruct Hin as [ H | [ H | [ H | [ H | [ H | [] ] ] ] ] ];
    injection H as <- <-; cbn [Coords.items String.eqb Ascii.eqb Bool.eqb];
    eexists; (split; [ eassumption | ]); lia.
Qed.

(** X16.  For 68 points whose coordinates are at most [2^40] in magnitude
    and a screen width [sw] at most [2^40] in magnitude, the returned
    document passes validation against the same width [sw] and any height
    exactly when the regions of the first (left) half of every category lie
    inside the screen: the mirrored half and the counts then pass by
    construction. *)
Theorem pipeline_validation_iff (points : list (Z * Z)) (sw H : Z) (coords : Coords.t) :
  length points = 68%nat ->
  Forall moderate_point points -> moderate sw ->
  calculate_coordinates_from_clicks points sw = Ok coords ->
  passed (validate_coordinates coords sw H) = true <-> left_half_inside coords sw H.
Proof.
  intros Hlen Hpts Hsw Hc. rewrite passed_iff. split.
  - intros [_ Hinside] category i regions item w h Hi _ Hn Hs.
    exact (Hinside category i regions item w h Hi Hn Hs).
  - intros Hleft. split.
    + exact (counts_as_expected_calculated points sw coords Hlen Hc).
    + intros category i regions item w h Hi Hn Hs.
      destruct (Nat.lt_ge_cases i (length regions / 2)) as [ Hlt | Hge ].
      * exact (Hleft category i regions item w h Hi Hlt Hn Hs).
      * replace i with (length regions / 2 + (i - length regions / 2))%nat
          in Hn by lia.
        destruct (document_symmetric_aux points sw coords Hlen Hpts Hsw Hc
                    category regions _ item w h Hi Hn Hs)
          as (litem & Hl & Hlt & Hls & Hx & Hy).
        pose proof (Hleft category _ regions litem w h Hi Hlt Hl Hls) as Hb.
        lia.
Qed.

Lemma pipeline_validation_iff_witness :
  exists coords,
    calculate_coordinates_from_clicks sample_points 1920 = Ok coords
    /\ (passed (validate_coordinates coords 1920 1080) = true
        <-> left_half_inside coords 1920 1080)
    /\ passed (validate_coordinates coords 1920 1080) = true.
Proof.
  destruct (calculate_coordinates_from_clicks sample_points 1920)
    as [ coords | e ] eqn:Hc; [ | vm_compute in Hc; discriminate Hc ].
  exists coords. split; [ reflexivity | ]. split.
  - exact (pipeline_validation_iff sample_points 1920 1080 coords eq_refl
             sample_points_moderate moderate_1920 Hc).
  - vm_compute in Hc. injection Hc as <-. vm_compute. reflexivity.
Defined.

(** ** Click capture *)

Lemma mouse_callback_length (event x y : Z) (pts : list (Z * Z)) :
  (length pts <= 68)%nat -> (length (mouse_callback event x y pts) <= 68)%nat.
Proof.
  intros H. unfold mouse_callback.
  destruct (event =? EVENT_LBUTTONDOWN); [ | exact H ].
  destruct (Nat.leb_spec 68 (length pts)); [ exact H | ].
  rewrite length_app. cbn [length]. lia.
Qed.

Lemma key_step_length (raw : Z) (s s' : capture) :
  (length (clicked_points s) <= 68)%nat ->
  key_step raw s = Continue s' -> (length (clicked_points s') <= 68)%nat.
Proof.
  intros H. unfold key_step. cbv zeta.
  repeat match goal with
         | |- (if ?b then _ else _) = _ -> _ => destruct b
         end;
    intros Hs; inversion Hs; subst; cbn [clicked_points length]; try lia.
  destruct (clicked_points s) as [ | p l ]; [ cbn; lia | ].
  pose proof (removelast_firstn_len (p :: l)) as Hr. rewrite Hr.
  rewrite length_firstn. cbn [length] in *. lia.
Qed.

Lemma key_step_break (raw : Z) (s s' : capture) :
  key_step raw s = Break s' -> s' = s /\ length (clicked_points s) = 68%nat.
Proof.
  unfold key_step. cbv zeta.
  repeat match goal with
         | |- (if ?b then _ else _) = _ -> _ => destruct b eqn:?
         end;
    intros Hs; inversion Hs; subst.
  split; [ reflexivity | ]. apply Nat.eqb_eq. assumption.
Qed.

Lemma capture_loop_invariant (inputs : list input) (s : capture) :
  (length (clicked_points s) <= 68)%nat ->
  match capture_loop inputs s with
  | Running s' => (length (clicked_points s') <= 68)%nat
  | Finished points => length points = 68%nat
  | Exited => True
  end.
Proof.
  revert s. induction inputs as [ | [ event x y | raw ] rest IH ]; intros s Hs;
    cbn [capture_loop].
  - exact Hs.
  - apply IH. cbn [clicked_points]. apply mouse_callback_length. exact Hs.
  - destruct (key_step raw s) as [ s' | s' | ] eqn:Hk.
    + apply IH. eapply key_step_length; eassumption.
    + apply key_step_break in Hk as [-> Hlen]. exact Hlen.
    + exact I.
Qed.

(** X17.  Whatever mouse events and keys arrive, the capture never holds more
    than 68 points, and it leaves its loop with a list of points only on
    ENTER with exactly 68 of them: the list handed on has 68 points. *)
Theorem capture_records_68_points (inputs : list input) :
  (forall s, capture_loop inputs capture_start = Running s ->
             (length (clicked_points s) <= 68)%nat)
  /\ (forall points, capture_loop inputs capture_start = Finished points ->
                     length points = 68%nat).
Proof.
  pose proof (capture_loop_invariant inputs capture_start) as H.
  split.
  - intros s Hs. rewrite Hs in H. apply H. cbn. lia.
  - intros points Hp. rewrite Hp in H. apply H. cbn. lia.
Qed.

Lemma capture_eta (s : capture) :
  mkCapture (clicked_points s) (zoom_mode s) (loupe_mode s) = s.
Proof. destruct s; reflexivity. Qed.

(** X18.  In any zoom or loupe mode: a left click made with fewer than 68
    points recorded, followed by the key [u], leaves the capture as it was
    (the undo takes back exactly that click); [u] with no point recorded
    changes nothing; and a left click made with 68 points recorded is
    dropped. *)
Theorem click_and_undo :
  (forall (s : capture) (x y : Z) (rest : list input),
     (length (clicked_points s) < 68)%nat ->
     capture_loop (Mouse EVENT_LBUTTONDOWN x y :: WaitKey (ord "u"%char) :: rest) s
     = capture_loop rest s)
  /\ (forall (s : capture) (rest : list input),
        clicked_points s = [] ->
        capture_loop (WaitKey (ord "u"%char) :: rest) s = capture_loop rest s)
  /\ (forall (s : capture) (x y : Z) (rest : list input),
        length (clicked_points s) = 68%nat ->
        capture_loop (Mouse EVENT_LBUTTONDOWN x y :: rest) s = capture_loop rest s).
Proof.
  split; [ | split ].
  - intros s x y rest Hlen.
    cbn [capture_loop clicked_points zoom_mode loupe_mode].
    unfold mouse_callback. rewrite Z.eqb_refl.
    destruct (Nat.leb_spec 68 (length (clicked_points s))); [ lia | ].
    unfold key_step. cbn -[removelast length].
    rewrite length_app. cbn [length].
    replace (length (clicked_points s) + 1)%nat
      with (S (length (clicked_points s))) by lia.
    cbn [Nat.ltb Nat.leb]. rewrite removelast_last, capture_eta. reflexivity.
  - intros s rest Hnil. cbn [capture_loop]. unfold key_step.
    rewrite Hnil. reflexivity.
  - intros s x y rest Hlen. cbn [capture_loop]. unfold mouse_callback.
    rewrite Z.eqb_refl, Hlen. cbn [Nat.leb]. rewrite capture_eta. reflexivity.
Qed.

(** ** When the calculation raises [IndexError] *)

Lemma of_int_raise (z : Z) (e : exn) :
  PyFloat.of_int z = Raise e -> e = OverflowError.
Proof.
  unfold PyFloat.of_int.
  destruct (binary_normalize _ _ _ _ _); intros H; inversion H; reflexivity.
Qed.

Lemma int_truediv_2_raise (z : Z) (e : exn) :
  PyFloat.int_truediv_2 z = Raise e -> e = OverflowError.
Proof.
  unfold PyFloat.int_truediv_2.
  destruct (binary_normalize _ _ _ _ _); intros H; inversion H; reflexivity.
Qed.

Lemma to_int_raise (f : spec_float) (e : exn) :
  PyFloat.to_int f = Raise e -> e = OverflowError \/ e = ValueError.
Proof. destruct f; cbn; intros H; inversion H; auto. Qed.

Lemma mapM_raise {A B : Type} (f : A -> result B) (xs : list A) (e : exn) :
  mapM f xs = Raise e -> exists a, In a xs /\ f a = Raise e.
Proof.
  induction xs as [ | a xs IH ]; cbn [mapM]; intros H; [ discriminate H | ].
  destruct (f a) as [ r | e' ] eqn:Ha; cbn [bind] in H.
  - destruct (mapM f xs) as [ rs | e'' ]; cbn [bind] in H; [ discriminate H | ].
    injection H as ->. destruct (IH eq_refl) as (a' & Hin & Ha').
    exists a'. split; [ right; exact Hin | exact Ha' ].
  - injection H as ->. exists a. split; [ left; reflexivity | exact Ha ].
Qed.

Lemma sub_int_Some_raise (f : spec_float) (z : Z) (e : exn) :
  PyFloat.sub_int f (Some z) = Raise e -> e = OverflowError.
Proof.
  unfold PyFloat.sub_int.
  destruct (PyFloat.of_int z) as [ fz | e' ] eqn:Hz; cbn [bind]; intros H;
    inversion H; subst. eapply of_int_raise. exact Hz.
Qed.

(** With a width at hand [mirror_coordinate] can only fail in its float
    arithmetic. *)
Lemma mirror_coordinate_sized_raise (x y w : Z) (h : option Z) (sw : Z) (e : exn) :
  mirror_coordinate x y (Some w) h sw = Raise e ->
  e = OverflowError \/ e = ValueError.
Proof.
  unfold mirror_coordinate.
  destruct (PyFloat.int_truediv_2 sw) as [ sc | e1 ] eqn:H1; cbn [bind].
  - destruct (PyFloat.sub_int _ (Some x)) as [ d1 | e2 ] eqn:H2; cbn [bind].
    + destruct (PyFloat.sub_int d1 (Some w)) as [ d2 | e3 ] eqn:H3; cbn [bind].
      * destruct (PyFloat.to_int d2) as [ m | e4 ] eqn:H4; cbn [bind];
          intros H; inversion H; subst.
        apply to_int_raise in H4. exact H4.
      * intros H; inversion H; subst. apply sub_int_Some_raise in H3. auto.
    + intros H; inversion H; subst. apply sub_int_Some_raise in H2. auto.
  - intros H; inversion H; subst. apply int_truediv_2_raise in H1. auto.
Qed.

Lemma mirror_elements_to_right_sized_raise (left_elements : list Coord.t)
  (sw : Z) (ty : string) (hd : bool) (ew eh : Z) (e : exn) :
  Forall (fun elem => region_width hd ew elem <> None) left_elements ->
  mirror_elements_to_right left_elements sw ty hd ew eh = Raise e ->
  e = OverflowError \/ e = ValueError.
Proof.
  intros Hw. rewrite mirror_elements_to_right_mapM. intros H.
  apply mapM_raise in H as (elem & Hin & H). unfold mirror_element in H.
  rewrite Forall_forall in Hw. specialize (Hw elem Hin).
  destruct (region_width hd ew elem) as [ w | ]; [ | contradiction ].
  destruct (mirror_coordinate _ _ _ _ _) as [ [mx my] | e' ] eqn:Hm;
    cbn [bind] in H; [ discriminate H | ].
  injection H as ->. eapply mirror_coordinate_sized_raise. exact Hm.
Qed.

Ltac mirror_step Hc :=
  match type of Hc with
  | bind (mirror_elements_to_right ?l ?sw ?ty ?hd ?ew ?eh) _ = _ =>
      let r := fresh "r" in
      let e := fresh "e" in
      let Hm := fresh "Hm" in
      let L := fresh "L" in
      destruct (mirror_elements_to_right l sw ty hd ew eh) as [ r | e ] eqn:Hm;
      cbn [bind] in Hc;
      [ pose proof (mirror_elements_to_right_length _ _ _ _ _ _ _ Hm) as L;
        cbn [length] in L; list_of_length r L; clear Hm;
        cbn -[mirror_elements_to_right Z.mul Z.add Z.sub] in Hc
      | injection Hc as <-;
        refine (mirror_elements_to_right_sized_raise _ _ _ _ _ _ _ _ Hm);
        repeat (apply Forall_cons; [ cbn; discriminate | ]); apply Forall_nil ]
  end.

Lemma enough_points_raise (points extra : list (Z * Z)) (sw : Z) (e : exn) :
  length points = 68%nat ->
  calculate_coordinates_from_clicks (points ++ extra) sw = Raise e ->
  e = OverflowError \/ e = ValueError.
Proof.
  intros Hlen Hc. list_of_length points Hlen.
  unfold calculate_coordinates_from_clicks in Hc.
  cbn -[mirror_elements_to_right Z.mul Z.add Z.sub] in Hc.
  do 5 mirror_step Hc.
  discriminate Hc.
Qed.

Lemma short_input_IndexError (points : list (Z * Z)) (sw : Z) :
  (length points < 68)%nat ->
  calculate_coordinates_from_clicks points sw = Raise IndexError.
Proof.
  intros H.
  do 68 (destruct points as [ | ? points ]; [ reflexivity | ]).
  cbn [length] in H. lia.
Qed.

(** X19.  The calculation raises [IndexError] exactly when it is given fewer
    than 68 points; on 68 points or more it returns a document or raises
    [OverflowError] or [ValueError] from the float arithmetic of mirroring,
    never [IndexError] and never [TypeError]. *)
Theorem index_error_iff (points : list (Z * Z)) (sw : Z) :
  (calculate_coordinates_from_clicks points sw = Raise IndexError
   <-> (length points < 68)%nat)
  /\ ((68 <= length points)%nat ->
      forall e, calculate_coordinates_from_clicks points sw = Raise e ->
                e = OverflowError \/ e = ValueError).
Proof.
  assert (Hge : (68 <= length points)%nat ->
                forall e, calculate_coordinates_from_clicks points sw = Raise e ->
                          e = OverflowError \/ e = ValueError).
  { intros Hge e Hc. rewrite <- (firstn_skipn 68 points) in Hc.
    exact (enough_points_raise _ _ _ _ (firstn_length_le points Hge) Hc). }
  split; [ | exact Hge ]. split.
  - intros Hc. destruct (Nat.lt_ge_cases (length points) 68) as [ Hlt | Hge' ];
      [ exact Hlt | exfalso ].
    destruct (Hge Hge' _ Hc) as [ H | H ]; discriminate H.
  - apply short_input_IndexError.
Qed.

(** X20.  The points the capture hands on are always enough: run on the list
    the key loop finishes with, the calculation never raises [IndexError]. *)
Theorem captured_points_suffice (inputs : list input) (points : list (Z * Z)) (sw : Z) :
  capture_loop inputs capture_start = Finished points ->
  calculate_coordinates_from_clicks points sw <> Raise IndexError.
Proof.
  intros Hcap Hc.
  pose proof (capture_loop_invariant inputs capture_start) as Hinv.
  rewrite Hcap in Hinv. assert (Hlen : length points = 68%nat) by (apply Hinv; cbn; lia).
  rewrite <- (app_nil_r points) in Hc.
  destruct (enough_points_raise _ _ _ _ Hlen Hc) as [ H | H ]; discriminate H.
Qed.

Lemma captured_points_suffice_witness :
  capture_loop
    (map (fun p => Mouse EVENT_LBUTTONDOWN (fst p) (snd p)) sample_points
     ++ [WaitKey 13])
    capture_start
  = Finished sample_points
  /\ calculate_coordinates_from_clicks sample_points 1920 <> Raise IndexError.
Proof.
  assert (H : capture_loop
                (map (fun p => Mouse EVENT_LBUTTONDOWN (fst p) (snd p)) sample_points
                 ++ [WaitKey 13])
                capture_start
              = Finished sample_points) by (vm_compute; reflexivity).
  split; [ exact H | ].
  exact (captured_points_suffice _ sample_points 1920 H).
Defined.

(** ** [compare_coordinates] *)

Lemma compare_coordinates_mapM {F : Type} (pow_half : Z -> result F)
  (expected calculated : list Item.t) (category : string) :
  compare_coordinates pow_half expected calculated category
  = mapM (compare_one pow_half) (enumerate (combine expected calculated)).
Proof.
  unfold compare_coordinates.
  rewrite for_each_ext
    with (body2 := fun a acc => r <- compare_one pow_half a ;; Ok (acc ++ [r])).
  - rewrite for_each_append. destruct (mapM _ _); reflexivity.
  - intros [i [exp calc]] acc. unfold compare_one.
    destruct (Item.width exp) as [ we | ]; destruct (Item.width calc) as [ wc | ];
      cbn [bind];
      try (destruct (item_size (Item.height calc)) as [ hc | e1 ]; cbn [bind];
           [ destruct (item_size (Item.height exp)) as [ he | e2 ]; cbn [bind] | ]);
      try reflexivity;
      destruct (pow_half _); reflexivity.
Qed.

Lemma compare_one_compares {F : Type} (pow_half : Z -> result F) (i : nat)
  (exp calc : Item.t) (c : comparison F) :
  compare_one pow_half (i, (exp, calc)) = Ok c -> compares pow_half i exp calc c.
Proof.
  unfold compare_one, compares. intros H.
  apply bind_Ok_inv in H as ([dw dh] & Hd & H).
  apply bind_Ok_inv in H as (pe & Hpe & [= <-]). cbn.
  repeat (split; [ reflexivity | ]). split; [ | exact Hpe ].
  destruct (Item.width exp) as [ we | ]; destruct (Item.width calc) as [ wc | ];
    try (injection Hd as <- <-; split; reflexivity).
  apply bind_Ok_inv in Hd as (hc & Hhc & Hd).
  apply bind_Ok_inv in Hd as (he & Hhe & [= <- <-]).
  split; [ reflexivity | ]. exists he, hc.
  destruct (Item.height exp); [ | discriminate Hhe ].
  destruct (Item.height calc); [ | discriminate Hhc ].
  injection Hhe as ->. injection Hhc as ->. auto.
Qed.

Lemma Forall2_nth_error_r {A B : Type} (R : A -> B -> Prop) (l : list A) (l' : list B)
  (i : nat) (b : B) :
  Forall2 R l l' -> nth_error l' i = Some b ->
  exists a, nth_error l i = Some a /\ R a b.
Proof.
  intros H. revert i. induction H as [ | a b' l l' Hab _ IH ]; intros i Hn.
  - destruct i; discriminate Hn.
  - destruct i as [ | i ]; cbn in *.
    + injection Hn as <-. eauto.
    + apply IH. exact Hn.
Qed.

Lemma nth_error_combine_seq {A : Type} (xs : list A) (k i : nat) :
  nth_error (combine (seq k (length xs)) xs) i
  = option_map (fun a => ((k + i)%nat, a)) (nth_error xs i).
Proof.
  revert k i. induction xs as [ | x xs IH ]; intros k i.
  - destruct i; reflexivity.
  - destruct i as [ | i ]; cbn [length seq combine nth_error option_map].
    + rewrite Nat.add_0_r. reflexivity.
    + rewrite IH. destruct (nth_error xs i); cbn [option_map]; [ | reflexivity ].
      do 2 f_equal. lia.
Qed.

Lemma nth_error_enumerate {A : Type} (xs : list A) (i j : nat) (a : A) :
  nth_error (enumerate xs) i = Some (j, a) -> j = i /\ nth_error xs i = Some a.
Proof.
  unfold enumerate. rewrite nth_error_combine_seq.
  destruct (nth_error xs i) as [ a' | ]; cbn [option_map]; intros H;
    [ | discriminate H ].
  injection H as <- <-. auto.
Qed.

Lemma nth_error_combine {A B : Type} (l1 : list A) (l2 : list B) (i : nat)
  (a : A) (b : B) :
  nth_error (combine l1 l2) i = Some (a, b) ->
  nth_error l1 i = Some a /\ nth_error l2 i = Some b.
Proof.
  revert l2 i. induction l1 as [ | x l1 IH ]; intros l2 i H.
  - destruct i; discriminate H.
  - destruct l2 as [ | y l2 ]; [ destruct i; discriminate H | ].
    destruct i as [ | i ]; cbn in *.
    + injection H as <- <-. auto.
    + apply IH. exact H.
Qed.

(** X21.  When [compare_coordinates] returns, it returns one entry per pair
    of regions at the same position, as many as the shorter list has, in
    order.  Entry [i] holds the two regions, the identity and slot order of
    the expected one, [delta_x] and [delta_y] as calculated minus expected,
    and the width and height differences when both regions have a width (0
    and 0 otherwise). *)
Theorem compare_coordinates_entries {F : Type} (pow_half : Z -> result F)
  (expected calculated : list Item.t) (category : string)
  (comparisons : list (comparison F)) :
  compare_coordinates pow_half expected calculated category = Ok comparisons ->
  length comparisons = Nat.min (length expected) (length calculated)
  /\ forall i c,
       nth_error comparisons i = Some c ->
       exists exp calc,
         nth_error expected i = Some exp
         /\ nth_error calculated i = Some calc
         /\ compares pow_half i exp calc c.
Proof.
  rewrite compare_coordinates_mapM. intros H. apply mapM_Forall2 in H. split.
  - apply Forall2_length in H. rewrite <- H. unfold enumerate.
    rewrite length_combine, length_seq, Nat.min_id. apply length_combine.
  - intros i c Hn.
    destruct (Forall2_nth_error_r _ _ _ _ _ H Hn) as ([j [exp calc]] & He & Hc).
    apply nth_error_enumerate in He as [-> He].
    apply nth_error_combine in He as [Hexp Hcalc].
    exists exp, calc. split; [ exact Hexp | ]. split; [ exact Hcalc | ].
    apply compare_one_compares. exact Hc.
Qed.

Lemma compare_coordinates_entries_witness :
  let pow_half := fun n : Z => Ok (Z.sqrt n) in
  let expected := [ Item.mk 100 100 (Some 100) (Some 110) (Some 0) None None ] in
  let calculated := [ Item.mk 103 96 (Some 98) (Some 110) (Some 0) None None;
                      Item.mk 0 0 None None None None None ] in
  exists comparisons,
    compare_coordinates pow_half expected calculated "models_coords" = Ok comparisons
    /\ length comparisons = Nat.min (length expected) (length calculated)
    /\ forall i c,
         nth_error comparisons i = Some c ->
         exists exp calc,
           nth_error expected i = Some exp
           /\ nth_error calculated i = Some calc
           /\ compares pow_half i exp calc c.
Proof.
  intros pow_half expected calculated.
  eexists. split; [ reflexivity | ].
  exact (compare_coordinates_entries pow_half expected calculated "models_coords"
           _ eq_refl).
Defined.

(** X22.  Comparing a list of regions with itself gives only zero
    differences, and every position error is the power taken at 0. *)
Theorem compare_with_itself {F : Type} (pow_half : Z -> result F)
  (regions : list Item.t) (category : string) (comparisons : list (comparison F)) :
  compare_coordinates pow_half regions regions category = Ok comparisons ->
  length comparisons = length regions
  /\ Forall (fun c => delta_x c = 0 /\ delta_y c = 0
                      /\ delta_width c = 0 /\ delta_height c = 0
                      /\ pow_half 0 = Ok (position_error c))
            comparisons.
Proof.
  intros H. apply compare_coordinates_entries in H as [Hlen Hall].
  split; [ rewrite Hlen; apply Nat.min_id | ].
  apply Forall_forall. intros c Hin. apply In_nth_error in Hin as [i Hn].
  destruct (Hall i c Hn) as (exp & calc & He & Hc & Hcmp).
  rewrite He in Hc. injection Hc as <-.
  destruct Hcmp as (_ & _ & _ & _ & _ & Hx & Hy & Hwh & Hp).
  rewrite Z.sub_diag in Hx, Hy. rewrite Hx, Hy in Hp.
  repeat split; try assumption.
  - destruct (Item.width exp) as [ w | ]; [ | tauto ].
    destruct Hwh as [Hw _]. lia.
  - destruct (Item.width exp) as [ w | ]; [ | tauto ].
    destruct Hwh as (_ & he & hc & Hhe & Hhc & Hd).
    rewrite Hhe in Hhc. injection Hhc as <-. lia.
Qed.

Lemma compare_with_itself_witness :
  let pow_half := fun n : Z => Ok (Z.sqrt n) in
  let regions := [ Item.mk 100 100 (Some 100) (Some 110) (Some 0) None None;
                   Item.mk 50 120 None None (Some 1) None None ] in
  exists comparisons,
    compare_coordinates pow_half regions regions "models_coords" = Ok comparisons
    /\ length comparisons = length regions
    /\ Forall (fun c => delta_x c = 0 /\ delta_y c = 0
                        /\ delta_width c = 0 /\ delta_height c = 0
                        /\ pow_half 0 = Ok (position_error c))
              comparisons.
Proof.
  intros pow_half regions.
  eexists. split; [ reflexivity | ].
  exact (compare_with_itself pow_half regions "models_coords" _ eq_refl).
Defined.

Lemma mapM_raise_at {A B : Type} (f : A -> result B) (xs : list A) (k : nat)
  (a : A) (e : exn) :
  nth_error xs k = Some a -> f a = Raise e ->
  (forall j b, (j < k)%nat -> nth_error xs j = Some b ->
               (exists r, f b = Ok r) \/ f b = Raise e) ->
  mapM f xs = Raise e.
Proof.
  revert k. induction xs as [ | x xs IH ]; intros k Hn Ha Hbefore.
  - destruct k; discriminate Hn.
  - destruct k as [ | k ]; cbn [nth_error] in Hn; cbn [mapM].
    + injection Hn as ->. rewrite Ha. reflexivity.
    + destruct (Hbefore 0%nat x (Nat.lt_0_succ k) eq_refl) as [ [r Hr] | Hr ];
        rewrite Hr; cbn [bind]; [ | reflexivity ].
      rewrite (IH k Hn Ha); [ reflexivity | ].
      intros j b Hj Hb. apply (Hbefore (S j) b); [ lia | exact Hb ].
Qed.

Lemma nth_error_combine_Some {A B : Type} (l1 : list A) (l2 : list B) (i : nat)
  (a : A) (b : B) :
  nth_error l1 i = Some a -> nth_error l2 i = Some b ->
  nth_error (combine l1 l2) i = Some (a, b).
Proof.
  revert l2 i. induction l1 as [ | x l1 IH ]; intros l2 i H1 H2.
  - destruct i; discriminate H1.
  - destruct l2 as [ | y l2 ]; [ destruct i; discriminate H2 | ].
    destruct i as [ | i ]; cbn in *.
    + injection H1 as <-. injection H2 as <-. reflexivity.
    + apply IH; assumption.
Qed.

Lemma compare_one_Ok_or_KeyError {F : Type} (pow_half : Z -> result F)
  (i : nat) (exp calc : Item.t) :
  (exists f, pow_half ((Item.x calc - Item.x exp) ^ 2
                       + (Item.y calc - Item.y exp) ^ 2) = Ok f) ->
  (exists c, compare_one pow_half (i, (exp, calc)) = Ok c)
  \/ compare_one pow_half (i, (exp, calc)) = Raise KeyError.
Proof.
  intros [pe Hpe]. unfold compare_one.
  destruct (Item.width exp) as [ we | ]; destruct (Item.width calc) as [ wc | ];
    cbn [bind]; try (rewrite Hpe; cbn [bind]; left; eexists; reflexivity).
  destruct (Item.height calc) as [ hc | ]; cbn [item_size bind]; [ | right; reflexivity ].
  destruct (Item.height exp) as [ he | ]; cbn [item_size bind]; [ | right; reflexivity ].
  rewrite Hpe. cbn [bind]. left. eexists. reflexivity.
Qed.

(** X23.  A pair of regions that both have a width while one of them has no
    height makes [compare_coordinates] raise [KeyError]; no list is returned.
    The only condition is on the pairs before that one: the float power of
    their position error must not raise, or its exception would come first.
    The power is never taken for the pair itself, nor for any pair after
    it. *)
Theorem compare_missing_height_raises_KeyError {F : Type}
  (pow_half : Z -> result F) (expected calculated : list Item.t)
  (category : string) (i : nat) (exp calc : Item.t) :
  (forall j e c,
     (j < i)%nat -> nth_error expected j = Some e -> nth_error calculated j = Some c ->
     exists f, pow_half ((Item.x c - Item.x e) ^ 2 + (Item.y c - Item.y e) ^ 2)
               = Ok f) ->
  nth_error expected i = Some exp -> nth_error calculated i = Some calc ->
  Item.width exp <> None -> Item.width calc <> None ->
  Item.height exp = None \/ Item.height calc = None ->
  compare_coordinates pow_half expected calculated category = Raise KeyError.
Proof.
  intros Hpow He Hc Hwe Hwc Hh. rewrite compare_coordinates_mapM.
  apply (mapM_raise_at _ _ i (i, (exp, calc))).
  - unfold enumerate. rewrite nth_error_combine_seq.
    rewrite (nth_error_combine_Some _ _ _ _ _ He Hc). reflexivity.
  - unfold compare_one.
    destruct (Item.width exp) as [ we | ]; [ | contradiction ].
    destruct (Item.width calc) as [ wc | ]; [ | contradiction ].
    destruct Hh as [ Hh | Hh ]; rewrite Hh; cbn [item_size bind].
    + destruct (Item.height calc); reflexivity.
    + reflexivity.
  - intros j [j' [e c]] Hj Hn.
    apply nth_error_enumerate in Hn as [-> Hn].
    apply nth_error_combine in Hn as [He' Hc'].
    apply compare_one_Ok_or_KeyError. exact (Hpow j e c Hj He' Hc').
Qed.

Lemma compare_missing_height_raises_KeyError_witness :
  let pow_half :=
    fun n : Z => if n <? 2 ^ 1024 then Ok (Z.sqrt n) else Raise OverflowError in
  let expected :=
    [ Item.mk 700 150 (Some 60) (Some 60) (Some 0) None None;
      Item.mk 100 100 (Some 100) (Some 110) (Some 1) None None;
      Item.mk 0 0 (Some 5) (Some 5) (Some 2) None None ] in
  let calculated :=
    [ Item.mk 703 146 (Some 60) (Some 61) (Some 0) None None;
      Item.mk 103 96 (Some 98) None (Some 1) None None;
      Item.mk (2 ^ 600) 0 (Some 5) (Some 5) (Some 2) None None ] in
  compare_coordinates pow_half expected calculated "models_coords" = Raise KeyError.
Proof.
  intros pow_half expected calculated.
  apply (compare_missing_height_raises_KeyError pow_half expected calculated
           "models_coords" 1
           (Item.mk 100 100 (Some 100) (Some 110) (Some 1) None None)
           (Item.mk 103 96 (Some 98) None (Some 1) None None)).
  - intros j e c Hj He Hc.
    destruct j as [ | j ]; [ | lia ].
    injection He as <-. injection Hc as <-. eexists. reflexivity.
  - reflexivity.
  - reflexivity.
  - discriminate.
  - discriminate.
  - right. reflexivity.
Defined.

(** ** Generation and stamping on lists of any length *)

(** X24.  [generate_selected_abilities] on any list of participant boxes: an
    empty list raises [IndexError] (the subscript [heroes[0]]); a non-empty
    one gives four slots per box, in the order of the boxes, each group at
    the four template columns, on the row of the first anchor moved by the
    distance of the box from the first box, with the identity of the box and
    the fourth slot flagged terminal. *)
Theorem selected_abilities_of_any_heroes (ability1 ability2 : Dims.t)
  (selected_params : Params.t) :
  generate_selected_abilities ability1 ability2 [] selected_params = Raise IndexError
  /\ forall (h0 : Coord.t) (heroes : list Coord.t),
       generate_selected_abilities ability1 ability2 (h0 :: heroes) selected_params
       = Ok (flat_map (selected_slots_of ability1 ability2 (Coord.y h0))
                      (h0 :: heroes))
       /\ length (flat_map (selected_slots_of ability1 ability2 (Coord.y h0))
                           (h0 :: heroes))
          = (4 * length (h0 :: heroes))%nat.
Proof.
  split; [ reflexivity | ]. intros h0 heroes. split.
  - apply generate_selected_abilities_eq. reflexivity.
  - generalize (h0 :: heroes) as l. intros l.
    induction l as [ | a l IH ]; [ reflexivity | ].
    cbn [flat_map]. rewrite length_app, IH. cbn [length selected_slots_of].
    unfold selected_slots_of. rewrite length_map. cbn. lia.
Qed.

Lemma update_map_fixed {A B : Type} (proj : A -> B) (f : A -> A) (xs ys : list A)
  (i : nat) :
  (forall a, proj (f a) = proj a) ->
  update xs i f = Ok ys -> map proj ys = map proj xs.
Proof.
  intros Hf. revert ys i. induction xs as [ | a xs IH ]; intros ys i H.
  - discriminate H.
  - destruct i as [ | i ]; cbn in H.
    + injection H as <-. cbn. rewrite Hf. reflexivity.
    + apply bind_Ok_inv in H as (xs' & Hxs & [= <-]).
      cbn. rewrite (IH _ _ Hxs). reflexivity.
Qed.

(** X25.  Stamping touches labels only: whatever list [apply_ultimate_hero_orders]
    or [apply_standard_hero_orders] returns has the regions of its input in
    the same order with the same position, size and terminal flag, and the
    capstone stamping leaves the slot order alone as well. *)
Theorem stamping_keeps_geometry (regions stamped : list Coord.t) (is_left_side : bool) :
  (apply_ultimate_hero_orders regions is_left_side = Ok stamped ->
   map (fun c => (Coord.x c, Coord.y c, Coord.width c, Coord.height c,
                  Coord.ability_order c, Coord.is_ultimate c)) stamped
   = map (fun c => (Coord.x c, Coord.y c, Coord.width c, Coord.height c,
                    Coord.ability_order c, Coord.is_ultimate c)) regions)
  /\ (apply_standard_hero_orders regions is_left_side = Ok stamped ->
      map (fun c => (Coord.x c, Coord.y c, Coord.width c, Coord.height c,
                     Coord.is_ultimate c)) stamped
      = map (fun c => (Coord.x c, Coord.y c, Coord.width c, Coord.height c,
                       Coord.is_ultimate c)) regions).
Proof.
  split.
  - unfold apply_ultimate_hero_orders.
    apply (for_each_invariant
             (fun l => map (fun c => (Coord.x c, Coord.y c, Coord.width c,
                                      Coord.height c, Coord.ability_order c,
                                      Coord.is_ultimate c)) l
                       = map (fun c => (Coord.x c, Coord.y c, Coord.width c,
                                        Coord.height c, Coord.ability_order c,
                                        Coord.is_ultimate c)) regions));
      [ reflexivity | ].
    intros [i ult] t t' Ht H. apply bind_Ok_inv in H as (o & _ & H).
    rewrite <- Ht. eapply update_map_fixed; [ | exact H ]. reflexivity.
  - unfold apply_standard_hero_orders.
    apply (for_each_invariant
             (fun l => map (fun c => (Coord.x c, Coord.y c, Coord.width c,
                                      Coord.height c, Coord.is_ultimate c)) l
                       = map (fun c => (Coord.x c, Coord.y c, Coord.width c,
                                        Coord.height c, Coord.is_ultimate c))
                             regions));
      [ reflexivity | ].
    intros row t t' Ht.
    apply (for_each_invariant
             (fun l => map (fun c => (Coord.x c, Coord.y c, Coord.width c,
                                      Coord.height c, Coord.is_ultimate c)) l
                       = map (fun c => (Coord.x c, Coord.y c, Coord.width c,
                                        Coord.height c, Coord.is_ultimate c))
                             regions));
      [ exact Ht | ].
    intros col u u' Hu H. apply bind_Ok_inv in H as (ho & _ & H).
    apply bind_Ok_inv in H as (u1 & H1 & H).
    rewrite <- Hu.
    etransitivity; [ eapply update_map_fixed; [ | exact H ]; reflexivity | ].
    eapply update_map_fixed; [ | exact H1 ]. reflexivity.
Qed.

(** X26.  How many regions the stampings accept.  [apply_ultimate_hero_orders]
    stamps a list of at most 6 regions, the first [n] identities of its table
    onto [n] regions, and raises [IndexError] on more than 6.
    [apply_standard_hero_orders] raises [IndexError] on fewer than 18 regions
    and, given more than 18, stamps the first 18 and returns the others
    unchanged. *)
Theorem stamping_list_lengths (regions rest : list Coord.t) (is_left_side : bool) :
  ((length regions <= 6)%nat ->
   exists stamped,
     apply_ultimate_hero_orders regions is_left_side = Ok stamped
     /\ map Coord.hero_order stamped
        = map Some (firstn (length regions)
                           (if is_left_side then [0; 1; 2; 3; 4; 10]
                            else [7; 6; 5; 11; 9; 8])))
  /\ ((6 < length regions)%nat ->
      apply_ultimate_hero_orders regions is_left_side = Raise IndexError)
  /\ ((length regions < 18)%nat ->
      apply_standard_hero_orders regions is_left_side = Raise IndexError)
  /\ (length regions = 18%nat ->
      exists stamped,
        apply_standard_hero_orders regions is_left_side = Ok stamped
        /\ apply_standard_hero_orders (regions ++ rest) is_left_side
           = Ok (stamped ++ rest)).
Proof.
  split; [ | split; [ | split ] ].
  - intros H.
    do 7 (destruct regions as [ | ? regions ];
          [ destruct is_left_side; eexists; split; reflexivity | ]).
    cbn [length] in H. lia.
  - intros H.
    do 7 (destruct regions as [ | ? regions ]; [ cbn [length] in H; lia | ]).
    destruct is_left_side; reflexivity.
  - intros H.
    do 18 (destruct regions as [ | ? regions ];
           [ destruct is_left_side; reflexivity | ]).
    cbn [length] in H. lia.
  - intros H. list_of_length regions H.
    destruct is_left_side; eexists; split; reflexivity.
Qed.
